(** * Delivery-agent assignment and live agent locations (server.js)

    A shallow embedding of the two assignment handlers
    ([POST /api/admin/orders/:orderId/assign], [PUT /api/orders/:orderId/assign])
    and of the live-location handlers ([POST /api/delivery/location],
    [GET /api/delivery/active], the [agentLocation] socket event), with the
    properties the specification states about them.  The handlers around
    them follow: approval of agents, reviews, the location of a restaurant,
    menu items, the token cache, the orders of a user, featured restaurants,
    registration and approval of restaurants.

    JavaScript numbers are IEEE 754 binary64 values: they are modelled by
    Rocq's primitive [float], whose operations are the same ones.  The
    functions the language leaves to the implementation ([Math.sin],
    [Math.cos], [Math.atan2], [**], printing of non-integral numbers) are
    fields of a record, [Builtins]. *)

From Stdlib Require Import ZArith Floats Lia Bool List Sorted Permutation.
From Stdlib Require Uint63.
From stdpp Require Import gmap strings pretty.
Import ListNotations.

Local Open Scope string_scope.
Local Open Scope Z_scope.

(** ** Numbers *)

Abbreviation SF := Prim2SF.

(** [!x] is false exactly for numbers other than [+0], [-0] and [NaN]. *)
Definition truthy_num (x : float) : bool := negb ((x =? 0)%float || is_nan x).

(** [x || y] on numbers. *)
Definition or_num (x y : float) : float := if truthy_num x then x else y.

(** [Math.PI], the double nearest to pi. *)
Definition PI : float := 0x1.921fb54442d18p+1%float.

(** The implementation-approximated built-ins of the host. *)
Record Builtins : Type := {
  Math_sin : float -> float;
  Math_cos : float -> float;
  Math_atan2 : float -> float -> float;
  (** [base ** exponent] *)
  exponentiate : float -> float -> float;
  (** the digits [Number::toString] prints for a finite number that is not
      an integer below 2^53 *)
  toString_digits : float -> string
}.

(** What the derivations below use of a host's built-ins.  [sin_zero],
    [atan2_zero] and [exp_zero] are ECMAScript's own special cases
    ([Math.sin(+0)] is [+0], [Math.atan2(+0, x)] is [+0] for [x > 0],
    [(+0) ** y] is [+0] for [y > 0]); [cos_range] bounds the cosine of a
    finite number by 1; [sin_odd] and [exp_even] say that the approximation
    treats [x] and [-x] alike, as fdlibm-derived implementations (V8's
    among them) do. *)
Record Conforms (E : Builtins) : Prop := {
  sin_zero : Math_sin E 0%float = 0%float;
  sin_odd : forall x, Math_sin E (- x)%float = (- Math_sin E x)%float;
  cos_range : forall x, is_finite x = true -> (abs (Math_cos E x) <=? 1)%float = true;
  atan2_zero : Math_atan2 E 0%float 1%float = 0%float;
  exp_zero : exponentiate E 0%float 2%float = 0%float;
  exp_even : forall x, exponentiate E (- x)%float 2%float = exponentiate E x 2%float
}.

(** A first-order numerical library (sin x ~ x, cos x ~ 1, atan2 y x ~ y/x),
    the concrete host at which statements are evaluated. *)
Definition smallAngle : Builtins := {|
  Math_sin := fun x => x;
  Math_cos := fun _ => 1%float;
  Math_atan2 := fun y x => (y / x)%float;
  exponentiate := fun b _ => (b * b)%float;
  toString_digits := fun _ => "?"
|}.

(** ** Haversine distance *)

Section Haversine.
Context (E : Builtins).

(** [const toRad = (d) => (d * Math.PI) / 180] *)
Definition toRad (d : float) : float := ((d * PI) / 180)%float.

(** [const R = 6371; // km] *)
Definition R : float := 6371%float.

(** [dist] of the admin handler (server.js 1684-1693). *)
Definition dist (aLat aLng bLat bLng : float) : float :=
  let dLat := toRad (bLat - aLat) in
  let dLng := toRad (bLng - aLng) in
  let sa :=
    (Math_sin E (dLat / 2) * Math_sin E (dLat / 2) +
     Math_cos E (toRad aLat) * Math_cos E (toRad bLat) *
     Math_sin E (dLng / 2) * Math_sin E (dLng / 2))%float in
  let c := (2 * Math_atan2 E (PrimFloat.sqrt sa) (PrimFloat.sqrt (1 - sa)))%float in
  (R * c)%float.

(** [dist] of the PUT handler (server.js 710-720): the squares are
    written with [** 2]. *)
Definition dist_put (aLat aLng bLat bLng : float) : float :=
  let dLat := toRad (bLat - aLat) in
  let dLng := toRad (bLng - aLng) in
  let sa :=
    (exponentiate E (Math_sin E (dLat / 2)) 2 +
     Math_cos E (toRad aLat) * Math_cos E (toRad bLat) *
     exponentiate E (Math_sin E (dLng / 2)) 2)%float in
  let c := (2 * Math_atan2 E (PrimFloat.sqrt sa) (PrimFloat.sqrt (1 - sa)))%float in
  (R * c)%float.
End Haversine.

(** A coordinate of the data model: latitude in [-90, 90], longitude in
    [-180, 180] (NaN and the infinities are outside both). *)
Definition inRange (lat lng : float) : bool :=
  ((-90 <=? lat) && (lat <=? 90) && (-180 <=? lng) && (lng <=? 180))%float.

(** ** [Array.prototype.sort]

    The sort is stable, and with a consistent comparator every stable sort
    returns the same array; it is modelled as the stable insertion sort.
    An element moves behind another one exactly when the comparator, called
    on the two, returns a number above zero (a [NaN] counts as [+0]).
    [sort_Permutation], [sort_sorted] and [sort_stable] below are the three
    properties the language asks of the result. *)

Section Sort.
Context {A : Type} (comparefn : A -> A -> float).

Fixpoint insert (x : A) (l : list A) : list A :=
  match l with
  | [] => [x]
  | y :: l' =>
      if (0 <? comparefn x y)%float then y :: insert x l' else x :: y :: l'
  end.

Definition sort (l : list A) : list A := fold_right insert [] l.
End Sort.

(** ** Candidates and their ranking *)

(** A row of [SELECT id, lat, lng FROM agents ...], or an element of the
    [agents] array of a request body. *)
Record agentRow : Type := { ag_id : Z; ag_lat : float; ag_lng : float }.

(** [{ id, d, load }] *)
Record candidate : Type := { c_id : Z; c_d : float; c_load : float }.

(** [(a, b) => a.load - b.load || a.d - b.d] *)
Definition byLoadThenDistance (a b : candidate) : float :=
  or_num (c_load a - c_load b)%float (c_d a - c_d b)%float.

Section Ranking.
(** the handler's own [dist], the pickup point, the radius, and the
    workload of an agent id, [loadMap.get(a.id) ?? 0] *)
Context (dist : float -> float -> float -> float -> float).
Context (rlat rlng ASSIGN_MAX_KM : float) (loadOf : Z -> float).

(** [agents.map(a => ({ id: a.id, d: dist(rlat, rlng, Number(a.lat),
    Number(a.lng)), load: ... }))] *)
Definition candidates (agents : list agentRow) : list candidate :=
  List.map (fun a => {| c_id := ag_id a;
                        c_d := dist rlat rlng (ag_lat a) (ag_lng a);
                        c_load := loadOf (ag_id a) |}) agents.

(** [candidates.filter(c => c.d <= ASSIGN_MAX_KM)] *)
Definition withinRadius (cs : list candidate) : list candidate :=
  List.filter (fun c => (c_d c <=? ASSIGN_MAX_KM)%float) cs.

(** [candidates.sort(...)] on the filtered array *)
Definition ranked (agents : list agentRow) : list candidate :=
  sort byLoadThenDistance (withinRadius (candidates agents)).

(** [const best = candidates[0]], when the filtered array is not empty *)
Definition selectBest (agents : list agentRow) : option candidate :=
  match ranked agents with
  | [] => None
  | best :: _ => Some best
  end.
End Ranking.

(** ** The database *)

Record orderRow : Type := {
  o_id : Z;
  o_restaurant_id : option Z;
  o_agent_id : option Z;
  o_status : string
}.

Record restaurantRow : Type := {
  r_id : Z;
  r_latitude : option float;
  r_longitude : option float
}.

(** A row of the [agents] table; [lat] and [lng] may be NULL. *)
Record agentRecord : Type := {
  a_id : Z;
  a_lat : option float;
  a_lng : option float;
  a_status : string
}.

Record database : Type := {
  orders : list orderRow;
  restaurants : list restaurantRow;
  agents : list agentRecord
}.

(** The statements a handler sends; [db.execute] may reject any of them. *)
Inductive statement : Type :=
  | SelectOrder | SelectRestaurant | SelectAgents | SelectLoads | UpdateOrder.

(** The JSON replies of the two assignment handlers. *)
Inductive response : Type :=
  | OrderNotFound                       (* 404 "Order not found" *)
  | OrderMissingRestaurant              (* 400 "Order missing restaurant reference" *)
  | RestaurantLocationUnavailable       (* 400 "Restaurant location unavailable" *)
  | NoActiveAgentsAvailable             (* 400 "No active agents with location available" *)
  | NoActiveAgentsWithin (km : float)   (* 400 `No active agents within ${ASSIGN_MAX_KM} km` *)
  | MissingData                         (* 400 "Missing data for assignment" *)
  | AgentAssigned (agent_id : Z) (d : float)
      (* 200 "Agent assigned (nearest)", agent_id: best.id; the body shows
         best.d rounded to two decimals, [d] is best.d itself *)
  | FailedToAssign.                     (* 500 "Failed to assign agent" *)

(** [SELECT id, restaurant_id FROM orders WHERE id = ?] *)
Definition selectOrder (db : database) (orderId : Z) : list orderRow :=
  List.filter (fun o => Z.eqb (o_id o) orderId) (orders db).

(** [SELECT latitude, longitude FROM restaurants WHERE id = ?] *)
Definition selectRestaurant (db : database) (rid : Z) : list restaurantRow :=
  List.filter (fun r => Z.eqb (r_id r) rid) (restaurants db).

(** [SELECT id, lat, lng FROM agents WHERE status = 'Active' AND lat IS NOT
    NULL AND lng IS NOT NULL], in table order.  Statuses are compared in the
    spelling the application writes them in. *)
Fixpoint selectAgents (rows : list agentRecord) : list agentRow :=
  match rows with
  | [] => []
  | a :: rows' =>
      match a_lat a, a_lng a with
      | Some lat, Some lng =>
          if String.eqb (a_status a) "Active"
          then {| ag_id := a_id a; ag_lat := lat; ag_lng := lng |} :: selectAgents rows'
          else selectAgents rows'
      | _, _ => selectAgents rows'
      end
  end.

(** [Number(r.cnt)] for a row count (exact: a count is far below 2^53). *)
Definition Number_of_count (n : nat) : float :=
  of_uint63 (Uint63.of_Z (Z.of_nat n)).

(** The rows an order contributes to the workload query: status in the
    configured list and an agent set. *)
Definition countsFor (statuses : list string) (o : orderRow) : option Z :=
  if existsb (String.eqb (o_status o)) statuses then o_agent_id o else None.

(** [SELECT agent_id, COUNT( * ) AS cnt FROM orders WHERE status IN (...)
    AND agent_id IS NOT NULL GROUP BY agent_id] *)
Definition selectLoads (statuses : list string) (db : database) : list (Z * nat) :=
  let ids := omap (countsFor statuses) (orders db) in
  List.map (fun i => (i, count_occ Z.eq_dec ids i)) (nodup Z.eq_dec ids).

(** [loads.forEach(r => loadMap.set(r.agent_id, Number(r.cnt)))] *)
Definition setLoads (loads : list (Z * nat)) : gmap Z float :=
  fold_left (fun m r => <[ fst r := Number_of_count (snd r) ]> m) loads ∅.

(** [UPDATE orders SET agent_id = ?, status = 'Confirmed' WHERE id = ?] *)
Definition updateOrder (db : database) (agentId orderId : Z) : database :=
  {| orders := List.map (fun o =>
                 if Z.eqb (o_id o) orderId
                 then {| o_id := o_id o; o_restaurant_id := o_restaurant_id o;
                         o_agent_id := Some agentId; o_status := "Confirmed" |}
                 else o) (orders db);
     restaurants := restaurants db;
     agents := agents db |}.

(** ** [POST /api/admin/orders/:orderId/assign] (server.js 1636-1718)

    [orderId] is the id the route parameter denotes. *)

(** [process.env], as the handler reads it. *)
Record environment : Type := {
  (** [Number(process.env.ASSIGN_MAX_KM)]: [NaN] when the variable is unset
      or not a number *)
  env_ASSIGN_MAX_KM : float;
  (** [process.env.ASSIGN_LOAD_STATUSES] when it is set and not empty, split
      at the commas, trimmed, empty items dropped *)
  env_ASSIGN_LOAD_STATUSES : option (list string)
}.

(** [Number(process.env.ASSIGN_MAX_KM) || 10] *)
Definition ASSIGN_MAX_KM (env : environment) : float :=
  or_num (env_ASSIGN_MAX_KM env) 10%float.

(** [(process.env.ASSIGN_LOAD_STATUSES || 'Pending,Confirmed,Picked')
    .split(',').map(s => s.trim()).filter(Boolean)] *)
Definition ASSIGN_LOAD_STATUSES (env : environment) : list string :=
  default ["Pending"; "Confirmed"; "Picked"] (env_ASSIGN_LOAD_STATUSES env).

(** [let loadMap = new Map(); try { ... } catch (_) {}] (1670-1679): the
    map stays empty when the workload query throws.  An empty status list
    makes the statement [IN ()], which the server rejects like any other
    failure of the query. *)
Definition loadWorkload (env : environment) (fails : statement -> bool)
    (db : database) : gmap Z float :=
  match ASSIGN_LOAD_STATUSES env with
  | [] => ∅
  | statuses =>
      if fails SelectLoads then ∅ else setLoads (selectLoads statuses db)
  end.

(** [loadMap.get(a.id) ?? 0] *)
Definition loadOf (loadMap : gmap Z float) (i : Z) : float :=
  default 0%float (loadMap !! i).

Definition adminAssign (E : Builtins) (env : environment) (fails : statement -> bool)
    (db : database) (orderId : Z) : database * response :=
  if fails SelectOrder then (db, FailedToAssign) else
  match selectOrder db orderId with
  | [] => (db, OrderNotFound)
  | o :: _ =>
  match o_restaurant_id o with
  | None => (db, OrderMissingRestaurant)
  | Some restaurant_id =>
  if restaurant_id =? 0 then (db, OrderMissingRestaurant) else
  if fails SelectRestaurant then (db, FailedToAssign) else
  match selectRestaurant db restaurant_id with
  | [] => (db, RestaurantLocationUnavailable)
  | r :: _ =>
  match r_latitude r, r_longitude r with
  | Some rlat, Some rlng =>
  if fails SelectAgents then (db, FailedToAssign) else
  match selectAgents (agents db) with
  | [] => (db, NoActiveAgentsAvailable)
  | agents =>
  let loadMap := loadWorkload env fails db in
  match selectBest (dist E) rlat rlng (ASSIGN_MAX_KM env) (loadOf loadMap) agents with
  | None => (db, NoActiveAgentsWithin (ASSIGN_MAX_KM env))
  | Some best =>
  if fails UpdateOrder then (db, FailedToAssign) else
  (updateOrder db (c_id best) orderId, AgentAssigned (c_id best) (c_d best))
  end end
  | _, _ => (db, RestaurantLocationUnavailable)
  end end end end.

(** The pickup point the admin handler computes with: the coordinates of
    the restaurant of the order, when the handler gets that far. *)
Definition pickup (db : database) (orderId : Z) : option (float * float) :=
  match selectOrder db orderId with
  | [] => None
  | o :: _ =>
      match o_restaurant_id o with
      | None => None
      | Some restaurant_id =>
          if restaurant_id =? 0 then None else
          match selectRestaurant db restaurant_id with
          | [] => None
          | r :: _ =>
              match r_latitude r, r_longitude r with
              | Some rlat, Some rlng => Some (rlat, rlng)
              | _, _ => None
              end
          end
      end
  end.

(** ** [PUT /api/orders/:orderId/assign] (server.js 697-759) *)

(** [req.body]; the fields are taken at the JSON types the handler computes
    with (numbers for coordinates, ids, loads and the radius). *)
Record assignBody : Type := {
  b_rlat : option float;               (* None: absent or null *)
  b_rlng : option float;
  b_agents : option (list agentRow);   (* None: not an array *)
  b_loadMap : option (gmap Z float);   (* None: absent or null *)
  b_ASSIGN_MAX_KM : option float       (* None: absent, the default 10 applies *)
}.

(** [ASSIGN_MAX_KM = 10] of the destructuring *)
Definition radiusOf (body : assignBody) : float :=
  default 10%float (b_ASSIGN_MAX_KM body).

(** [loadMap?.[a.id] ?? 0] *)
Definition loadOfBody (body : assignBody) (i : Z) : float :=
  match b_loadMap body with
  | Some loadMap => default 0%float (loadMap !! i)
  | None => 0%float
  end.

Definition putAssign (E : Builtins) (fails : statement -> bool)
    (db : database) (orderId : Z) (body : assignBody) : database * response :=
  match b_agents body, b_rlat body, b_rlng body with
  | Some agents, Some rlat, Some rlng =>
      if truthy_num rlat && truthy_num rlng then
        match selectBest (dist_put E) rlat rlng (radiusOf body)
                (loadOfBody body) agents with
        | None => (db, NoActiveAgentsWithin (radiusOf body))
        | Some best =>
            if fails UpdateOrder then (db, FailedToAssign) else
            (updateOrder db (c_id best) orderId, AgentAssigned (c_id best) (c_d best))
        end
      else (db, MissingData)
  | _, _, _ => (db, MissingData)
  end.

(** The candidates the admin handler ranks for a pickup point: the active
    agents within the radius, with their workloads. *)
Definition eligible (E : Builtins) (env : environment)
    (fails : statement -> bool) (db : database) (rlat rlng : float) :
    list candidate :=
  withinRadius (ASSIGN_MAX_KM env)
    (candidates (dist E) rlat rlng (loadOf (loadWorkload env fails db))
       (selectAgents (agents db))).

(** The candidates the PUT handler ranks. *)
Definition eligibleOf (E : Builtins) (body : assignBody) (rlat rlng : float)
    (agents : list agentRow) : list candidate :=
  withinRadius (radiusOf body)
    (candidates (dist_put E) rlat rlng (loadOfBody body) agents).

(** No statement fails. *)
Definition reliable : statement -> bool := fun _ => false.

(** ** Live agent locations (server.js 1916-1944, 2244-2304) *)

(** A field of a JSON message.  [VUndefined] is an absent field; an object
    or array carries the string it converts to when used as a property key. *)
Inductive value : Type :=
  | VUndefined
  | VNull
  | VBool (b : bool)
  | VNumber (x : float)
  | VString (s : string)
  | VObject (key : string).

(** [!!v] *)
Definition truthy (v : value) : bool :=
  match v with
  | VUndefined | VNull => false
  | VBool b => b
  | VNumber x => truthy_num x
  | VString s => negb (String.eqb s "")
  | VObject _ => true
  end.


(** The integer a number is, when it is one. *)
Definition integerOf (x : float) : option Z :=
  match SF x with
  | S754_zero _ => Some 0
  | S754_finite s m e =>
      if 0 <=? e then Some (cond_Zopp s (Zpos m * 2 ^ e))
      else if Zpos m mod 2 ^ (- e) =? 0 then Some (cond_Zopp s (Zpos m / 2 ^ (- e)))
      else None
  | _ => None
  end.








Section Locations.
Context (E : Builtins).







End Locations.



(** ** Approval of delivery agents (server.js 773-799) *)

(** [WHERE id = ?] with a number for the parameter: whether the row with
    id [n] is meant. *)
Definition hasId (id : float) (n : Z) : bool :=
  match integerOf id with
  | Some k => k =? n
  | None => false
  end.

(** [UPDATE agents SET status = ? WHERE id = ?] *)
Definition updateAgentStatus (db : database) (status : string) (id : float) :
    database :=
  {| orders := orders db;
     restaurants := restaurants db;
     agents := List.map (fun a =>
                 if hasId id (a_id a)
                 then {| a_id := a_id a; a_lat := a_lat a; a_lng := a_lng a;
                         a_status := status |}
                 else a) (agents db) |}.

(** [io.emit('agentStatusChanged', { agent_id, status })] *)
Record statusChanged : Type := { sc_agent_id : float; sc_status : string }.

Inductive approvalResponse : Type :=
  | InvalidAgentId                      (* 400 "Invalid agent id" *)
  | AgentApproved (agent_id : float)    (* 200 "Agent approved" *)
  | AgentRejected (agent_id : float)    (* 200 "Agent rejected" *)
  | FailedToApprove                     (* 500 "Failed to approve agent" *)
  | FailedToReject.                     (* 500 "Failed to reject agent" *)

(** [POST /api/admin/delivery/:id/approve] (773-785).  [id] is
    [Number(req.params.id)]; [failed] tells whether [db.execute] rejects
    the statement. *)
Definition approveAgent (failed : bool) (db : database) (id : float) :
    database * list statusChanged * approvalResponse :=
  if negb (truthy_num id) then (db, [], InvalidAgentId)
  else if failed then (db, [], FailedToApprove)
  else (updateAgentStatus db "Active" id,
        [ {| sc_agent_id := id; sc_status := "Active" |} ],
        AgentApproved id).

(** [POST /api/admin/delivery/:id/reject] (788-799) *)
Definition rejectAgent (failed : bool) (db : database) (id : float) :
    database * list statusChanged * approvalResponse :=
  if negb (truthy_num id) then (db, [], InvalidAgentId)
  else if failed then (db, [], FailedToReject)
  else (updateAgentStatus db "Rejected" id,
        [ {| sc_agent_id := id; sc_status := "Rejected" |} ],
        AgentRejected id).

(** ** Reviews (server.js 390-413) *)

(** [Math.round]: the integer nearest to [x], the one towards +Infinity
    when two are equally near; [-0] for a number in [[-0.5, 0)].  A finite
    number with exponent [e >= 0] is an integer already; otherwise
    [|x| = m / 2^(-e)]. *)
Definition Math_round (x : float) : float :=
  match SF x with
  | S754_finite s m e =>
      if 0 <=? e then x
      else
        let d := 2 ^ (- e) in
        let n := if s then (2 * Zpos m + d - 1) / (2 * d)
                 else (2 * Zpos m + d) / (2 * d) in
        let r := of_uint63 (Uint63.of_Z n) in
        if s then (- r)%float else r
  | _ => x
  end.

(** A row of [SELECT id, user_id, restaurant_id, status FROM orders]; the
    handler does not read [status]. *)
Record reviewedOrder : Type := {
  ro_id : Z;
  ro_user_id : option Z;
  ro_restaurant_id : option Z
}.

(** A row of [restaurant_reviews]. *)
Record reviewRow : Type := {
  rv_order_id : Z;
  rv_user_id : option Z;
  rv_restaurant_id : option Z;
  rv_rating : float;
  rv_comment : value
}.

Record reviewTables : Type := {
  rt_orders : list reviewedOrder;
  restaurant_reviews : list reviewRow
}.

Inductive reviewStatement : Type :=
  | SelectReviewedOrder | SelectReview | InsertReview.

Inductive reviewResponse : Type :=
  | InvalidOrderIdOrRating     (* 400 "Invalid orderId or rating" *)
  | ReviewOrderNotFound        (* 404 "Order not found" *)
  | ReviewAlreadySubmitted     (* 409 "Review already submitted for this order" *)
  | ThanksForYourReview        (* 200 "Thanks for your review!" *)
  | FailedToSubmitReview.      (* 500 "Failed to submit review" *)

(** [SELECT id, user_id, restaurant_id, status FROM orders WHERE id = ?
    LIMIT 1] *)
Definition selectReviewedOrder (db : reviewTables) (orderId : float) :
    list reviewedOrder :=
  firstn 1 (List.filter (fun o => hasId orderId (ro_id o)) (rt_orders db)).

(** [SELECT id FROM restaurant_reviews WHERE order_id = ? LIMIT 1] *)
Definition selectReview (db : reviewTables) (orderId : float) : list reviewRow :=
  firstn 1 (List.filter (fun r => hasId orderId (rv_order_id r))
              (restaurant_reviews db)).

(** [ord.user_id || null] *)
Definition user_id_or_null (user_id : option Z) : option Z :=
  match user_id with
  | Some n => if n =? 0 then None else Some n
  | None => None
  end.

(** [comment || null] *)
Definition comment_or_null (comment : value) : value :=
  if truthy comment then comment else VNull.

(** [POST /api/orders/:orderId/review].  [orderId] is
    [Number(req.params.orderId)]; [rating] is the number the [rating] of
    the body converts to ([NaN] when it is absent), the handler uses no
    other aspect of it.  The row is inserted with the order id of the
    request, which is the id of the order found. *)
Definition postReview (fails : reviewStatement -> bool) (db : reviewTables)
    (orderId rating : float) (comment : value) : reviewTables * reviewResponse :=
  if negb (truthy_num orderId) || negb (is_finite rating)
     || (rating <? 1)%float || (5 <? rating)%float
  then (db, InvalidOrderIdOrRating) else
  if fails SelectReviewedOrder then (db, FailedToSubmitReview) else
  match selectReviewedOrder db orderId with
  | [] => (db, ReviewOrderNotFound)
  | ord :: _ =>
  if fails SelectReview then (db, FailedToSubmitReview) else
  match selectReview db orderId with
  | _ :: _ => (db, ReviewAlreadySubmitted)
  | [] =>
  if fails InsertReview then (db, FailedToSubmitReview) else
  ({| rt_orders := rt_orders db;
      restaurant_reviews :=
        (restaurant_reviews db ++
         [ {| rv_order_id := ro_id ord;
              rv_user_id := user_id_or_null (ro_user_id ord);
              rv_restaurant_id := ro_restaurant_id ord;
              rv_rating := Math_round rating;
              rv_comment := comment_or_null comment |} ])%list |},
   ThanksForYourReview)
  end end.

(** A request to the review endpoint, with the statements that fail
    during it. *)
Record reviewRequest : Type := {
  rq_fails : reviewStatement -> bool;
  rq_orderId : float;
  rq_rating : float;
  rq_comment : value
}.

(** The tables after a sequence of requests, handled one after another. *)
Definition postReviews (db : reviewTables) (l : list reviewRequest) : reviewTables :=
  fold_left (fun db q =>
               fst (postReview (rq_fails q) db (rq_orderId q) (rq_rating q)
                      (rq_comment q))) l db.

(** ** Restaurant location (server.js 2131-2163) *)

(** [req.user], as this handler reads it. *)
Record locationUser : Type := {
  lu_role : option string;      (* None: no role *)
  lu_restaurant_id : float      (* Number(user.restaurant_id) *)
}.

(** [req.body]; the fields are numbers, or absent. *)
Record locationBody : Type := {
  lb_restaurant_id : option float;
  lb_latitude : option float;
  lb_longitude : option float
}.

Inductive locationUpdateResponse : Type :=
  | LocationMissingData             (* 400 "Missing data" *)
  | LocationForbidden               (* 403 "Forbidden" *)
  | InvalidLatitudeOrLongitude      (* 400 "Invalid latitude or longitude" *)
  | RestaurantLocationUpdated       (* 200 "Restaurant location updated successfully" *)
  | LocationDatabaseError.          (* 500 "Database error" *)

(** [user.role !== r], negated *)
Definition hasRole (user : locationUser) (r : string) : bool :=
  match lu_role user with
  | Some s => String.eqb s r
  | None => false
  end.

(** [UPDATE restaurants SET latitude = ?, longitude = ? WHERE id = ?] *)
Definition updateRestaurant (db : database) (lat lng id : float) : database :=
  {| orders := orders db;
     restaurants := List.map (fun r =>
                      if hasId id (r_id r)
                      then {| r_id := r_id r; r_latitude := Some lat;
                              r_longitude := Some lng |}
                      else r) (restaurants db);
     agents := agents db |}.

(** [POST /api/update-restaurant-location]; [failed] tells whether
    [db.execute] rejects the statement. *)
Definition updateRestaurantLocation (failed : bool) (user : locationUser)
    (db : database) (body : locationBody) : database * locationUpdateResponse :=
  match lb_restaurant_id body, lb_latitude body, lb_longitude body with
  | Some restaurant_id, Some latitude, Some longitude =>
      if negb (truthy_num restaurant_id) then (db, LocationMissingData) else
      if negb (hasRole user "admin") &&
         (negb (hasRole user "restaurant") ||
          negb (lu_restaurant_id user =? restaurant_id)%float)
      then (db, LocationForbidden) else
      if negb (is_finite latitude) || negb (is_finite longitude)
      then (db, InvalidLatitudeOrLongitude) else
      if failed then (db, LocationDatabaseError) else
      (updateRestaurant db latitude longitude restaurant_id,
       RestaurantLocationUpdated)
  | _, _, _ => (db, LocationMissingData)
  end.

(** ** Menu items (server.js 509-524) *)

(** A row of [menu], as [SELECT restaurant_id, image_url FROM menu WHERE
    id = ?] and the [DELETE] use it. *)
Record menuRow : Type := { m_id : Z; m_restaurant_id : option Z }.

(** [req.user || {}] *)
Record menuUser : Type := { mu_role : value; mu_restaurant_id : value }.

Inductive menuStatement : Type := SelectMenuItem | DeleteMenuItem.

Inductive deleteMenuResponse : Type :=
  | MenuItemNotFound          (* 404 "Menu item not found" *)
  | NotAuthorized             (* 403 "Not authorized" *)
  | MenuItemDeleted           (* 200 "Deleted" *)
  | FailedToDeleteMenuItem.   (* 500 "Failed to delete menu item" *)

(** [v === "admin"] *)
Definition isAdmin (v : value) : bool :=
  match v with
  | VString s => String.eqb s "admin"
  | _ => false
  end.

(** [v === ownerId] for a column value [ownerId]: a number, or [null]. *)
Definition strictEqualsId (v : value) (ownerId : option Z) : bool :=
  match v, ownerId with
  | VNull, None => true
  | VNumber x, Some n => hasId x n
  | _, _ => false
  end.

(** [DELETE /api/menu/:id], the handler registered first; [menuId] is the
    id the route parameter denotes. *)
Definition deleteMenu (fails : menuStatement -> bool) (user : menuUser)
    (menu : list menuRow) (menuId : Z) : list menuRow * deleteMenuResponse :=
  if fails SelectMenuItem then (menu, FailedToDeleteMenuItem) else
  match List.filter (fun m => m_id m =? menuId) menu with
  | [] => (menu, MenuItemNotFound)
  | row :: _ =>
      if truthy (mu_role user) && negb (isAdmin (mu_role user))
         && negb (strictEqualsId (mu_restaurant_id user) (m_restaurant_id row))
      then (menu, NotAuthorized) else
      if fails DeleteMenuItem then (menu, FailedToDeleteMenuItem) else
      (List.filter (fun m => negb (m_id m =? menuId)) menu, MenuItemDeleted)
  end.

(** ** The Mappls token cache (server.js 32-68) *)

(** [mapplsToken] and [tokenExpiry] *)
Record tokenCache : Type := { mapplsToken : value; tokenExpiry : float }.

(** [let mapplsToken = null; let tokenExpiry = 0;] *)
Definition noToken : tokenCache := {| mapplsToken := VNull; tokenExpiry := 0 |}.

(** [resp.data] of the token request; [expires_in] as the number it
    converts to. *)
Record tokenData : Type := { access_token : value; expires_in : float }.

(** One call of [getMapplsToken] at time [now = Date.now()].  [remote] is
    what the token request would answer, [None] when it fails.  The result
    is the new cache, the token returned ([None] when the call throws) and
    whether the request was made. *)
Definition getMapplsToken (cache : tokenCache) (now : float)
    (remote : option tokenData) : tokenCache * option value * bool :=
  if truthy (mapplsToken cache) && (now <? tokenExpiry cache)%float
  then (cache, Some (mapplsToken cache), false)
  else
    match remote with
    | None => (cache, None, true)
    | Some data =>
        ({| mapplsToken := access_token data;
            tokenExpiry := (now + (expires_in data - 300) * 1000)%float |},
         Some (access_token data), true)
    end.

(** A sequence of calls: the cache after them, the tokens returned, the
    number of requests made. *)
Fixpoint getMapplsTokens (cache : tokenCache)
    (calls : list (float * option tokenData)) :
    tokenCache * list (option value) * nat :=
  match calls with
  | [] => (cache, [], 0%nat)
  | (now, remote) :: calls' =>
      let '(cache1, token, requested) := getMapplsToken cache now remote in
      let '(cache2, tokens, n) := getMapplsTokens cache1 calls' in
      (cache2, token :: tokens, if requested then S n else n)
  end.

(** ** Orders of a user (server.js 1093-1119) *)

(** [req.user] as [GET /api/orders] reads it: the role, and the ids the
    token carries. *)
Record orderUser : Type := {
  ou_role : option string;     (* None: no user, or no role *)
  ou_id : Z;
  ou_restaurant_id : Z
}.

Inductive ordersResponse : Type :=
  | OrdersOf (rows : list orderRow)   (* 200, the rows *)
  | Unauthorized                      (* 403 "Unauthorized" *)
  | FailedToFetchOrders.              (* 500 "Failed to fetch orders" *)

(** [GET /api/orders]: [SELECT * FROM orders WHERE agent_id = ?] for a
    delivery agent, [SELECT * FROM orders] for an admin, [SELECT * FROM
    orders WHERE restaurant_id = ?] for a restaurant. *)
Definition getOrders (failed : bool) (user : orderUser) (db : database) :
    ordersResponse :=
  match ou_role user with
  | Some role =>
      if String.eqb role "delivery_agent" then
        if failed then FailedToFetchOrders else
        OrdersOf (List.filter
                    (fun o => match o_agent_id o with
                              | Some a => a =? ou_id user
                              | None => false
                              end) (orders db))
      else if String.eqb role "admin" then
        if failed then FailedToFetchOrders else OrdersOf (orders db)
      else if String.eqb role "restaurant" then
        if failed then FailedToFetchOrders else
        OrdersOf (List.filter
                    (fun o => match o_restaurant_id o with
                              | Some r => r =? ou_restaurant_id user
                              | None => false
                              end) (orders db))
      else Unauthorized
  | None => Unauthorized
  end.

(** ** Featured restaurants (server.js 1316-1381)

    The handlers of the top restaurants (1491-1568) are the same code on
    the table [top_restaurants]. *)

(** A row of [featured_restaurants]. *)
Record featuredRow : Type := {
  fr_id : Z;
  fr_restaurant_id : Z;
  fr_position : value;
  fr_is_active : bool
}.

Inductive featuredStatement : Type :=
  | SelectFeaturedRestaurant | SelectFeatured | InsertFeatured
  | SelectIsActive | UpdateIsActive | DeleteFeatured.

Inductive featuredResponse : Type :=
  | FeaturedRestaurantNotFound     (* 404 "Restaurant not found" *)
  | AlreadyFeatured                (* 400 "Restaurant already in featured list" *)
  | FeaturedAdded                  (* 200 "Featured restaurant added" *)
  | FeaturedNotFound               (* 404 "Featured restaurant not found" *)
  | FeaturedToggled (is_active : bool)
                                   (* 200 "Featured restaurant activated" or
                                      "... deactivated", is_active *)
  | FeaturedRemoved                (* 200 "Removed from featured restaurants" *)
  | AllFeaturedRemoved             (* 200 "All featured restaurants removed" *)
  | FailedFeatured.                (* 500 *)

(** [POST /api/featured-restaurants] (1316-1341).  [restaurant_id] is the
    id the field of the body denotes; [insertId] is the id the server
    gives the new row. *)
Definition addFeatured (fails : featuredStatement -> bool) (db : database)
    (featured : list featuredRow) (restaurant_id : Z) (position : value)
    (insertId : Z) : list featuredRow * featuredResponse :=
  if fails SelectFeaturedRestaurant then (featured, FailedFeatured) else
  match selectRestaurant db restaurant_id with
  | [] => (featured, FeaturedRestaurantNotFound)
  | _ :: _ =>
  if fails SelectFeatured then (featured, FailedFeatured) else
  match List.filter (fun f => fr_restaurant_id f =? restaurant_id) featured with
  | _ :: _ => (featured, AlreadyFeatured)
  | [] =>
  if fails InsertFeatured then (featured, FailedFeatured) else
  ((featured ++ [ {| fr_id := insertId; fr_restaurant_id := restaurant_id;
                     fr_position := position; fr_is_active := true |} ])%list,
   FeaturedAdded)
  end end.

(** [PUT /api/featured-restaurants/:id/toggle] (1366-1381) *)
Definition toggleFeatured (fails : featuredStatement -> bool)
    (featured : list featuredRow) (id : Z) : list featuredRow * featuredResponse :=
  if fails SelectIsActive then (featured, FailedFeatured) else
  match List.filter (fun f => fr_id f =? id) featured with
  | [] => (featured, FeaturedNotFound)
  | current :: _ =>
      let newStatus := negb (fr_is_active current) in
      if fails UpdateIsActive then (featured, FailedFeatured) else
      (List.map (fun f => if fr_id f =? id
                          then {| fr_id := fr_id f;
                                  fr_restaurant_id := fr_restaurant_id f;
                                  fr_position := fr_position f;
                                  fr_is_active := newStatus |}
                          else f) featured,
       FeaturedToggled newStatus)
  end.

(** [DELETE /api/featured-restaurants/:id] (1344-1353) *)
Definition removeFeatured (fails : featuredStatement -> bool)
    (featured : list featuredRow) (id : Z) : list featuredRow * featuredResponse :=
  if fails DeleteFeatured then (featured, FailedFeatured)
  else (List.filter (fun f => negb (fr_id f =? id)) featured, FeaturedRemoved).

(** [DELETE /api/featured-restaurants] (1356-1364) *)
Definition clearFeatured (fails : featuredStatement -> bool)
    (featured : list featuredRow) : list featuredRow * featuredResponse :=
  if fails DeleteFeatured then (featured, FailedFeatured)
  else ([], AllFeaturedRemoved).

(** A request to one of the four endpoints. *)
Inductive featuredRequest : Type :=
  | AddFeatured (restaurant_id : Z) (position : value) (insertId : Z)
  | ToggleFeatured (id : Z)
  | RemoveFeatured (id : Z)
  | ClearFeatured.

Definition featuredStep (db : database) (featured : list featuredRow)
    (q : (featuredStatement -> bool) * featuredRequest) : list featuredRow :=
  match snd q with
  | AddFeatured restaurant_id position insertId =>
      fst (addFeatured (fst q) db featured restaurant_id position insertId)
  | ToggleFeatured id => fst (toggleFeatured (fst q) featured id)
  | RemoveFeatured id => fst (removeFeatured (fst q) featured id)
  | ClearFeatured => fst (clearFeatured (fst q) featured)
  end.

(** The table after a sequence of requests, handled one after another. *)
Definition featuredRun (db : database) (featured : list featuredRow)
    (l : list ((featuredStatement -> bool) * featuredRequest)) : list featuredRow :=
  fold_left (featuredStep db) l featured.

(** ** Restaurants and their approval (server.js 245-265, 544-564, 937-986) *)

(** A row of [users]. *)
Record userRow : Type := {
  us_id : Z;
  us_name : value;
  us_email : value;
  us_password : string;
  us_role : value;
  us_status : string;
  us_restaurant_id : option Z
}.

(** The columns of a row of [restaurants] that registration, approval and
    the public list use. *)
Record restaurantEntry : Type := {
  re_id : Z;
  re_name : value;
  re_status : string
}.

Record accounts : Type := {
  ac_users : list userRow;
  ac_restaurants : list restaurantEntry
}.

Inductive accountStatement : Type :=
  | InsertUser | InsertRestaurant | UpdateRestaurantStatus | UpdateUserStatus.

(** [req.body] of a registration; the password is seen through its hash
    only.  [rg_restaurant_id] is the integer the field denotes. *)
Record registration : Type := {
  rg_name : value;
  rg_email : value;
  rg_role : value;
  rg_restaurant_id : option Z
}.

Inductive accountResponse : Type :=
  | UserRegistered (id : Z)        (* 200 "User registered", id *)
  | FailedToRegisterUser           (* 500 "Failed to register user" *)
  | RestaurantSubmitted (id : Z)   (* 200 "Restaurant submitted, pending admin approval" *)
  | RestaurantApproved             (* 200 "Restaurant approved" *)
  | RestaurantRejected             (* 200 "Restaurant rejected" *)
  | AccountDatabaseError.          (* 500 *)

(** [role === "restaurant"] *)
Definition isRestaurant (role : value) : bool :=
  match role with
  | VString s => String.eqb s "restaurant"
  | _ => false
  end.

(** [restaurant_id || null] *)
Definition restaurant_id_or_null (restaurant_id : option Z) : option Z :=
  match restaurant_id with
  | Some n => if n =? 0 then None else Some n
  | None => None
  end.

(** [POST /api/users] (544-564).  [hashedPassword] is what
    [bcrypt.hash(password, 10)] gives, [None] when it throws; [userId] and
    [restaurantId] are the ids the server gives the new rows.  The two
    inserts are separate statements: when the second fails the first
    stays. *)
Definition registerUser (fails : accountStatement -> bool)
    (hashedPassword : option string) (t : accounts) (body : registration)
    (userId restaurantId : Z) : accounts * accountResponse :=
  match hashedPassword with
  | None => (t, FailedToRegisterUser)
  | Some hashed =>
      let status := if isRestaurant (rg_role body) then "pending" else "active" in
      if fails InsertUser then (t, FailedToRegisterUser) else
      let users1 :=
        (ac_users t ++
         [ {| us_id := userId; us_name := rg_name body;
              us_email := rg_email body; us_password := hashed;
              us_role := rg_role body; us_status := status;
              us_restaurant_id := restaurant_id_or_null (rg_restaurant_id body) |} ])%list in
      if isRestaurant (rg_role body) then
        if fails InsertRestaurant
        then ({| ac_users := users1; ac_restaurants := ac_restaurants t |},
              FailedToRegisterUser)
        else ({| ac_users := users1;
                 ac_restaurants :=
                   (ac_restaurants t ++
                    [ {| re_id := restaurantId; re_name := rg_name body;
                         re_status := "pending" |} ])%list |},
              UserRegistered userId)
      else ({| ac_users := users1; ac_restaurants := ac_restaurants t |},
            UserRegistered userId)
  end.

(** [POST /api/restaurants] (937-951) *)
Definition submitRestaurant (fails : accountStatement -> bool) (t : accounts)
    (name : value) (restaurantId : Z) : accounts * accountResponse :=
  if fails InsertRestaurant then (t, AccountDatabaseError) else
  ({| ac_users := ac_users t;
      ac_restaurants :=
        (ac_restaurants t ++
         [ {| re_id := restaurantId; re_name := name;
              re_status := "pending" |} ])%list |},
   RestaurantSubmitted restaurantId).

(** [UPDATE restaurants SET status = ? WHERE id = ?] and [UPDATE users SET
    status = ? WHERE restaurant_id = ?], one after the other. *)
Definition decideRestaurant (status : string) (done : accountResponse)
    (fails : accountStatement -> bool) (t : accounts) (id : Z) :
    accounts * accountResponse :=
  if fails UpdateRestaurantStatus then (t, AccountDatabaseError) else
  let restaurants1 :=
    List.map (fun r => if re_id r =? id
                       then {| re_id := re_id r; re_name := re_name r;
                               re_status := status |}
                       else r) (ac_restaurants t) in
  if fails UpdateUserStatus
  then ({| ac_users := ac_users t; ac_restaurants := restaurants1 |},
        AccountDatabaseError)
  else
    ({| ac_users :=
          List.map (fun u =>
                      match us_restaurant_id u with
                      | Some r =>
                          if r =? id
                          then {| us_id := us_id u; us_name := us_name u;
                                  us_email := us_email u;
                                  us_password := us_password u;
                                  us_role := us_role u; us_status := status;
                                  us_restaurant_id := us_restaurant_id u |}
                          else u
                      | None => u
                      end) (ac_users t);
        ac_restaurants := restaurants1 |},
     done).

(** [PUT /api/restaurants/approve/:id] (953-966); [id] is the id the route
    parameter denotes. *)
Definition approveRestaurant := decideRestaurant "approved" RestaurantApproved.

(** [PUT /api/restaurants/reject/:id] (969-986) *)
Definition rejectRestaurant := decideRestaurant "rejected" RestaurantRejected.

(** [GET /api/restaurants] (245-265): the rows with status [approved] (the
    two rating columns of the reply are not modelled), [None] for the reply
    500 "DB error": the fallback of the handler calls
    [fetchFallbackRestaurantCards], which is not defined, so that a failure
    of the query always ends there. *)
Definition getRestaurants (failed : bool) (t : accounts) :
    option (list restaurantEntry) :=
  if failed then None
  else Some (List.filter (fun r => String.eqb (re_status r) "approved")
               (ac_restaurants t)).

(** A decision of the admin. *)
Inductive decision : Type :=
  | Approve (id : Z)
  | Reject (id : Z).

Definition decide_restaurant (t : accounts)
    (q : (accountStatement -> bool) * decision) : accounts :=
  match snd q with
  | Approve id => fst (approveRestaurant (fst q) t id)
  | Reject id => fst (rejectRestaurant (fst q) t id)
  end.

(** The tables after a sequence of decisions. *)
Definition decisions (t : accounts)
    (l : list ((accountStatement -> bool) * decision)) : accounts :=
  fold_left decide_restaurant l t.

(** ** Auxiliary notions of the proofs *)

(** The two operands of a floating-point subtraction, as integers at the
    smaller of the two exponents. *)
Definition aligned (s : bool) (m : positive) (e ez : Z) : Z :=
  cond_Zopp s (Zpos (fst (shl_align m e ez))).

(** A number other than zero and [NaN], of sign [s]. *)
Definition signed_nonzero (s : bool) (x : spec_float) : Prop :=
  (exists m e, x = S754_finite s m e) \/ x = S754_infinity s.

(** The sign of a number: its comparison with zero. *)
Definition SFsgn (x : spec_float) : option comparison :=
  match x with
  | S754_nan => None
  | S754_zero _ => Some Eq
  | S754_infinity s | S754_finite s _ _ => Some (if s then Lt else Gt)
  end.

(** Zero or finite. *)
Definition SFfin (x : spec_float) : bool :=
  match x with S754_zero _ | S754_finite _ _ _ => true | _ => false end.

(** Zero, or finite with an exponent of at most [K]. *)
Definition SFexp_le (K : Z) (x : spec_float) : Prop :=
  match x with
  | S754_zero _ => True
  | S754_finite _ _ e => e <= K
  | _ => False
  end.

(** An integer that orders the numbers as [<] does: zeros at 0, finite
    numbers by exponent then mantissa, the infinities beyond. *)
Definition SFkey (x : spec_float) : Z :=
  match x with
  | S754_zero _ | S754_nan => 0
  | S754_infinity s => cond_Zopp s (3000 * 2 ^ 53)
  | S754_finite s m e => cond_Zopp s ((e + 1075) * 2 ^ 53 + Zpos m)
  end.

Definition key (x : float) : Z := SFkey (SF x).

(** The rank of a candidate: workload first, distance second. *)
Definition rank_lt (a b : candidate) : Prop :=
  key (c_load a) < key (c_load b) \/
  (key (c_load a) = key (c_load b) /\ key (c_d a) < key (c_d b)).

Definition rank_le (a b : candidate) : Prop := ~ rank_lt b a.

(** The candidates of the rank of [z]. *)
Definition same_rank (z c : candidate) : bool :=
  (key (c_load c) =? key (c_load z)) && (key (c_d c) =? key (c_d z)).

(** Neither field of a candidate is [NaN]. *)
Definition numeric (c : candidate) : Prop :=
  is_nan (c_load c) = false /\ is_nan (c_d c) = false.

(** The orders the workload query counts for agent [i]: those in one of
    the statuses, with that agent. *)
Definition countedFor (statuses : list string) (i : Z) (o : orderRow) : bool :=
  match countsFor statuses o with
  | Some j => j =? i
  | None => false
  end.

Definition activeOrders (statuses : list string) (db : database) (i : Z) : nat :=
  length (List.filter (countedFor statuses i) (orders db)).

(** The ids of the restaurants the public list shows. *)
Definition listedIds (t : accounts) : list Z :=
  List.map re_id (default [] (getRestaurants false t)).

(** ** The scenarios of the specification

    Decimal coordinates stand for the doubles nearest to them, as in
    JavaScript. *)

#[local] Set Warnings "-inexact-float".

(** No configuration in the environment: radius 10 km, workload statuses
    Pending, Confirmed, Picked. *)
Definition defaults : environment :=
  {| env_ASSIGN_MAX_KM := nan; env_ASSIGN_LOAD_STATUSES := None |}.

Definition restaurant5 : restaurantRow :=
  {| r_id := 5; r_latitude := Some 17.3850%float; r_longitude := Some 78.4867%float |}.

(** Restaurant at (17.3850, 78.4867); agent A (id 1) at (17.3860, 78.4870)
    with two active orders, agent B (id 2) at (17.4000, 78.5100) with none;
    order 10 waits for an agent. *)
Definition scenario : database :=
  {| orders :=
       [ {| o_id := 10; o_restaurant_id := Some 5; o_agent_id := None;
            o_status := "Pending" |};
         {| o_id := 11; o_restaurant_id := Some 5; o_agent_id := Some 1;
            o_status := "Confirmed" |};
         {| o_id := 12; o_restaurant_id := Some 5; o_agent_id := Some 1;
            o_status := "Picked" |} ];
     restaurants := [ restaurant5 ];
     agents :=
       [ {| a_id := 1; a_lat := Some 17.3860%float; a_lng := Some 78.4870%float;
            a_status := "Active" |};
         {| a_id := 2; a_lat := Some 17.4000%float; a_lng := Some 78.5100%float;
            a_status := "Active" |} ] |}.

(** The same restaurant, and a single agent C (id 3) at (20.0, 80.0). *)
Definition farAway : database :=
  {| orders :=
       [ {| o_id := 10; o_restaurant_id := Some 5; o_agent_id := None;
            o_status := "Pending" |} ];
     restaurants := [ restaurant5 ];
     agents :=
       [ {| a_id := 3; a_lat := Some 20%float; a_lng := Some 80%float;
            a_status := "Active" |} ] |}.

(** Order 10 is already Confirmed, with agent 7; the only active agent
    now is agent 9, who stands at the restaurant. *)
Definition confirmedOrder : database :=
  {| orders :=
       [ {| o_id := 10; o_restaurant_id := Some 5; o_agent_id := Some 7;
            o_status := "Confirmed" |} ];
     restaurants := [ restaurant5 ];
     agents :=
       [ {| a_id := 9; a_lat := Some 17.3850%float; a_lng := Some 78.4867%float;
            a_status := "Active" |} ] |}.

(** A request body with two agents at the pickup point, agent 9 listed
    before agent 3, and no workloads. *)
Definition tiedBody : assignBody :=
  {| b_rlat := Some 17.3850%float; b_rlng := Some 78.4867%float;
     b_agents := Some [ {| ag_id := 9; ag_lat := 17.3850%float; ag_lng := 78.4867%float |};
                        {| ag_id := 3; ag_lat := 17.3850%float; ag_lng := 78.4867%float |} ];
     b_loadMap := None;
     b_ASSIGN_MAX_KM := None |}.

(** The same pickup point, agent C alone. *)
Definition farBody : assignBody :=
  {| b_rlat := Some 17.3850%float; b_rlng := Some 78.4867%float;
     b_agents := Some [ {| ag_id := 3; ag_lat := 20%float; ag_lng := 80%float |} ];
     b_loadMap := None;
     b_ASSIGN_MAX_KM := None |}.


(** ** Scenarios of the other handlers *)

(** One order, number 10, of user 4 at restaurant 5; no review yet. *)
Definition reviewScenario : reviewTables :=
  {| rt_orders := [ {| ro_id := 10; ro_user_id := Some 4;
                       ro_restaurant_id := Some 5 |} ];
     restaurant_reviews := [] |}.

(** A review of order 10 with rating 4.4. *)
Definition review44 : reviewRequest :=
  {| rq_fails := fun _ => false; rq_orderId := 10%float;
     rq_rating := 4.4%float; rq_comment := VString "good" |}.

(** The user of restaurant 5, who moves it to (18, 78.5). *)
Definition owner5 : locationUser :=
  {| lu_role := Some "restaurant"; lu_restaurant_id := 5 |}.

Definition moveTo18 : locationBody :=
  {| lb_restaurant_id := Some 5%float; lb_latitude := Some 18%float;
     lb_longitude := Some 78.5%float |}.

(** A token that lives for an hour. *)
Definition token3600 : tokenData :=
  {| access_token := VString "t1"; expires_in := 3600 |}.

(** A registration as a restaurant that names no restaurant id. *)
Definition dosaCorner : registration :=
  {| rg_name := VString "Dosa Corner"; rg_email := VString "dosa@example.com";
     rg_role := VString "restaurant"; rg_restaurant_id := None |}.

(** Two idle agents near restaurant 5, and two orders that wait. *)
Definition idleAgents : database :=
  {| orders :=
       [ {| o_id := 10; o_restaurant_id := Some 5; o_agent_id := None;
            o_status := "Pending" |};
         {| o_id := 13; o_restaurant_id := Some 5; o_agent_id := None;
            o_status := "Pending" |} ];
     restaurants := [ restaurant5 ];
     agents :=
       [ {| a_id := 1; a_lat := Some 17.3860%float; a_lng := Some 78.4870%float;
            a_status := "Active" |};
         {| a_id := 2; a_lat := Some 17.4000%float; a_lng := Some 78.5100%float;
            a_status := "Active" |} ] |}.

(** * Binary64 arithmetic

    Facts about the operations of [float], derived from their
    specification over [spec_float]. *)

(** ** Mantissas and exponents *)

Lemma digits2_size p : digits2_pos p = Pos.size p.
Proof. induction p; simpl; congruence. Qed.

Lemma digits2_bounds p :
  2 ^ (Zpos (digits2_pos p) - 1) <= Zpos p < 2 ^ Zpos (digits2_pos p).
Proof.
  rewrite digits2_size.
  assert (H : Zpos (Pos.size p) = Z.succ (Z.log2 (Zpos p))).
  { destruct p; simpl; lia. }
  rewrite H. replace (Z.succ (Z.log2 (Zpos p)) - 1) with (Z.log2 (Zpos p)) by lia.
  apply Z.log2_spec. lia.
Qed.

Lemma bounded_inv m e :
  bounded prec emax m e = true ->
  -1074 <= e <= 971 /\ Zpos (digits2_pos m) <= 53 /\
  (-1074 < e -> Zpos (digits2_pos m) = 53).
Proof.
  unfold bounded, canonical_mantissa, fexp, SpecFloat.emin, prec, emax.
  intros H. apply andb_true_iff in H. destruct H as [H1 H2].
  apply Z.eqb_eq in H1. apply Z.leb_le in H2. lia.
Qed.

Lemma iter_xO m d : Zpos (Pos.iter xO m d) = Zpos m * 2 ^ Zpos d.
Proof.
  induction d using Pos.peano_ind.
  - simpl. lia.
  - rewrite Pos.iter_succ, Pos2Z.inj_succ, Z.pow_succ_r by lia.
    rewrite Pos2Z.inj_xO, IHd. lia.
Qed.

Lemma shl_align_fst m e e' :
  e' <= e -> Zpos (fst (shl_align m e e')) = Zpos m * 2 ^ (e - e').
Proof.
  intros H. unfold shl_align.
  destruct (e' - e) eqn:E; simpl.
  - replace (e - e') with 0 by lia. rewrite Z.pow_0_r. lia.
  - lia.
  - rewrite iter_xO. replace (e - e') with (Zpos p) by lia. reflexivity.
Qed.

Lemma lt_by_exp mx ex my ey :
  bounded prec emax mx ex = true -> bounded prec emax my ey = true ->
  ex < ey -> Zpos mx < Zpos my * 2 ^ (ey - ex).
Proof.
  intros Hx Hy Hlt.
  apply bounded_inv in Hx. apply bounded_inv in Hy.
  destruct Hx as (Hex & Hdx & _). destruct Hy as (Hey & _ & Hdy).
  specialize (Hdy ltac:(lia)).
  pose proof (digits2_bounds mx) as [_ Bx].
  pose proof (digits2_bounds my) as [By _].
  rewrite Hdy in By. change (2 ^ (53 - 1)) with 4503599627370496 in By.
  assert (Zpos mx < 9007199254740992).
  { eapply Z.lt_le_trans; [exact Bx|].
    change 9007199254740992 with (2 ^ 53). apply Z.pow_le_mono_r; lia. }
  assert (2 ^ 1 <= 2 ^ (ey - ex)) by (apply Z.pow_le_mono_r; lia).
  change (2 ^ 1) with 2 in *. nia.
Qed.

Lemma compare_aligned sx mx ex sy my ey :
  bounded prec emax mx ex = true -> bounded prec emax my ey = true ->
  SFcompare (S754_finite sx mx ex) (S754_finite sy my ey) =
  Some (aligned sx mx ex (Z.min ex ey) ?= aligned sy my ey (Z.min ex ey)).
Proof.
  intros Hx Hy. unfold aligned.
  rewrite !shl_align_fst by lia.
  assert (Px : 0 < 2 ^ (ex - Z.min ex ey)) by (apply Z.pow_pos_nonneg; lia).
  assert (Py : 0 < 2 ^ (ey - Z.min ex ey)) by (apply Z.pow_pos_nonneg; lia).
  simpl SFcompare.
  destruct (Z.compare_spec ex ey) as [E | E | E].
  - subst ey. rewrite Z.min_id, Z.sub_diag, Z.pow_0_r, !Z.mul_1_r.
    destruct sx, sy; reflexivity.
  - pose proof (lt_by_exp _ _ _ _ Hx Hy E) as L.
    rewrite Z.min_l in * by lia. rewrite Z.sub_diag, Z.pow_0_r, Z.mul_1_r in *.
    destruct sx, sy; unfold cond_Zopp; cbv beta iota; f_equal; symmetry.
    + apply Z.compare_gt_iff. lia.
    + apply Z.compare_lt_iff. lia.
    + apply Z.compare_gt_iff. lia.
    + apply Z.compare_lt_iff. lia.
  - pose proof (lt_by_exp _ _ _ _ Hy Hx E) as L.
    rewrite Z.min_r in * by lia. rewrite Z.sub_diag, Z.pow_0_r, Z.mul_1_r in *.
    destruct sx, sy; unfold cond_Zopp; cbv beta iota; f_equal; symmetry.
    + apply Z.compare_lt_iff. lia.
    + apply Z.compare_lt_iff. lia.
    + apply Z.compare_gt_iff. lia.
    + apply Z.compare_gt_iff. lia.
Qed.

Lemma shr_1_m r : 0 <= shr_m r -> shr_m (shr_1 r) = shr_m r / 2.
Proof.
  destruct r as [m rb sb]. simpl. intros H.
  destruct m as [|p|p]; [reflexivity| |lia].
  destruct p as [p|p|]; simpl shr_m.
  - rewrite Pos2Z.inj_xI. apply Z.div_unique with 1; lia.
  - rewrite Pos2Z.inj_xO. apply Z.div_unique with 0; lia.
  - reflexivity.
Qed.

Lemma pow2_xO p : 2 ^ Zpos p~0 = 2 ^ Zpos p * 2 ^ Zpos p.
Proof. rewrite Pos2Z.inj_xO, <- Z.pow_add_r by lia. f_equal. lia. Qed.

Lemma pow2_xI p : 2 ^ Zpos p~1 = 2 * (2 ^ Zpos p * 2 ^ Zpos p).
Proof.
  rewrite Pos2Z.inj_xI, <- Z.pow_add_r, <- Z.pow_succ_r by lia. f_equal. lia.
Qed.

Lemma iter_shr_m p : forall r,
  0 <= shr_m r -> shr_m (SpecFloat.iter_pos shr_1 p r) = shr_m r / 2 ^ Zpos p.
Proof.
  assert (P2 : forall q, 0 < 2 ^ Zpos q) by (intros; apply Z.pow_pos_nonneg; lia).
  induction p as [p IH|p IH|]; intros r Hr; simpl SpecFloat.iter_pos.
  - assert (H1 : 0 <= shr_m (shr_1 r)).
    { rewrite shr_1_m by assumption. apply Z.div_pos; lia. }
    assert (H2 : 0 <= shr_m (SpecFloat.iter_pos shr_1 p (shr_1 r))).
    { rewrite IH by assumption. apply Z.div_pos; [assumption|apply P2]. }
    rewrite IH, IH, shr_1_m by assumption.
    rewrite !Z.div_div by (specialize (P2 p); lia).
    rewrite pow2_xI. reflexivity.
  - assert (H2 : 0 <= shr_m (SpecFloat.iter_pos shr_1 p r)).
    { rewrite IH by assumption. apply Z.div_pos; [assumption|apply P2]. }
    rewrite IH, IH by assumption.
    rewrite Z.div_div by (specialize (P2 p); lia).
    rewrite pow2_xO. reflexivity.
  - rewrite shr_1_m by assumption. reflexivity.
Qed.

Lemma shr_record_of_loc_m m l : shr_m (shr_record_of_loc m l) = m.
Proof. destruct l as [|[]]; reflexivity. Qed.

Lemma shr_fexp_spec m e l :
  0 <= m ->
  let n := Z.max 0 (fexp prec emax (Zdigits2 m + e) - e) in
  shr_m (fst (shr_fexp prec emax m e l)) = m / 2 ^ n /\
  snd (shr_fexp prec emax m e l) = e + n.
Proof.
  intros Hm n. unfold shr_fexp, shr. subst n.
  destruct (fexp prec emax (Zdigits2 m + e) - e) as [|p|p] eqn:E; simpl fst; simpl snd.
  - rewrite shr_record_of_loc_m. change (Z.max 0 0) with 0.
    rewrite Z.pow_0_r, Z.div_1_r. lia.
  - rewrite iter_shr_m by (rewrite shr_record_of_loc_m; assumption).
    rewrite shr_record_of_loc_m. rewrite Z.max_r by lia. split; reflexivity.
  - rewrite shr_record_of_loc_m. rewrite Z.max_l by lia.
    rewrite Z.pow_0_r, Z.div_1_r. lia.
Qed.

Lemma fexp_ge_emin x : -1074 <= fexp prec emax x.
Proof. unfold fexp, SpecFloat.emin, prec, emax. lia. Qed.

Lemma Zdigits2_pos_bounds m :
  0 < m -> 0 < Zdigits2 m /\ 2 ^ (Zdigits2 m - 1) <= m < 2 ^ Zdigits2 m.
Proof.
  destruct m as [|p|p]; try lia. intros _. simpl Zdigits2.
  split; [lia | apply digits2_bounds].
Qed.

Lemma shr_fexp_pos m e l :
  0 < m -> -1074 <= e ->
  0 < shr_m (fst (shr_fexp prec emax m e l)) /\
  -1074 <= snd (shr_fexp prec emax m e l).
Proof.
  intros Hm He.
  destruct (shr_fexp_spec m e l ltac:(lia)) as [H1 H2].
  rewrite H1, H2. split; [|lia].
  destruct (Zdigits2_pos_bounds m Hm) as (Hd & Hlo & _).
  set (n := Z.max 0 (fexp prec emax (Zdigits2 m + e) - e)).
  assert (Hn : 0 <= n <= Zdigits2 m - 1).
  { subst n. unfold fexp, SpecFloat.emin, prec, emax. lia. }
  apply Z.div_str_pos. split; [apply Z.pow_pos_nonneg; lia|].
  eapply Z.le_trans; [|exact Hlo]. apply Z.pow_le_mono_r; lia.
Qed.

Lemma round_nearest_even_ge m l : m <= round_nearest_even m l <= m + 1.
Proof. destruct l as [|[]]; simpl; try lia. destruct (Z.even m); lia. Qed.

Lemma binary_round_aux_shape s m e l :
  0 < m -> -1074 <= e ->
  signed_nonzero s (binary_round_aux prec emax s m e l).
Proof.
  intros Hm He. unfold binary_round_aux.
  pose proof (shr_fexp_pos m e l Hm He) as [P1 Q1].
  destruct (shr_fexp prec emax m e l) as [r1 e1]. simpl fst in P1. simpl snd in Q1.
  pose proof (round_nearest_even_ge (shr_m r1) (loc_of_shr_record r1)) as Hr.
  pose proof (shr_fexp_pos (round_nearest_even (shr_m r1) (loc_of_shr_record r1))
                e1 loc_Exact ltac:(lia) Q1) as [P2 _].
  destruct (shr_fexp prec emax _ e1 loc_Exact) as [r2 e2]. simpl fst in P2.
  destruct (shr_m r2) as [|p|p]; try lia.
  destruct (e2 <=? emax - prec); [left; eauto | right; reflexivity].
Qed.

Lemma shl_align_snd m e e' : snd (shl_align m e e') = Z.min e e'.
Proof. unfold shl_align. destruct (e' - e) eqn:E; simpl; lia. Qed.

Lemma binary_round_shape s m e :
  -1074 <= e -> signed_nonzero s (binary_round prec emax s m e).
Proof.
  intros He. unfold binary_round.
  pose proof (shl_align_snd m e (fexp prec emax (Zpos (digits2_pos m) + e))) as S.
  pose proof (fexp_ge_emin (Zpos (digits2_pos m) + e)) as F.
  destruct (shl_align m e _) as [mz ez]. simpl snd in S.
  apply binary_round_aux_shape; lia.
Qed.

Lemma binary_normalize_sgn M e :
  -1074 <= e -> SFsgn (binary_normalize prec emax M e false) = Some (M ?= 0).
Proof.
  intros He. destruct M as [|p|p]; simpl binary_normalize.
  - reflexivity.
  - destruct (binary_round_shape false p e He) as [(m & e' & ->) | ->]; reflexivity.
  - destruct (binary_round_shape true p e He) as [(m & e' & ->) | ->]; reflexivity.
Qed.

Lemma SFsub_finite_sgn sx mx ex sy my ey :
  bounded prec emax mx ex = true -> bounded prec emax my ey = true ->
  SFsgn (SF64sub (S754_finite sx mx ex) (S754_finite sy my ey)) =
  SFcompare (S754_finite sx mx ex) (S754_finite sy my ey).
Proof.
  intros Hx Hy. rewrite (compare_aligned _ _ _ _ _ _ Hx Hy).
  unfold SF64sub, SFsub. fold (aligned sx mx ex (Z.min ex ey)).
  fold (aligned sy my ey (Z.min ex ey)).
  rewrite binary_normalize_sgn.
  - f_equal. symmetry. apply Z.compare_sub.
  - apply bounded_inv in Hx, Hy. lia.
Qed.

Lemma SFcompare_refl_finite s m e :
  SFcompare (S754_finite s m e) (S754_finite s m e) = Some Eq.
Proof.
  simpl. rewrite Z.compare_refl, Pos.compare_cont_refl. destruct s; reflexivity.
Qed.

Lemma SFsub_sgn X Y :
  valid_binary X = true -> valid_binary Y = true ->
  X <> S754_nan -> Y <> S754_nan ->
  SFcompare X Y = match SFsgn (SF64sub X Y) with Some c => Some c | None => Some Eq end.
Proof.
  intros VX VY NX NY.
  destruct X as [sx|sx| |sx mx ex], Y as [sy|sy| |sy my ey]; try congruence;
    try (destruct sx, sy; reflexivity).
  simpl in VX, VY. rewrite (SFsub_finite_sgn _ _ _ _ _ _ VX VY).
  reflexivity.
Qed.

Lemma SFcompare_zero_r D : SFcompare D (S754_zero false) = SFsgn D.
Proof. destruct D as [s|s| |s m e]; try reflexivity; destruct s; reflexivity. Qed.

Lemma SFcompare_zero_l D :
  SFcompare (S754_zero false) D = option_map CompOpp (SFsgn D).
Proof. destruct D as [s|s| |s m e]; try reflexivity; destruct s; reflexivity. Qed.

Lemma SFcompare_antisym X Y :
  SFcompare Y X = option_map CompOpp (SFcompare X Y).
Proof.
  destruct X as [sx|sx| |sx mx ex], Y as [sy|sy| |sy my ey]; try reflexivity;
    try (destruct sx, sy; reflexivity); try (destruct sx; reflexivity);
    try (destruct sy; reflexivity).
  simpl. rewrite (Z.compare_antisym ex ey).
  change (Pos.compare_cont Eq my mx) with (Pos.compare_cont (CompOpp Eq) my mx).
  rewrite <- (Pos.compare_cont_antisym mx my Eq).
  destruct sx, sy; simpl; try reflexivity;
    destruct (ex ?= ey); simpl; try reflexivity;
    destruct (Pos.compare_cont Eq mx my); reflexivity.
Qed.

Lemma is_nan_SF x : is_nan x = false <-> SF x <> S754_nan.
Proof.
  unfold is_nan. rewrite FloatAxioms.eqb_spec. unfold SFeqb.
  destruct (SF x) as [s|s| |s m e] eqn:E.
  - simpl. split; [discriminate | reflexivity].
  - destruct s; simpl; (split; [discriminate | reflexivity]).
  - simpl. split; [discriminate | congruence].
  - rewrite SFcompare_refl_finite. split; [discriminate | reflexivity].
Qed.

Lemma SF_zero : SF 0%float = S754_zero false.
Proof. reflexivity. Qed.

(** The sign of a difference of two numbers is their order. *)
Lemma sub_ltb_0 (x y : float) :
  is_nan x = false -> is_nan y = false ->
  ((x - y <? 0) = (x <? y))%float /\ ((0 <? x - y) = (y <? x))%float.
Proof.
  intros Nx Ny. apply is_nan_SF in Nx, Ny.
  rewrite !FloatAxioms.ltb_spec, FloatAxioms.sub_spec, SF_zero. unfold SFltb.
  rewrite SFcompare_zero_r, SFcompare_zero_l, (SFcompare_antisym (SF x) (SF y)).
  rewrite (SFsub_sgn (SF x) (SF y)) by (auto using Prim2SF_valid).
  destruct (SFsgn (SF64sub (SF x) (SF y))) as [[]|]; split; reflexivity.
Qed.

(** ** Signs *)

Lemma binary_round_aux_opp s m e l :
  binary_round_aux prec emax (negb s) m e l = SFopp (binary_round_aux prec emax s m e l).
Proof.
  unfold binary_round_aux.
  destruct (shr_fexp prec emax m e l) as [r1 e1].
  destruct (shr_fexp prec emax _ e1 loc_Exact) as [r2 e2].
  destruct (shr_m r2); try reflexivity.
  destruct (e2 <=? emax - prec); reflexivity.
Qed.

Lemma binary_round_opp s m e :
  binary_round prec emax (negb s) m e = SFopp (binary_round prec emax s m e).
Proof.
  unfold binary_round. destruct (shl_align m e _) as [mz ez].
  apply binary_round_aux_opp.
Qed.

Lemma xorb_negb_l a b : xorb (negb a) b = negb (xorb a b).
Proof. destruct a, b; reflexivity. Qed.

Lemma SFmul_opp_l X Y : SF64mul (SFopp X) Y = SFopp (SF64mul X Y).
Proof.
  destruct X as [sx|sx| |sx mx ex], Y as [sy|sy| |sy my ey]; simpl;
    rewrite ?xorb_negb_l; try reflexivity.
  apply binary_round_aux_opp.
Qed.

Lemma SFmul_comm X Y : SF64mul X Y = SF64mul Y X.
Proof.
  destruct X as [sx|sx| |sx mx ex], Y as [sy|sy| |sy my ey]; simpl;
    rewrite ?(xorb_comm sx sy); try reflexivity.
  rewrite (Pos.mul_comm mx my), (Z.add_comm ex ey). reflexivity.
Qed.

Lemma SFdiv_opp_l X Y : SF64div (SFopp X) Y = SFopp (SF64div X Y).
Proof.
  destruct X as [sx|sx| |sx mx ex], Y as [sy|sy| |sy my ey]; simpl;
    rewrite ?xorb_negb_l; try reflexivity.
  destruct (SFdiv_core_binary prec emax (Zpos mx) ex (Zpos my) ey) as [[mz ez] lz].
  apply binary_round_aux_opp.
Qed.

Lemma mul_opp_l (x y : float) : (- x * y = - (x * y))%float.
Proof.
  apply Prim2SF_inj. rewrite opp_spec, !mul_spec, opp_spec. apply SFmul_opp_l.
Qed.

Lemma mul_comm (x y : float) : (x * y = y * x)%float.
Proof. apply Prim2SF_inj. rewrite !mul_spec. apply SFmul_comm. Qed.

Lemma mul_opp_r (x y : float) : (x * - y = - (x * y))%float.
Proof. rewrite (mul_comm x), mul_opp_l, (mul_comm y). reflexivity. Qed.

Lemma opp_involutive (x : float) : (- - x = x)%float.
Proof.
  apply Prim2SF_inj. rewrite !opp_spec.
  destruct (SF x) as [s|s| |s m e]; simpl; rewrite ?negb_involutive; reflexivity.
Qed.

Lemma mul_opp_opp (x y : float) : (- x * - y = x * y)%float.
Proof. rewrite mul_opp_l, mul_opp_r, opp_involutive. reflexivity. Qed.

Lemma div_opp_l (x y : float) : (- x / y = - (x / y))%float.
Proof.
  apply Prim2SF_inj. rewrite opp_spec, !div_spec, opp_spec. apply SFdiv_opp_l.
Qed.

Lemma binary_normalize_opp M e :
  M <> 0 ->
  binary_normalize prec emax (- M) e false = SFopp (binary_normalize prec emax M e false).
Proof.
  destruct M as [|p|p]; intros H; [congruence| |]; simpl.
  - apply (binary_round_opp false).
  - change false with (negb true) at 1. rewrite binary_round_opp.
    destruct (binary_round prec emax true p e) as [s|s| |s m' e']; simpl;
      rewrite ?negb_involutive; reflexivity.
Qed.

Lemma SFsub_antisym X Y :
  SF64sub Y X = SFopp (SF64sub X Y) \/
  (SF64sub Y X = S754_zero false /\ SF64sub X Y = S754_zero false).
Proof.
  destruct X as [sx|sx| |sx mx ex], Y as [sy|sy| |sy my ey];
    try (left; reflexivity);
    try (destruct sx, sy; simpl; auto; fail);
    try (left; simpl; rewrite ?negb_involutive; reflexivity).
  unfold SF64sub, SFsub. rewrite (Z.min_comm ey ex).
  set (a := cond_Zopp sx _). set (b := cond_Zopp sy _).
  destruct (Z.eq_dec (a - b) 0) as [E|E].
  - right. replace (b - a) with 0 by lia. rewrite E. split; reflexivity.
  - left. replace (b - a) with (- (a - b)) by lia. apply binary_normalize_opp, E.
Qed.

Lemma sub_antisym (x y : float) :
  (y - x = - (x - y))%float \/ ((y - x)%float = 0%float /\ (x - y)%float = 0%float).
Proof.
  destruct (SFsub_antisym (SF x) (SF y)) as [H | [H1 H2]].
  - left. apply Prim2SF_inj. rewrite opp_spec, !sub_spec. exact H.
  - right. split; apply Prim2SF_inj; rewrite sub_spec; assumption.
Qed.

(** ** Finite results *)

Lemma is_finite_SF x : is_finite x = SFfin (SF x).
Proof.
  unfold is_finite, is_nan, is_infinity.
  rewrite !FloatAxioms.eqb_spec, abs_spec. unfold SFeqb.
  change (SF infinity) with (S754_infinity false).
  destruct (SF x) as [s|s| |s m e]; try reflexivity.
  - destruct s; reflexivity.
  - rewrite SFcompare_refl_finite. reflexivity.
Qed.

Lemma sub_self (x : float) : is_finite x = true -> (x - x)%float = 0%float.
Proof.
  rewrite is_finite_SF. intros F. apply Prim2SF_inj. rewrite sub_spec.
  change (SF 0) with (S754_zero false).
  destruct (SF x) as [s|s| |s m e]; try discriminate.
  - destruct s; reflexivity.
  - unfold SF64sub, SFsub. rewrite Z.sub_diag. reflexivity.
Qed.

Lemma Zdigits2_le m k : 0 <= m < 2 ^ k -> 0 <= k -> Zdigits2 m <= k.
Proof.
  intros [H0 H1] Hk. destruct (Z.eq_dec m 0) as [->|N]; [simpl; lia|].
  destruct (Zdigits2_pos_bounds m ltac:(lia)) as (Hd & Hlo & _).
  assert (2 ^ (Zdigits2 m - 1) < 2 ^ k) by lia.
  apply Z.pow_lt_mono_r_iff in H; lia.
Qed.

Lemma shr_fexp_small m e l :
  0 <= m ->
  0 <= shr_m (fst (shr_fexp prec emax m e l)) < 2 ^ 53 /\
  snd (shr_fexp prec emax m e l) = Z.max e (fexp prec emax (Zdigits2 m + e)).
Proof.
  intros Hm. destruct (shr_fexp_spec m e l Hm) as [H1 H2].
  rewrite H1, H2. clear H1 H2.
  set (n := Z.max 0 _).
  assert (Hn : 0 <= n) by (subst n; lia).
  assert (P : 0 < 2 ^ n) by (apply Z.pow_pos_nonneg; lia).
  split; [split|subst n; lia].
  - apply Z.div_pos; lia.
  - apply Z.div_lt_upper_bound; [exact P|].
    rewrite <- Z.pow_add_r by lia.
    destruct (Z.eq_dec m 0) as [->|N]; [apply Z.pow_pos_nonneg; lia|].
    destruct (Zdigits2_pos_bounds m ltac:(lia)) as (Hd & _ & Hhi).
    eapply Z.lt_le_trans; [exact Hhi|]. apply Z.pow_le_mono_r; [lia|].
    subst n. unfold fexp, SpecFloat.emin, prec, emax. lia.
Qed.

Lemma binary_round_aux_fin s m e l K :
  0 <= m -> e <= K -> Zdigits2 m + e - 53 <= K -> K + 1 <= 971 ->
  SFfin (binary_round_aux prec emax s m e l) = true /\
  SFexp_le (Z.max (K + 1) (-1073)) (binary_round_aux prec emax s m e l).
Proof.
  intros Hm He Hd HK. unfold binary_round_aux.
  pose proof (shr_fexp_small m e l Hm) as [P1 Q1].
  destruct (shr_fexp prec emax m e l) as [r1 e1]. simpl fst in P1. simpl snd in Q1.
  pose proof (round_nearest_even_ge (shr_m r1) (loc_of_shr_record r1)) as Hr.
  set (m1 := round_nearest_even (shr_m r1) (loc_of_shr_record r1)) in *.
  pose proof (shr_fexp_small m1 e1 loc_Exact ltac:(lia)) as [P2 Q2].
  assert (D1 : Zdigits2 m1 <= 54) by (apply Zdigits2_le; [change (2 ^ 54) with (2 * 2 ^ 53)|]; lia).
  destruct (shr_fexp prec emax m1 e1 loc_Exact) as [r2 e2].
  simpl fst in P2. simpl snd in Q2.
  assert (E2 : e2 <= Z.max (K + 1) (-1073)).
  { subst e2 e1. unfold fexp, SpecFloat.emin, prec, emax. lia. }
  destruct (shr_m r2) as [|p|p]; try lia.
  - split; exact I || reflexivity.
  - replace (e2 <=? emax - prec) with true.
    + split; [reflexivity | exact E2].
    + symmetry. apply Z.leb_le. unfold emax, prec. lia.
Qed.

Lemma SFmul_fin X Y K1 K2 :
  valid_binary X = true -> valid_binary Y = true ->
  SFexp_le K1 X -> SFexp_le K2 Y -> K1 + K2 + 54 <= 971 ->
  SFfin (SF64mul X Y) = true /\ SFexp_le (Z.max (K1 + K2 + 54) (-1073)) (SF64mul X Y).
Proof.
  intros VX VY EX EY HK.
  destruct X as [sx|sx| |sx mx ex], Y as [sy|sy| |sy my ey]; simpl in EX, EY;
    try contradiction; try (split; [reflexivity | exact I]).
  simpl in VX, VY. apply bounded_inv in VX, VY.
  destruct VX as (_ & Dx & _), VY as (_ & Dy & _).
  unfold SF64mul, SFmul.
  replace (K1 + K2 + 54) with (K1 + K2 + 53 + 1) by lia.
  apply (binary_round_aux_fin _ _ _ _ (K1 + K2 + 53)); try lia.
  assert (Zdigits2 (Zpos (mx * my)) <= 106); [|lia].
  apply Zdigits2_le; [|lia].
  pose proof (digits2_bounds mx) as [_ Bx]. pose proof (digits2_bounds my) as [_ By].
  assert (2 ^ Zpos (digits2_pos mx) <= 2 ^ 53) by (apply Z.pow_le_mono_r; lia).
  assert (2 ^ Zpos (digits2_pos my) <= 2 ^ 53) by (apply Z.pow_le_mono_r; lia).
  change (2 ^ 106) with (2 ^ 53 * 2 ^ 53). rewrite Pos2Z.inj_mul. split; [lia|].
  apply Z.mul_lt_mono_nonneg; lia.
Qed.

Lemma SFdiv_core_bounds m1 e1 m2 e2 :
  Zpos (digits2_pos m1) <= 53 ->
  let '(q, e', _) := SFdiv_core_binary prec emax (Zpos m1) e1 (Zpos m2) e2 in
  0 <= q /\ e' <= e1 - e2 /\ Zdigits2 q + e' - 53 <= e1 - e2.
Proof.
  intros D1. unfold SFdiv_core_binary.
  set (e' := Z.min _ (e1 - e2)).
  assert (He' : e' <= e1 - e2) by (subst e'; lia).
  set (s := e1 - e2 - e'). assert (Hs : 0 <= s) by (subst s; lia).
  set (m' := match s with Zpos _ => Z.shiftl (Zpos m1) s | 0 => Zpos m1 | Zneg _ => 0 end).
  assert (Hm' : m' = Zpos m1 * 2 ^ s).
  { subst m'. destruct s as [|p|p] eqn:E; [rewrite Z.pow_0_r; lia | | lia].
    apply Z.shiftl_mul_pow2. lia. }
  pose proof (Z_div_mod m' (Zpos m2) ltac:(lia)) as DM.
  destruct (Z.div_eucl m' (Zpos m2)) as [q r]. destruct DM as [Eq Hr].
  assert (P : 0 < 2 ^ s) by (apply Z.pow_pos_nonneg; lia).
  assert (Hq0 : 0 <= q) by nia.
  assert (Hq1 : q <= m') by nia.
  split; [exact Hq0|]. split; [exact He'|].
  assert (Zdigits2 q <= 53 + s); [|subst s; lia].
  apply Zdigits2_le; [|lia]. split; [exact Hq0|].
  eapply Z.le_lt_trans; [exact Hq1|]. rewrite Hm', Z.pow_add_r by lia.
  apply Z.mul_lt_mono_pos_r; [exact P|].
  pose proof (digits2_bounds m1) as [_ B].
  eapply Z.lt_le_trans; [exact B|]. apply Z.pow_le_mono_r; lia.
Qed.

Lemma SFdiv_fin X sy my ey K1 :
  valid_binary X = true -> SFexp_le K1 X -> K1 - ey + 1 <= 971 ->
  SFfin (SF64div X (S754_finite sy my ey)) = true /\
  SFexp_le (Z.max (K1 - ey + 1) (-1073)) (SF64div X (S754_finite sy my ey)).
Proof.
  intros VX EX HK.
  destruct X as [sx|sx| |sx mx ex]; simpl in EX; try contradiction.
  - split; [reflexivity | exact I].
  - simpl in VX. apply bounded_inv in VX. destruct VX as (_ & Dx & _).
    unfold SF64div, SFdiv.
    pose proof (SFdiv_core_bounds mx ex my ey Dx) as B.
    destruct (SFdiv_core_binary prec emax (Zpos mx) ex (Zpos my) ey) as [[q e'] l].
    destruct B as (Hq & He & Hd).
    apply (binary_round_aux_fin _ _ _ _ (K1 - ey)); lia.
Qed.

Lemma leb_between (lo hi x : float) sl ml sh mh K :
  SF lo = S754_finite sl ml K -> SF hi = S754_finite sh mh K ->
  (lo <=? x)%float = true -> (x <=? hi)%float = true ->
  SFfin (SF x) = true /\ SFexp_le K (SF x).
Proof.
  intros El Eh. rewrite !FloatAxioms.leb_spec, El, Eh. unfold SFleb.
  destruct (SF x) as [s|s| |s m e]; simpl.
  - intros _ _. split; [reflexivity | exact I].
  - destruct s, sl, sh; discriminate.
  - destruct sl; discriminate.
  - intros H1 H2. split; [reflexivity|].
    destruct (Z.compare_spec K e) as [E|E|E]; [lia| |lia].
    rewrite (proj2 (Z.compare_gt_iff e K)) in H2 by lia.
    destruct s, sl, sh; try discriminate.
Qed.

(** ** Order *)

Lemma bounded_mantissa m e :
  bounded prec emax m e = true -> 0 < Zpos m < 2 ^ 53 /\ -1074 <= e <= 971.
Proof.
  intros H. apply bounded_inv in H. destruct H as (He & Hd & _).
  pose proof (digits2_bounds m) as [_ B].
  assert (2 ^ Zpos (digits2_pos m) <= 2 ^ 53) by (apply Z.pow_le_mono_r; lia).
  lia.
Qed.

Lemma SFcompare_key X Y :
  valid_binary X = true -> valid_binary Y = true ->
  X <> S754_nan -> Y <> S754_nan ->
  SFcompare X Y = Some (SFkey X ?= SFkey Y).
Proof.
  intros VX VY NX NY.
  destruct X as [sx|sx| |sx mx ex], Y as [sy|sy| |sy my ey]; try congruence;
    simpl in VX, VY;
    try (apply bounded_mantissa in VX); try (apply bounded_mantissa in VY);
    unfold SFkey, SFcompare; change (2 ^ 53) with 9007199254740992 in *;
    try (destruct sx); try (destruct sy); unfold cond_Zopp;
    try reflexivity; f_equal; symmetry;
    try (apply Z.compare_lt_iff; lia); try (apply Z.compare_gt_iff; lia).
  - destruct (Z.compare_spec ex ey) as [->|L|L].
    + replace (- ((ey + 1075) * 9007199254740992 + Z.pos mx)
               ?= - ((ey + 1075) * 9007199254740992 + Z.pos my))
        with (Zpos my ?= Zpos mx)
        by (destruct (Z.compare_spec (Zpos my) (Zpos mx));
            symmetry; [apply Z.compare_eq_iff | apply Z.compare_lt_iff
                      | apply Z.compare_gt_iff]; lia).
      simpl. rewrite (Pos.compare_antisym mx my).
      unfold Pos.compare. reflexivity.
    + apply Z.compare_gt_iff. lia.
    + apply Z.compare_lt_iff. lia.
  - destruct (Z.compare_spec ex ey) as [->|L|L].
    + replace ((ey + 1075) * 9007199254740992 + Z.pos mx
               ?= (ey + 1075) * 9007199254740992 + Z.pos my)
        with (Zpos mx ?= Zpos my)
        by (destruct (Z.compare_spec (Zpos mx) (Zpos my));
            symmetry; [apply Z.compare_eq_iff | apply Z.compare_lt_iff
                      | apply Z.compare_gt_iff]; lia).
      reflexivity.
    + apply Z.compare_lt_iff. lia.
    + apply Z.compare_gt_iff. lia.
Qed.

Lemma compare_key (x y : float) :
  is_nan x = false -> is_nan y = false ->
  SFcompare (SF x) (SF y) = Some (key x ?= key y).
Proof.
  intros Nx Ny. apply is_nan_SF in Nx, Ny.
  apply SFcompare_key; auto using Prim2SF_valid.
Qed.

Lemma ltb_key (x y : float) :
  is_nan x = false -> is_nan y = false -> (x <? y)%float = (key x <? key y).
Proof.
  intros Nx Ny. rewrite FloatAxioms.ltb_spec. unfold SFltb.
  rewrite (compare_key x y Nx Ny). unfold Z.ltb.
  destruct (key x ?= key y); reflexivity.
Qed.

Lemma leb_key (x y : float) :
  is_nan x = false -> is_nan y = false -> (x <=? y)%float = (key x <=? key y).
Proof.
  intros Nx Ny. rewrite FloatAxioms.leb_spec. unfold SFleb.
  rewrite (compare_key x y Nx Ny). unfold Z.leb.
  destruct (key x ?= key y); reflexivity.
Qed.

Lemma eqb_key (x y : float) :
  is_nan x = false -> is_nan y = false -> (x =? y)%float = (key x =? key y).
Proof.
  intros Nx Ny. rewrite FloatAxioms.eqb_spec. unfold SFeqb.
  rewrite (compare_key x y Nx Ny).
  destruct (Z.compare_spec (key x) (key y)); symmetry;
    [apply Z.eqb_eq | apply Z.eqb_neq | apply Z.eqb_neq]; lia.
Qed.

(** A number that compares with another one is not [NaN]. *)
Lemma leb_not_nan (x y : float) :
  (x <=? y)%float = true -> is_nan x = false /\ is_nan y = false.
Proof.
  rewrite FloatAxioms.leb_spec. unfold SFleb. intros H.
  split; apply is_nan_SF; intros N; rewrite N in H;
    [|destruct (SF x)]; discriminate.
Qed.

(** A number is truthy when it lies on one side of zero. *)
Lemma truthy_num_sign (v : float) :
  truthy_num v = ((v <? 0) || (0 <? v))%float.
Proof.
  unfold truthy_num, is_nan.
  rewrite !FloatAxioms.eqb_spec, !FloatAxioms.ltb_spec, SF_zero.
  unfold SFeqb, SFltb. rewrite SFcompare_zero_r, SFcompare_zero_l.
  destruct (SF v) as [s|s| |s m e]; try reflexivity.
  - destruct s; reflexivity.
  - rewrite SFcompare_refl_finite. destruct s; reflexivity.
Qed.

(** * The ranking *)

(** The comparator puts [a] behind [b] exactly when [b] ranks strictly
    lower: by workload, then by distance. *)
Lemma byLoadThenDistance_spec (a b : candidate) :
  numeric a -> numeric b ->
  (0 <? byLoadThenDistance a b)%float = true <-> rank_lt b a.
Proof.
  intros [La Da] [Lb Db].
  destruct (sub_ltb_0 (c_load a) (c_load b) La Lb) as [L1 L2].
  destruct (sub_ltb_0 (c_d a) (c_d b) Da Db) as [D1 D2].
  unfold byLoadThenDistance, or_num, rank_lt.
  rewrite (ltb_key _ _ La Lb) in L1. rewrite (ltb_key _ _ Lb La) in L2.
  rewrite (ltb_key _ _ Db Da) in D2.
  rewrite truthy_num_sign, L1, L2.
  destruct (key (c_load a) <? key (c_load b)) eqn:E1;
    destruct (key (c_load b) <? key (c_load a)) eqn:E2;
    cbv [orb]; rewrite ?L2, ?D2, ?E2;
    rewrite ?Z.ltb_lt, ?Z.ltb_ge in *; try rewrite Z.ltb_lt;
    try (split; [discriminate | lia]); lia.
Qed.

Lemma rank_lt_irrefl (a : candidate) : ~ rank_lt a a.
Proof. unfold rank_lt. lia. Qed.

Lemma rank_le_lt_trans (a b c : candidate) :
  rank_le a b -> rank_lt b c -> rank_lt a c.
Proof. unfold rank_le, rank_lt. lia. Qed.

Lemma rank_le_trans (a b c : candidate) :
  rank_le a b -> rank_le b c -> rank_le a c.
Proof. unfold rank_le, rank_lt. lia. Qed.

Lemma rank_lt_le (a b : candidate) : rank_lt a b -> rank_le a b.
Proof. unfold rank_le, rank_lt. lia. Qed.

Section SortFacts.
Context {A : Type} (comparefn : A -> A -> float).

Lemma sort_cons (x : A) (l : list A) :
  sort comparefn (x :: l) = insert comparefn x (sort comparefn l).
Proof. reflexivity. Qed.

Lemma insert_In (c x : A) (l : list A) :
  In c (insert comparefn x l) <-> c = x \/ In c l.
Proof.
  induction l as [|y l IH]; simpl.
  - intuition.
  - destruct (0 <? comparefn x y)%float; simpl; rewrite ?IH; intuition.
Qed.

Lemma sort_In (c : A) (l : list A) : In c (sort comparefn l) <-> In c l.
Proof.
  induction l as [|x l IH]; [reflexivity|].
  rewrite sort_cons, insert_In, IH. simpl. intuition.
Qed.

Lemma sort_nil_inv (l : list A) : sort comparefn l = [] -> l = [].
Proof.
  destruct l as [|x l]; [reflexivity|]. intros H.
  assert (I : In x (sort comparefn (x :: l))) by (apply sort_In; left; reflexivity).
  rewrite H in I. destruct I.
Qed.
End SortFacts.

(** The model of the sort does what [Array.prototype.sort] promises: the
    result is a rearrangement of the input, no element is followed by one
    that the comparator puts before it, and elements that compare equal
    keep their order. *)
Lemma sort_Permutation {A : Type} (comparefn : A -> A -> float) (l : list A) :
  Permutation (sort comparefn l) l.
Proof.
  induction l as [|x l IH]; [constructor|].
  rewrite sort_cons. transitivity (x :: sort comparefn l).
  - clear IH. induction (sort comparefn l) as [|y r IHr]; simpl.
    + reflexivity.
    + destruct (0 <? comparefn x y)%float; [|reflexivity].
      rewrite IHr. apply perm_swap.
  - constructor. exact IH.
Qed.

Lemma insert_sorted (x : candidate) (l : list candidate) :
  numeric x -> Forall numeric l ->
  StronglySorted rank_le l ->
  StronglySorted rank_le (insert byLoadThenDistance x l).
Proof.
  intros Hx Hl Hs. induction Hs as [|y l Hs IH Hy]; simpl.
  - repeat constructor.
  - apply Forall_cons_iff in Hl. destruct Hl as [Ny Nl].
    destruct (0 <? byLoadThenDistance x y)%float eqn:C.
    + apply byLoadThenDistance_spec in C; [|assumption..].
      constructor; [apply IH, Nl|].
      apply List.Forall_forall. intros c Hc. apply insert_In in Hc.
      destruct Hc as [-> | Hc]; [apply rank_lt_le, C|].
      rewrite List.Forall_forall in Hy. apply Hy, Hc.
    + assert (Hle : rank_le x y).
      { intros Hlt. apply byLoadThenDistance_spec in Hlt; [|assumption..].
        congruence. }
      constructor; [constructor; assumption|].
      constructor; [exact Hle|].
      eapply List.Forall_impl; [|exact Hy]. intros c Hc.
      eapply rank_le_trans; eassumption.
Qed.

Lemma sort_numeric (l : list candidate) :
  Forall numeric l -> Forall numeric (sort byLoadThenDistance l).
Proof.
  intros H. apply List.Forall_forall. intros c Hc.
  apply sort_In in Hc. rewrite List.Forall_forall in H. apply H, Hc.
Qed.

Lemma sort_sorted (l : list candidate) :
  Forall numeric l -> StronglySorted rank_le (sort byLoadThenDistance l).
Proof.
  induction l as [|x l IH]; intros H; [constructor|].
  apply Forall_cons_iff in H. destruct H as [Hx Hl].
  rewrite sort_cons. apply insert_sorted; auto using sort_numeric.
Qed.

Lemma insert_stable (z x : candidate) (l : list candidate) :
  numeric x -> Forall numeric l ->
  List.filter (same_rank z) (insert byLoadThenDistance x l)
  = List.filter (same_rank z) (x :: l).
Proof.
  intros Hx Hl. induction l as [|y l IH]; [reflexivity|].
  apply Forall_cons_iff in Hl. destruct Hl as [Ny Nl].
  simpl insert. destruct (0 <? byLoadThenDistance x y)%float eqn:C;
    [|reflexivity].
  apply byLoadThenDistance_spec in C; [|assumption..].
  simpl. rewrite (IH Nl). simpl.
  destruct (same_rank z x) eqn:Sx, (same_rank z y) eqn:Sy; try reflexivity.
  exfalso. unfold same_rank in Sx, Sy.
  apply andb_true_iff in Sx, Sy. rewrite !Z.eqb_eq in Sx, Sy.
  unfold rank_lt in C. lia.
Qed.

Lemma sort_stable (z : candidate) (l : list candidate) :
  Forall numeric l ->
  List.filter (same_rank z) (sort byLoadThenDistance l)
  = List.filter (same_rank z) l.
Proof.
  induction l as [|x l IH]; intros H; [reflexivity|].
  apply Forall_cons_iff in H. destruct H as [Hx Hl].
  rewrite sort_cons, insert_stable by auto using sort_numeric.
  simpl. rewrite (IH Hl). reflexivity.
Qed.

(** The first element of the sorted array: every element before it in the
    input ranks strictly higher, every element after it ranks at least as
    high.  It is the first of the lowest-ranked elements. *)
Lemma sort_head (l : list candidate) (b : candidate) (rest : list candidate) :
  Forall numeric l ->
  sort byLoadThenDistance l = b :: rest ->
  exists l1 l2, l = (l1 ++ b :: l2)%list /\
                Forall (rank_lt b) l1 /\ Forall (rank_le b) l2.
Proof.
  revert b rest. induction l as [|x l IH]; intros b rest Hn Hs; [discriminate|].
  apply Forall_cons_iff in Hn. destruct Hn as [Hx Hl].
  rewrite sort_cons in Hs.
  destruct (sort byLoadThenDistance l) as [|b' rest'] eqn:Es.
  - apply sort_nil_inv in Es. subst l. simpl in Hs.
    injection Hs as <- <-. exists [], []. repeat split; constructor.
  - destruct (IH b' rest' Hl eq_refl) as (l1 & l2 & -> & H1 & H2).
    assert (Hb' : numeric b').
    { rewrite Forall_forall in Hl. apply Hl. set_solver. }
    simpl in Hs.
    destruct (0 <? byLoadThenDistance x b')%float eqn:C.
    + injection Hs as <- <-. exists (x :: l1), l2. repeat split; [|assumption].
      constructor; [|assumption].
      apply byLoadThenDistance_spec; assumption.
    + injection Hs as <- <-. exists [], (l1 ++ b' :: l2)%list.
      repeat split; [constructor|].
      assert (Hle : rank_le x b').
      { intros Hlt. apply byLoadThenDistance_spec in Hlt; [|assumption..].
        congruence. }
      apply Forall_app. split; [|constructor].
      * eapply List.Forall_impl; [|exact H1]. intros c Hc.
        apply rank_lt_le. eapply rank_le_lt_trans; eassumption.
      * exact Hle.
      * eapply List.Forall_impl; [|exact H2]. intros c Hc.
        eapply rank_le_trans; eassumption.
Qed.
(** * The haversine distance *)

Lemma binary_round_aux_sign s m e l :
  match binary_round_aux prec emax s m e l with
  | S754_zero s' | S754_infinity s' | S754_finite s' _ _ => s' = s
  | S754_nan => True
  end.
Proof.
  unfold binary_round_aux.
  destruct (shr_fexp prec emax m e l) as [r1 e1].
  destruct (shr_fexp prec emax _ e1 loc_Exact) as [r2 e2].
  destruct (shr_m r2); try reflexivity; try exact I.
  destruct (e2 <=? emax - prec); reflexivity.
Qed.

Lemma SF_one : SF 1 = S754_finite false 4503599627370496 (-52).
Proof. reflexivity. Qed.

Lemma SF_90 : SF 90 = S754_finite false 6333186975989760 (-46).
Proof. reflexivity. Qed.

Lemma SF_neg_90 : SF (-90) = S754_finite true 6333186975989760 (-46).
Proof. reflexivity. Qed.

Lemma SF_180 : SF 180 = S754_finite false 6333186975989760 (-45).
Proof. reflexivity. Qed.

Lemma SF_neg_180 : SF (-180) = S754_finite true 6333186975989760 (-45).
Proof. reflexivity. Qed.

Lemma SF_PI : SF PI = S754_finite false 7074237752028440 (-51).
Proof. reflexivity. Qed.

(** The square of a number between -1 and 1, times zero, is [+0]. *)
Lemma mul_self_zero (c : float) :
  (abs c <=? 1)%float = true -> (c * c * 0)%float = 0%float.
Proof.
  rewrite FloatAxioms.leb_spec, abs_spec. intros H.
  apply Prim2SF_inj. rewrite !mul_spec.
  rewrite SF_one in H. rewrite SF_zero.
  pose proof (Prim2SF_valid c) as V.
  destruct (SF c) as [s|s| |s m e].
  - destruct s; reflexivity.
  - discriminate.
  - discriminate.
  - assert (He : e <= -52).
    { unfold SFleb, SFabs, SFcompare in H.
      destruct (Z.compare_spec e (-52)); [lia | lia | discriminate]. }
    assert (Ex : SFexp_le (-52) (S754_finite s m e)) by exact He.
    destruct (SFmul_fin _ _ _ _ V V Ex Ex ltac:(lia)) as [F _].
    pose proof (binary_round_aux_sign (xorb s s) (Zpos (m * m)) (e + e) loc_Exact) as S.
    unfold SF64mul in *. cbn [SFmul] in F, S |- *.
    rewrite xorb_nilpotent in *.
    destruct (binary_round_aux prec emax false (Zpos (m * m)) (e + e) loc_Exact)
      as [s'|s'| |s' m' e']; try discriminate F; subst s'; reflexivity.
Qed.

Lemma mul_mul_opp (t s : float) : (t * - s * - s = t * s * s)%float.
Proof. rewrite (mul_opp_r t s), mul_opp_opp. reflexivity. Qed.

Lemma toRad_opp (x : float) : toRad (- x) = (- toRad x)%float.
Proof. unfold toRad. rewrite mul_opp_l, div_opp_l. reflexivity. Qed.

(** The radians of an in-range latitude are a finite number. *)
Lemma toRad_finite (lat : float) :
  (-90 <=? lat)%float = true -> (lat <=? 90)%float = true ->
  is_finite (toRad lat) = true.
Proof.
  intros H1 H2.
  destruct (leb_between _ _ lat _ _ _ _ _ SF_neg_90 SF_90 H1 H2) as [F X].
  rewrite is_finite_SF. unfold toRad. rewrite div_spec, SF_180.
  assert (P : SFexp_le (-51) (SF PI)) by (rewrite SF_PI; unfold SFexp_le; lia).
  destruct (SFmul_fin (SF lat) (SF PI) (-46) (-51)
              (Prim2SF_valid _) (Prim2SF_valid _) X P ltac:(lia)) as [_ M].
  rewrite <- mul_spec in M.
  apply (SFdiv_fin (SF (lat * PI)) false 6333186975989760 (-45) _
           (Prim2SF_valid _) M). lia.
Qed.

Lemma inRange_finite (lat lng : float) :
  inRange lat lng = true ->
  is_finite lat = true /\ is_finite lng = true /\ is_finite (toRad lat) = true.
Proof.
  unfold inRange. rewrite !andb_true_iff. intros [[[A B] C] D].
  rewrite !is_finite_SF. repeat split.
  - apply (leb_between _ _ lat _ _ _ _ _ SF_neg_90 SF_90 A B).
  - apply (leb_between _ _ lng _ _ _ _ _ SF_neg_180 SF_180 C D).
  - rewrite <- is_finite_SF. apply toRad_finite; assumption.
Qed.

Section HaversineFacts.
Context (E : Builtins) (HE : Conforms E).

(** the sine of half an angle given in degrees *)
Let h (x : float) : float := Math_sin E (toRad x / 2).

Lemma half_sine_flip (u v : float) :
  v = (- u)%float \/ (v = 0%float /\ u = 0%float) ->
  h v = (- h u)%float \/ h v = h u.
Proof.
  intros [-> | [-> ->]]; [left | right; reflexivity].
  unfold h. rewrite toRad_opp, div_opp_l. apply (sin_odd E HE).
Qed.

Lemma dist_sym (aLat aLng bLat bLng : float) :
  dist E aLat aLng bLat bLng = dist E bLat bLng aLat aLng.
Proof.
  unfold dist. fold (h (bLat - aLat)) (h (bLng - aLng)).
  fold (h (aLat - bLat)) (h (aLng - bLng)).
  rewrite (mul_comm (Math_cos E (toRad aLat))).
  set (T := (Math_cos E (toRad bLat) * Math_cos E (toRad aLat))%float).
  destruct (half_sine_flip _ _ (sub_antisym aLat bLat)) as [-> | ->];
    destruct (half_sine_flip _ _ (sub_antisym aLng bLng)) as [-> | ->];
    rewrite ?mul_mul_opp, ?mul_opp_opp; reflexivity.
Qed.

Lemma dist_put_sym (aLat aLng bLat bLng : float) :
  dist_put E aLat aLng bLat bLng = dist_put E bLat bLng aLat aLng.
Proof.
  unfold dist_put. fold (h (bLat - aLat)) (h (bLng - aLng)).
  fold (h (aLat - bLat)) (h (aLng - bLng)).
  rewrite (mul_comm (Math_cos E (toRad aLat))).
  destruct (half_sine_flip _ _ (sub_antisym aLat bLat)) as [-> | ->];
    destruct (half_sine_flip _ _ (sub_antisym aLng bLng)) as [-> | ->];
    rewrite ?(exp_even E HE); reflexivity.
Qed.

Lemma dist_self (lat lng : float) :
  inRange lat lng = true -> dist E lat lng lat lng = 0%float.
Proof.
  intros H. destruct (inRange_finite lat lng H) as (Flat & Flng & Frad).
  unfold dist. rewrite (sub_self lat Flat), (sub_self lng Flng).
  change (toRad 0 / 2)%float with 0%float.
  rewrite (sin_zero E HE).
  rewrite (mul_self_zero _ (cos_range E HE _ Frad)).
  change (0 * 0 + 0 * 0)%float with 0%float.
  change (PrimFloat.sqrt 0) with 0%float.
  change (PrimFloat.sqrt (1 - 0)) with 1%float.
  rewrite (atan2_zero E HE). reflexivity.
Qed.

Lemma dist_put_self (lat lng : float) :
  inRange lat lng = true -> dist_put E lat lng lat lng = 0%float.
Proof.
  intros H. destruct (inRange_finite lat lng H) as (Flat & Flng & Frad).
  unfold dist_put. rewrite (sub_self lat Flat), (sub_self lng Flng).
  change (toRad 0 / 2)%float with 0%float.
  rewrite (sin_zero E HE), (exp_zero E HE).
  rewrite (mul_self_zero _ (cos_range E HE _ Frad)).
  change (0 + 0)%float with 0%float.
  change (PrimFloat.sqrt 0) with 0%float.
  change (PrimFloat.sqrt (1 - 0)) with 1%float.
  rewrite (atan2_zero E HE). reflexivity.
Qed.
End HaversineFacts.

Lemma smallAngle_conforms : Conforms smallAngle.
Proof.
  constructor; simpl; try reflexivity.
  intros x. apply mul_opp_opp.
Qed.

(** * The assignment handlers *)

(** ** Workloads *)

Lemma Number_of_count_not_nan (n : nat) : is_nan (Number_of_count n) = false.
Proof.
  apply is_nan_SF. unfold Number_of_count. rewrite of_uint63_spec.
  intros N.
  pose proof (binary_normalize_sgn (Uint63Axioms.to_Z (Uint63.of_Z (Z.of_nat n))) 0
                ltac:(lia)) as S.
  rewrite N in S. discriminate.
Qed.

Lemma setLoads_not_nan (loads : list (Z * nat)) (i : Z) (v : float) :
  setLoads loads !! i = Some v -> is_nan v = false.
Proof.
  unfold setLoads.
  assert (G : forall (m : gmap Z float),
             (forall j w, m !! j = Some w -> is_nan w = false) ->
             forall j w,
               fold_left (fun m r => <[ fst r := Number_of_count (snd r) ]> m) loads m
                 !! j = Some w -> is_nan w = false).
  { induction loads as [|r loads IH]; intros m Hm j w; simpl; [apply Hm|].
    apply IH. intros j' w'. destruct (decide (fst r = j')) as [->|Hne].
    - rewrite lookup_insert_eq. intros [= <-]. apply Number_of_count_not_nan.
    - rewrite lookup_insert_ne by assumption. apply Hm. }
  apply (G ∅). intros j w. rewrite lookup_empty. discriminate.
Qed.

Lemma loadOf_not_nan (env : environment) (fails : statement -> bool)
    (db : database) (i : Z) :
  is_nan (loadOf (loadWorkload env fails db) i) = false.
Proof.
  unfold loadOf, loadWorkload.
  destruct (ASSIGN_LOAD_STATUSES env) as [|s l]; [rewrite lookup_empty; reflexivity|].
  destruct (fails SelectLoads); [rewrite lookup_empty; reflexivity|].
  destruct (setLoads _ !! i) as [v|] eqn:L; [|reflexivity].
  simpl. eapply setLoads_not_nan, L.
Qed.

(** ** Candidates *)

Section RankingFacts.
Context (dist : float -> float -> float -> float -> float).
Context (rlat rlng MAX : float) (loadOf : Z -> float).

Lemma candidates_In (c : candidate) (agents : list agentRow) :
  In c (candidates dist rlat rlng loadOf agents) <->
  exists a, In a agents /\
    c = {| c_id := ag_id a; c_d := dist rlat rlng (ag_lat a) (ag_lng a);
           c_load := loadOf (ag_id a) |}.
Proof.
  unfold candidates. rewrite in_map_iff. split; intros (a & H1 & H2); eauto.
Qed.

Lemma withinRadius_In (c : candidate) (cs : list candidate) :
  In c (withinRadius MAX cs) <-> In c cs /\ (c_d c <=? MAX)%float = true.
Proof. unfold withinRadius. apply filter_In. Qed.

Lemma ranked_In (c : candidate) (agents : list agentRow) :
  In c (ranked dist rlat rlng MAX loadOf agents) <->
  In c (withinRadius MAX (candidates dist rlat rlng loadOf agents)).
Proof. unfold ranked. apply sort_In. Qed.

Lemma withinRadius_numeric (agents : list agentRow) :
  (forall i, is_nan (loadOf i) = false) ->
  Forall numeric (withinRadius MAX (candidates dist rlat rlng loadOf agents)).
Proof.
  intros HL. apply List.Forall_forall. intros c Hc.
  apply withinRadius_In in Hc. destruct Hc as [Hc Hd].
  apply candidates_In in Hc. destruct Hc as (a & _ & ->). simpl in *.
  split; [apply HL | apply (leb_not_nan _ _ Hd)].
Qed.

Lemma selectBest_ranked (agents : list agentRow) (best : candidate) :
  selectBest dist rlat rlng MAX loadOf agents = Some best <->
  exists rest, ranked dist rlat rlng MAX loadOf agents = best :: rest.
Proof.
  unfold selectBest. destruct (ranked _ _ _ _ _ _) as [|b rest].
  - split; [discriminate | intros [? ?]; discriminate].
  - split; [intros [= ->]; eauto | intros [? [= -> _]]; reflexivity].
Qed.

Lemma selectBest_None (agents : list agentRow) :
  selectBest dist rlat rlng MAX loadOf agents = None <->
  withinRadius MAX (candidates dist rlat rlng loadOf agents) = [].
Proof.
  unfold selectBest, ranked.
  destruct (sort _ _) as [|b rest] eqn:S.
  - apply sort_nil_inv in S. rewrite S. split; reflexivity.
  - split; [discriminate|]. intros N. rewrite N in S. discriminate.
Qed.

(** The selected candidate is the first of the lowest-ranked candidates
    within the radius. *)
Lemma selectBest_first_lowest (agents : list agentRow) (best : candidate) :
  (forall i, is_nan (loadOf i) = false) ->
  selectBest dist rlat rlng MAX loadOf agents = Some best ->
  exists l1 l2,
    withinRadius MAX (candidates dist rlat rlng loadOf agents)
      = (l1 ++ best :: l2)%list /\
    Forall (rank_lt best) l1 /\ Forall (rank_le best) l2.
Proof.
  intros HL H. apply selectBest_ranked in H. destruct H as [rest H].
  eapply sort_head; [apply withinRadius_numeric, HL | exact H].
Qed.
End RankingFacts.

(** The rank in the words of the comparator's two keys. *)
Lemma rank_le_float (a b : candidate) :
  numeric a -> numeric b -> rank_le a b ->
  (c_load a <=? c_load b)%float = true /\
  ((c_load a =? c_load b)%float = true -> (c_d a <=? c_d b)%float = true).
Proof.
  intros [La Da] [Lb Db] H. unfold rank_le, rank_lt in H.
  rewrite !leb_key, eqb_key by assumption.
  rewrite !Z.leb_le, Z.eqb_eq. lia.
Qed.

Lemma rank_lt_float (a b : candidate) :
  numeric a -> numeric b -> rank_lt a b ->
  ((c_load b =? c_load a) && (c_d b =? c_d a))%float = false.
Proof.
  intros [La Da] [Lb Db] H. unfold rank_lt in H.
  rewrite !eqb_key by assumption.
  apply andb_false_iff. rewrite !Z.eqb_neq. lia.
Qed.

(** ** The handlers, step by step *)

Ltac handler_case H :=
  match type of H with
  | context [if ?b then _ else _] => destruct b eqn:?
  | context [match ?x with _ => _ end] => destruct x eqn:?
  end; cbv beta iota in H; try discriminate H.

(** Past the three reads, the admin handler is the ranking and the update. *)
Lemma adminAssign_reached E env fails db orderId rlat rlng :
  fails SelectOrder = false -> fails SelectRestaurant = false ->
  fails SelectAgents = false ->
  pickup db orderId = Some (rlat, rlng) ->
  selectAgents (agents db) <> [] ->
  adminAssign E env fails db orderId =
    match selectBest (dist E) rlat rlng (ASSIGN_MAX_KM env)
            (loadOf (loadWorkload env fails db)) (selectAgents (agents db)) with
    | None => (db, NoActiveAgentsWithin (ASSIGN_MAX_KM env))
    | Some best =>
        if fails UpdateOrder then (db, FailedToAssign)
        else (updateOrder db (c_id best) orderId,
              AgentAssigned (c_id best) (c_d best))
    end.
Proof.
  intros F1 F2 F3 P A. unfold adminAssign, pickup in *. rewrite F1.
  destruct (selectOrder db orderId) as [|o ?]; [discriminate|].
  destruct (o_restaurant_id o) as [rid|]; [|discriminate].
  destruct (rid =? 0); [discriminate|]. rewrite F2.
  destruct (selectRestaurant db rid) as [|r ?]; [discriminate|].
  destruct (r_latitude r) as [x|], (r_longitude r) as [y|]; try discriminate.
  injection P as -> ->. rewrite F3.
  destruct (selectAgents (agents db)) as [|ag ags]; [congruence|]. reflexivity.
Qed.

(** A successful reply of the admin handler comes from the ranking. *)
Lemma adminAssign_assigned E env fails db orderId db' a d :
  adminAssign E env fails db orderId = (db', AgentAssigned a d) ->
  exists rlat rlng best,
    pickup db orderId = Some (rlat, rlng) /\
    selectBest (dist E) rlat rlng (ASSIGN_MAX_KM env)
      (loadOf (loadWorkload env fails db)) (selectAgents (agents db)) = Some best /\
    c_id best = a /\ c_d best = d /\ db' = updateOrder db a orderId.
Proof.
  intros H. unfold adminAssign in H.
  destruct (fails SelectOrder) eqn:F1; [discriminate|].
  destruct (pickup db orderId) as [[rlat rlng]|] eqn:P.
  - destruct (selectAgents (agents db)) as [|ag ags] eqn:A.
    + exfalso. unfold pickup in P. repeat handler_case H.
    + unfold pickup in P.
      destruct (selectOrder db orderId) as [|o ?]; [discriminate|].
      destruct (o_restaurant_id o) as [rid|]; [|discriminate].
      destruct (rid =? 0); [discriminate|].
      destruct (fails SelectRestaurant); [discriminate|].
      destruct (selectRestaurant db rid) as [|r ?]; [discriminate|].
      destruct (r_latitude r) as [x|], (r_longitude r) as [y|]; try discriminate.
      injection P as -> ->.
      destruct (fails SelectAgents); [discriminate|].
      destruct (selectBest _ _ _ _ _ _) as [best|] eqn:S; [|discriminate].
      destruct (fails UpdateOrder); [discriminate|].
      injection H as <- <- <-. exists rlat, rlng, best. auto.
  - exfalso. unfold pickup in P. repeat handler_case H; discriminate.
Qed.

(** A successful reply of the PUT handler comes from the ranking. *)
Lemma putAssign_assigned E fails db orderId body db' a d :
  putAssign E fails db orderId body = (db', AgentAssigned a d) ->
  exists agents rlat rlng best,
    b_agents body = Some agents /\ b_rlat body = Some rlat /\
    b_rlng body = Some rlng /\
    selectBest (dist_put E) rlat rlng (radiusOf body) (loadOfBody body) agents
      = Some best /\
    c_id best = a /\ c_d best = d /\ db' = updateOrder db a orderId.
Proof.
  intros H. unfold putAssign in H.
  destruct (b_agents body) as [agents|]; [|discriminate].
  destruct (b_rlat body) as [rlat|]; [|discriminate].
  destruct (b_rlng body) as [rlng|]; [|discriminate].
  destruct (truthy_num rlat && truthy_num rlng); [|discriminate].
  destruct (selectBest _ _ _ _ _ _) as [best|] eqn:S; [|discriminate].
  destruct (fails UpdateOrder); [discriminate|].
  injection H as <- <- <-. exists agents, rlat, rlng, best. auto 10.
Qed.

Lemma selectBest_In dist rlat rlng MAX loadOf agents best :
  selectBest dist rlat rlng MAX loadOf agents = Some best ->
  In best (withinRadius MAX (candidates dist rlat rlng loadOf agents)).
Proof.
  intros H. apply selectBest_ranked in H. destruct H as [rest H].
  apply ranked_In. rewrite H. left. reflexivity.
Qed.

(** With the reads and the update succeeding, the admin handler assigns
    an agent as soon as one candidate is within the radius; nothing else
    about the order matters, its status least of all. *)
Lemma adminAssign_selects E env fails db orderId rlat rlng :
  fails SelectOrder = false -> fails SelectRestaurant = false ->
  fails SelectAgents = false -> fails UpdateOrder = false ->
  pickup db orderId = Some (rlat, rlng) ->
  eligible E env fails db rlat rlng <> [] ->
  exists best,
    adminAssign E env fails db orderId
      = (updateOrder db (c_id best) orderId,
         AgentAssigned (c_id best) (c_d best)) /\
    In best (eligible E env fails db rlat rlng).
Proof.
  intros F1 F2 F3 F4 P N.
  assert (A : selectAgents (agents db) <> []).
  { intros A. apply N. unfold eligible. rewrite A. reflexivity. }
  rewrite (adminAssign_reached E env fails db orderId rlat rlng) by assumption.
  destruct (selectBest _ _ _ _ _ _) as [best|] eqn:S.
  - exists best. rewrite F4. split; [reflexivity|].
    apply selectBest_In in S. exact S.
  - apply selectBest_None in S. contradiction.
Qed.

(** * The radius *)

(** C4: the agent a successful assignment returns is an agent of the
    candidate set whose computed distance to the pickup point is at most
    the maximum radius, in both handlers; the array that is ranked holds
    only candidates within the radius, the others were discarded by the
    filter before the sort. *)
Theorem assigned_agent_within_radius (E : Builtins) :
  (forall env fails db orderId db' a d,
      adminAssign E env fails db orderId = (db', AgentAssigned a d) ->
      (d <=? ASSIGN_MAX_KM env)%float = true /\
      exists rlat rlng ag,
        pickup db orderId = Some (rlat, rlng) /\
        In ag (selectAgents (agents db)) /\ ag_id ag = a /\
        d = dist E rlat rlng (ag_lat ag) (ag_lng ag)) /\
  (forall fails db orderId body db' a d,
      putAssign E fails db orderId body = (db', AgentAssigned a d) ->
      (d <=? radiusOf body)%float = true /\
      exists agents rlat rlng ag,
        b_agents body = Some agents /\ b_rlat body = Some rlat /\
        b_rlng body = Some rlng /\
        In ag agents /\ ag_id ag = a /\
        d = dist_put E rlat rlng (ag_lat ag) (ag_lng ag)) /\
  (forall dist rlat rlng MAX loadOf agents c,
      In c (ranked dist rlat rlng MAX loadOf agents) ->
      (c_d c <=? MAX)%float = true /\
      In c (candidates dist rlat rlng loadOf agents)).
Proof.
  split; [|split].
  - intros env fails db orderId db' a d H.
    apply adminAssign_assigned in H.
    destruct H as (rlat & rlng & best & P & S & <- & <- & _).
    apply selectBest_In, withinRadius_In in S. destruct S as [C D].
    split; [exact D|].
    apply candidates_In in C. destruct C as (ag & I & ->).
    exists rlat, rlng, ag. auto.
  - intros fails db orderId body db' a d H.
    apply putAssign_assigned in H.
    destruct H as (ags & rlat & rlng & best & A & X & Y & S & <- & <- & _).
    apply selectBest_In, withinRadius_In in S. destruct S as [C D].
    split; [exact D|].
    apply candidates_In in C. destruct C as (ag & I & ->).
    exists ags, rlat, rlng, ag. auto 10.
  - intros dist rlat rlng MAX loadOf ags c H.
    apply ranked_In, withinRadius_In in H. tauto.
Qed.

Lemma assigned_agent_within_radius_witness :
  exists db' a d,
    adminAssign smallAngle defaults reliable scenario 10 = (db', AgentAssigned a d) /\
    (d <=? ASSIGN_MAX_KM defaults)%float = true.
Proof.
  eexists _, _, _. split; [vm_compute; reflexivity|].
  exact (proj1 (proj1 (assigned_agent_within_radius smallAngle)
                  defaults reliable scenario 10 _ _ _ eq_refl)).
Defined.

(** * Workload first, distance second *)

(** The selected candidate is the lowest-ranked one of those within the
    radius. *)
Lemma selected_is_lowest dist rlat rlng MAX loadOf ags best :
  (forall i, is_nan (loadOf i) = false) ->
  selectBest dist rlat rlng MAX loadOf ags = Some best ->
  forall c, In c (withinRadius MAX (candidates dist rlat rlng loadOf ags)) ->
    (c_load best <=? c_load c)%float = true /\
    ((c_load best =? c_load c)%float = true ->
     (c_d best <=? c_d c)%float = true).
Proof.
  intros HL S c Hc.
  pose proof (withinRadius_numeric dist rlat rlng MAX loadOf ags HL) as N.
  destruct (selectBest_first_lowest _ _ _ _ _ _ _ HL S)
    as (l1 & l2 & L & H1 & H2).
  rewrite List.Forall_forall in N.
  assert (Nb : numeric best).
  { apply N. rewrite L. apply in_or_app. right. left. reflexivity. }
  assert (Nc : numeric c) by (apply N, Hc).
  apply rank_le_float; try assumption.
  rewrite L in Hc. apply in_app_or in Hc.
  rewrite List.Forall_forall in H1, H2.
  destruct Hc as [Hc | [<- | Hc]].
  - apply rank_lt_le, H1, Hc.
  - apply rank_lt_irrefl.
  - apply H2, Hc.
Qed.

(** C5: when at least one candidate is within the radius (and the reads
    and the update succeed) the admin handler assigns an agent; and whenever
    it assigns one, the selected candidate is within the radius and, against
    every candidate within the radius, its workload is the smaller or an
    equal one, and with an equal workload its distance is the smaller or an
    equal one.  So between two agents of equal workload the nearer one is
    selected, and an agent of strictly lower workload is selected over a
    nearer agent of higher workload. *)
Theorem selection_minimizes_load_then_distance
    (E : Builtins) (env : environment) (fails : statement -> bool)
    (db : database) (orderId : Z) :
  (forall rlat rlng,
      fails SelectOrder = false -> fails SelectRestaurant = false ->
      fails SelectAgents = false -> fails UpdateOrder = false ->
      pickup db orderId = Some (rlat, rlng) ->
      eligible E env fails db rlat rlng <> [] ->
      exists best,
        adminAssign E env fails db orderId
          = (updateOrder db (c_id best) orderId,
             AgentAssigned (c_id best) (c_d best))) /\
  (forall db' a d,
      adminAssign E env fails db orderId = (db', AgentAssigned a d) ->
      exists rlat rlng best,
        pickup db orderId = Some (rlat, rlng) /\
        c_id best = a /\ c_d best = d /\
        In best (eligible E env fails db rlat rlng) /\
        forall c, In c (eligible E env fails db rlat rlng) ->
          (c_load best <=? c_load c)%float = true /\
          ((c_load best =? c_load c)%float = true ->
           (c_d best <=? c_d c)%float = true)).
Proof.
  split.
  - intros rlat rlng F1 F2 F3 F4 P N.
    destruct (adminAssign_selects E env fails db orderId rlat rlng
                F1 F2 F3 F4 P N) as (best & H & _).
    exists best. exact H.
  - intros db' a d H. apply adminAssign_assigned in H.
    destruct H as (rlat & rlng & best & P & S & Ha & Hd & _).
    exists rlat, rlng, best.
    split; [exact P|]. split; [exact Ha|]. split; [exact Hd|]. split.
    + apply selectBest_In in S. exact S.
    + apply selected_is_lowest; [apply loadOf_not_nan | exact S].
Qed.

Lemma selection_minimizes_load_then_distance_witness :
  exists rlat rlng best,
    pickup scenario 10 = Some (rlat, rlng) /\
    c_id best = 2 /\ c_d best = dist smallAngle 17.3850 78.4867 17.4000 78.5100 /\
    In best (eligible smallAngle defaults reliable scenario rlat rlng) /\
    forall c, In c (eligible smallAngle defaults reliable scenario rlat rlng) ->
      (c_load best <=? c_load c)%float = true /\
      ((c_load best =? c_load c)%float = true ->
       (c_d best <=? c_d c)%float = true).
Proof.
  apply (proj2 (selection_minimizes_load_then_distance smallAngle defaults
                  reliable scenario 10) (updateOrder scenario 2 10)).
  vm_compute. reflexivity.
Defined.

(** The scenario of the specification, for any host: when A and B are
    both within the 10 km, B (no active order) is selected although A (two
    active orders) is nearer. *)
Lemma scenario_selects_B (E : Builtins) :
  let dA := dist E 17.3850 78.4867 17.3860 78.4870 in
  let dB := dist E 17.3850 78.4867 17.4000 78.5100 in
  (dA <=? 10)%float = true -> (dB <=? 10)%float = true ->
  adminAssign E defaults reliable scenario 10
    = (updateOrder scenario 2 10, AgentAssigned 2 dB).
Proof.
  intros dA dB HA HB.
  rewrite (adminAssign_reached E defaults reliable scenario 10
             17.3850%float 78.4867%float) by (reflexivity || discriminate).
  assert (L1 : loadOf (loadWorkload defaults reliable scenario) 1 = 2%float)
    by (vm_compute; reflexivity).
  assert (L2 : loadOf (loadWorkload defaults reliable scenario) 2 = 0%float)
    by (vm_compute; reflexivity).
  unfold selectBest, ranked, candidates, withinRadius.
  cbn [selectAgents agents scenario a_lat a_lng a_status a_id List.map
       ag_id ag_lat ag_lng String.eqb Ascii.eqb Bool.eqb].
  rewrite L1, L2. fold dA dB.
  change (ASSIGN_MAX_KM defaults) with 10%float.
  cbn [List.filter c_d]. rewrite HA, HB.
  cbn [sort fold_right insert].
  assert (C : (0 <? byLoadThenDistance
                      {| c_id := 1; c_d := dA; c_load := 2 |}
                      {| c_id := 2; c_d := dB; c_load := 0 |})%float = true)
    by reflexivity.
  rewrite C. reflexivity.
Qed.

(** * No agent within the radius *)

(** C6: when no candidate agent lies within the maximum radius, either
    handler replies that no active agent is within that radius, the reply
    carrying the radius it used, and the database (so the order, its status
    and its agent reference) is unchanged. *)
Theorem no_agent_within_radius (E : Builtins) :
  (forall env fails db orderId rlat rlng,
      fails SelectOrder = false -> fails SelectRestaurant = false ->
      fails SelectAgents = false ->
      pickup db orderId = Some (rlat, rlng) ->
      selectAgents (agents db) <> [] ->
      (forall ag, In ag (selectAgents (agents db)) ->
         (dist E rlat rlng (ag_lat ag) (ag_lng ag) <=? ASSIGN_MAX_KM env)%float
           = false) ->
      adminAssign E env fails db orderId
        = (db, NoActiveAgentsWithin (ASSIGN_MAX_KM env))) /\
  (forall fails db orderId body agents rlat rlng,
      b_agents body = Some agents -> b_rlat body = Some rlat ->
      b_rlng body = Some rlng ->
      truthy_num rlat = true -> truthy_num rlng = true ->
      (forall ag, In ag agents ->
         (dist_put E rlat rlng (ag_lat ag) (ag_lng ag) <=? radiusOf body)%float
           = false) ->
      putAssign E fails db orderId body
        = (db, NoActiveAgentsWithin (radiusOf body))).
Proof.
  assert (G : forall dist rlat rlng MAX loadOf ags,
             (forall ag, In ag ags ->
                (dist rlat rlng (ag_lat ag) (ag_lng ag) <=? MAX)%float = false) ->
             selectBest dist rlat rlng MAX loadOf ags = None).
  { intros dist rlat rlng MAX loadOf ags H. apply selectBest_None.
    destruct (withinRadius _ _) as [|c cs] eqn:W; [reflexivity|].
    assert (I : In c (withinRadius MAX (candidates dist rlat rlng loadOf ags)))
      by (rewrite W; left; reflexivity).
    apply withinRadius_In in I. destruct I as [I D].
    apply candidates_In in I. destruct I as (ag & I & ->). simpl in D.
    rewrite (H ag I) in D. discriminate. }
  split.
  - intros env fails db orderId rlat rlng F1 F2 F3 P A H.
    rewrite (adminAssign_reached E env fails db orderId rlat rlng) by assumption.
    rewrite G by assumption. reflexivity.
  - intros fails db orderId body ags rlat rlng A X Y Tx Ty H.
    unfold putAssign. rewrite A, X, Y, Tx, Ty. simpl andb. cbv iota.
    rewrite G by assumption. reflexivity.
Qed.

Lemma no_agent_within_radius_witness :
  adminAssign smallAngle defaults reliable farAway 10
    = (farAway, NoActiveAgentsWithin 10) /\
  putAssign smallAngle reliable farAway 10 farBody
    = (farAway, NoActiveAgentsWithin 10).
Proof.
  destruct (no_agent_within_radius smallAngle) as [A P]. split.
  - apply (A defaults reliable farAway 10 17.3850%float 78.4867%float);
      try reflexivity; try discriminate.
    intros ag [<- | []]. vm_compute. reflexivity.
  - apply (P reliable farAway 10 farBody
             [ {| ag_id := 3; ag_lat := 20%float; ag_lng := 80%float |} ]
             17.3850%float 78.4867%float); try reflexivity.
    intros ag [<- | []]. vm_compute. reflexivity.
Defined.

(** * Missing workloads *)

Lemma loadWorkload_failed env fails db :
  fails SelectLoads = true -> loadWorkload env fails db = ∅.
Proof.
  intros F. unfold loadWorkload. rewrite F.
  destruct (ASSIGN_LOAD_STATUSES env); reflexivity.
Qed.

(** Only a failure of a statement other than the workload query makes the
    admin handler reply with status 500. *)
Lemma adminAssign_survives E env fails db orderId :
  (forall s, s <> SelectLoads -> fails s = false) ->
  snd (adminAssign E env fails db orderId) <> FailedToAssign.
Proof.
  intros H. unfold adminAssign.
  rewrite (H SelectOrder), (H SelectRestaurant), (H SelectAgents),
    (H UpdateOrder) by discriminate.
  repeat match goal with
         | |- context [match ?x with _ => _ end] => destruct x
         end; discriminate.
Qed.

(** C10: in the admin handler a candidate whose agent id has no row in the
    workload result is ranked with workload 0; and when the workload query
    fails, the failure is swallowed: the map stays empty, every candidate is
    ranked with workload 0, no failure of the handler results from it, and
    an assignment that is made goes to a candidate of least distance among
    those within the radius. *)
Theorem missing_workload_is_zero
    (E : Builtins) (env : environment) (fails : statement -> bool)
    (db : database) :
  (forall rlat rlng c,
      In c (candidates (dist E) rlat rlng (loadOf (loadWorkload env fails db))
              (selectAgents (agents db))) ->
      loadWorkload env fails db !! c_id c = None -> c_load c = 0%float) /\
  (fails SelectLoads = true ->
   loadWorkload env fails db = ∅ /\
   (forall rlat rlng c,
       In c (candidates (dist E) rlat rlng (loadOf (loadWorkload env fails db))
               (selectAgents (agents db))) ->
       c_load c = 0%float) /\
   (forall orderId,
       (forall s, s <> SelectLoads -> fails s = false) ->
       snd (adminAssign E env fails db orderId) <> FailedToAssign) /\
   (forall orderId db' a d,
       adminAssign E env fails db orderId = (db', AgentAssigned a d) ->
       exists rlat rlng best,
         pickup db orderId = Some (rlat, rlng) /\
         c_id best = a /\ c_d best = d /\
         In best (eligible E env fails db rlat rlng) /\
         forall c, In c (eligible E env fails db rlat rlng) ->
           (c_d best <=? c_d c)%float = true)).
Proof.
  assert (Z0 : forall rlat rlng c,
             In c (candidates (dist E) rlat rlng
                     (loadOf (loadWorkload env fails db))
                     (selectAgents (agents db))) ->
             loadWorkload env fails db !! c_id c = None -> c_load c = 0%float).
  { intros rlat rlng c Hc N. apply candidates_In in Hc.
    destruct Hc as (ag & _ & ->). simpl in *. unfold loadOf. rewrite N.
    reflexivity. }
  split; [exact Z0|]. intros F.
  pose proof (loadWorkload_failed env fails db F) as M.
  assert (Z1 : forall rlat rlng c,
             In c (candidates (dist E) rlat rlng
                     (loadOf (loadWorkload env fails db))
                     (selectAgents (agents db))) -> c_load c = 0%float).
  { intros rlat rlng c Hc. apply (Z0 rlat rlng c Hc).
    rewrite M. apply lookup_empty. }
  split; [exact M|]. split; [exact Z1|]. split.
  - intros orderId H. apply adminAssign_survives, H.
  - intros orderId db' a d H.
    apply adminAssign_assigned in H.
    destruct H as (rlat & rlng & best & P & S & Ha & Hd & _).
    pose proof (selectBest_In _ _ _ _ _ _ _ S) as Hb.
    exists rlat, rlng, best.
    split; [exact P|]. split; [exact Ha|]. split; [exact Hd|].
    split; [exact Hb|].
    intros c Hc.
    destruct (selected_is_lowest _ _ _ _ _ _ _ (loadOf_not_nan env fails db) S c Hc)
      as [_ T].
    apply T.
    unfold eligible in Hb, Hc.
    apply withinRadius_In in Hb, Hc.
    rewrite (Z1 rlat rlng best (proj1 Hb)), (Z1 rlat rlng c (proj1 Hc)).
    reflexivity.
Qed.

Lemma missing_workload_is_zero_witness :
  loadWorkload defaults (fun s => match s with SelectLoads => true | _ => false end)
    scenario = ∅ /\
  adminAssign smallAngle defaults
    (fun s => match s with SelectLoads => true | _ => false end) scenario 10
    = (updateOrder scenario 1 10,
       AgentAssigned 1 (dist smallAngle 17.3850 78.4867 17.3860 78.4870)).
Proof.
  split.
  - apply (missing_workload_is_zero smallAngle defaults _ scenario). reflexivity.
  - vm_compute. reflexivity.
Defined.

(** * Ties *)

(** Whether an agent is selected at all depends on the distances only. *)
Lemma selectBest_None_iff dist rlat rlng MAX loadOf ags :
  selectBest dist rlat rlng MAX loadOf ags = None <->
  forall ag, In ag ags ->
    (dist rlat rlng (ag_lat ag) (ag_lng ag) <=? MAX)%float = false.
Proof.
  rewrite selectBest_None. split.
  - intros W ag I.
    destruct (dist rlat rlng (ag_lat ag) (ag_lng ag) <=? MAX)%float eqn:D;
      [|reflexivity].
    assert (C : In {| c_id := ag_id ag;
                      c_d := dist rlat rlng (ag_lat ag) (ag_lng ag);
                      c_load := loadOf (ag_id ag) |}
                   (withinRadius MAX (candidates dist rlat rlng loadOf ags))).
    { apply withinRadius_In. split; [|exact D].
      apply candidates_In. exists ag. auto. }
    rewrite W in C. destruct C.
  - intros H. destruct (withinRadius _ _) as [|c cs] eqn:W; [reflexivity|].
    assert (I : In c (withinRadius MAX (candidates dist rlat rlng loadOf ags)))
      by (rewrite W; left; reflexivity).
    apply withinRadius_In in I. destruct I as [I D].
    apply candidates_In in I. destruct I as (ag & I & ->). simpl in D.
    rewrite (H ag I) in D. discriminate.
Qed.

(** No candidate listed before the selected one ties with it. *)
Lemma selected_is_first_of_its_rank dist rlat rlng MAX loadOf ags best :
  (forall i, is_nan (loadOf i) = false) ->
  selectBest dist rlat rlng MAX loadOf ags = Some best ->
  exists l1 l2,
    withinRadius MAX (candidates dist rlat rlng loadOf ags)
      = (l1 ++ best :: l2)%list /\
    forall c, In c l1 ->
      ((c_load c =? c_load best) && (c_d c =? c_d best))%float = false.
Proof.
  intros HL S.
  pose proof (withinRadius_numeric dist rlat rlng MAX loadOf ags HL) as N.
  destruct (selectBest_first_lowest _ _ _ _ _ _ _ HL S) as (l1 & l2 & L & H1 & _).
  exists l1, l2. split; [exact L|]. intros c Hc.
  rewrite List.Forall_forall in N, H1.
  apply rank_lt_float.
  - apply N. rewrite L. apply in_or_app. right. left. reflexivity.
  - apply N. rewrite L. apply in_or_app. left. exact Hc.
  - apply H1, Hc.
Qed.

Lemma loadOfBody_not_nan (body : assignBody) :
  (forall m i v, b_loadMap body = Some m -> m !! i = Some v -> is_nan v = false) ->
  forall i, is_nan (loadOfBody body i) = false.
Proof.
  intros H i. unfold loadOfBody.
  destruct (b_loadMap body) as [m|]; [|reflexivity].
  destruct (m !! i) as [v|] eqn:L; [|reflexivity].
  simpl. eapply H; [reflexivity | exact L].
Qed.

(** C2, as the code has it: of the candidates of equal workload and equal
    computed distance the one listed first is selected, whatever the agent
    ids (the row order of the agents query in the admin handler, the order
    of the [agents] array of the body in the PUT handler).  No candidate
    listed before the selected one has both its workload and its distance.
    The workloads of a request body are JSON numbers, never [NaN]. *)
Theorem tie_goes_to_first_listed (E : Builtins) :
  (forall env fails db orderId db' a d,
      adminAssign E env fails db orderId = (db', AgentAssigned a d) ->
      exists rlat rlng best l1 l2,
        pickup db orderId = Some (rlat, rlng) /\
        c_id best = a /\ c_d best = d /\
        eligible E env fails db rlat rlng = (l1 ++ best :: l2)%list /\
        forall c, In c l1 ->
          ((c_load c =? c_load best) && (c_d c =? c_d best))%float = false) /\
  (forall fails db orderId body db' a d,
      (forall m i v, b_loadMap body = Some m -> m !! i = Some v ->
                     is_nan v = false) ->
      putAssign E fails db orderId body = (db', AgentAssigned a d) ->
      exists agents rlat rlng best l1 l2,
        b_agents body = Some agents /\ b_rlat body = Some rlat /\
        b_rlng body = Some rlng /\
        c_id best = a /\ c_d best = d /\
        eligibleOf E body rlat rlng agents = (l1 ++ best :: l2)%list /\
        forall c, In c l1 ->
          ((c_load c =? c_load best) && (c_d c =? c_d best))%float = false).
Proof.
  split.
  - intros env fails db orderId db' a d H.
    apply adminAssign_assigned in H.
    destruct H as (rlat & rlng & best & P & S & Ha & Hd & _).
    destruct (selected_is_first_of_its_rank _ _ _ _ _ _ _
                (loadOf_not_nan env fails db) S) as (l1 & l2 & L & T).
    exists rlat, rlng, best, l1, l2. auto.
  - intros fails db orderId body db' a d HN H.
    apply putAssign_assigned in H.
    destruct H as (ags & rlat & rlng & best & A & X & Y & S & Ha & Hd & _).
    destruct (selected_is_first_of_its_rank _ _ _ _ _ _ _
                (loadOfBody_not_nan body HN) S) as (l1 & l2 & L & T).
    exists ags, rlat, rlng, best, l1, l2. auto 10.
Qed.

Lemma tie_goes_to_first_listed_witness :
  exists agents rlat rlng best l1 l2,
    b_agents tiedBody = Some agents /\ b_rlat tiedBody = Some rlat /\
    b_rlng tiedBody = Some rlng /\
    c_id best = 9 /\ c_d best = 0%float /\
    eligibleOf smallAngle tiedBody rlat rlng agents = (l1 ++ best :: l2)%list /\
    forall c, In c l1 ->
      ((c_load c =? c_load best) && (c_d c =? c_d best))%float = false.
Proof.
  apply (proj2 (tie_goes_to_first_listed smallAngle) reliable scenario 10 tiedBody
           (updateOrder scenario 9 10)).
  - intros m i v H. discriminate H.
  - vm_compute. reflexivity.
Defined.

(** The pickup point itself is at distance zero, for every conforming
    host. *)
Lemma pickup_point_distance (E : Builtins) :
  Conforms E ->
  dist E 17.3850 78.4867 17.3850 78.4867 = 0%float /\
  dist_put E 17.3850 78.4867 17.3850 78.4867 = 0%float.
Proof.
  intros HE. split; [apply dist_self | apply dist_put_self];
    solve [assumption | reflexivity].
Qed.

(** C2 fails: agents 9 and 3 both stand at the pickup point with no
    workload, 9 listed first.  Both candidates have distance 0 and workload
    0, and the handler assigns agent 9, not the lower id 3. *)
Lemma lower_id_counterexample :
  (forall E, Conforms E ->
     eligibleOf E tiedBody 17.3850 78.4867
       [ {| ag_id := 9; ag_lat := 17.3850; ag_lng := 78.4867 |};
         {| ag_id := 3; ag_lat := 17.3850; ag_lng := 78.4867 |} ]
     = [ {| c_id := 9; c_d := 0; c_load := 0 |};
         {| c_id := 3; c_d := 0; c_load := 0 |} ] /\
     putAssign E reliable scenario 10 tiedBody
     = (updateOrder scenario 9 10, AgentAssigned 9 0)) /\
  Conforms smallAngle.
Proof.
  split; [|exact smallAngle_conforms].
  intros E HE. destruct (pickup_point_distance E HE) as [_ D].
  unfold putAssign, eligibleOf, selectBest, ranked, candidates.
  cbn [tiedBody b_agents b_rlat b_rlng List.map ag_id ag_lat ag_lng].
  rewrite D. split; reflexivity.
Qed.

(** * Assigning again *)

Lemma updateOrder_orders db a orderId o :
  In o (orders (updateOrder db a orderId)) -> o_id o = orderId ->
  o_agent_id o = Some a /\ o_status o = "Confirmed".
Proof.
  simpl. rewrite in_map_iff. intros (o0 & <- & _).
  destruct (o_id o0 =? orderId) eqn:Eq; simpl.
  - auto.
  - intros H. rewrite H, Z.eqb_refl in Eq. discriminate.
Qed.

(** The update keeps the ids and the restaurants of the orders. *)
Lemma selectOrder_update db a orderId orderId' :
  List.map o_restaurant_id (selectOrder (updateOrder db a orderId) orderId')
  = List.map o_restaurant_id (selectOrder db orderId').
Proof.
  unfold selectOrder. simpl. induction (orders db) as [|o l IH]; [reflexivity|].
  simpl. destruct (o_id o =? orderId) eqn:Eq; simpl;
    destruct (o_id o =? orderId'); simpl; rewrite IH; reflexivity.
Qed.

Lemma pickup_update db a orderId orderId' :
  pickup (updateOrder db a orderId) orderId' = pickup db orderId'.
Proof.
  unfold pickup. pose proof (selectOrder_update db a orderId orderId') as H.
  destruct (selectOrder (updateOrder db a orderId) orderId') as [|o1 l1],
    (selectOrder db orderId') as [|o2 l2]; try discriminate; [reflexivity|].
  simpl in H. injection H as -> _. reflexivity.
Qed.

(** C1, as the code has it: neither handler reads the status of the
    order, and there is no AlreadyAssigned reply.  After a successful
    assignment the order is Confirmed with the selected agent; calling the
    operation again on it succeeds again, re-running the selection and
    writing its result and the status Confirmed to the order once more.  Two
    calls in succession for a Pending order give two successful replies.
    For an order of any status the admin handler assigns an agent as soon as
    the pickup point is known and a candidate is within the radius. *)
Theorem assign_again_reassigns (E : Builtins) :
  (forall env db orderId db1 a1 d1,
      adminAssign E env reliable db orderId = (db1, AgentAssigned a1 d1) ->
      (forall o, In o (orders db1) -> o_id o = orderId ->
         o_agent_id o = Some a1 /\ o_status o = "Confirmed") /\
      exists a2 d2,
        adminAssign E env reliable db1 orderId
          = (updateOrder db1 a2 orderId, AgentAssigned a2 d2)) /\
  (forall db orderId body db1 a1 d1,
      putAssign E reliable db orderId body = (db1, AgentAssigned a1 d1) ->
      (forall o, In o (orders db1) -> o_id o = orderId ->
         o_agent_id o = Some a1 /\ o_status o = "Confirmed") /\
      putAssign E reliable db1 orderId body
        = (updateOrder db1 a1 orderId, AgentAssigned a1 d1)) /\
  (forall env db orderId rlat rlng,
      pickup db orderId = Some (rlat, rlng) ->
      eligible E env reliable db rlat rlng <> [] ->
      exists a d,
        adminAssign E env reliable db orderId
          = (updateOrder db a orderId, AgentAssigned a d)).
Proof.
  split; [|split].
  3: { intros env db orderId rlat rlng P N.
       destruct (adminAssign_selects E env reliable db orderId rlat rlng
                   eq_refl eq_refl eq_refl eq_refl P N) as (best & H & _).
       eauto. }
  - intros env db orderId db1 a1 d1 H.
    apply adminAssign_assigned in H.
    destruct H as (rlat & rlng & best & P & S & Ha & Hd & ->).
    split; [intros o; apply updateOrder_orders|].
    assert (A : selectAgents (agents (updateOrder db a1 orderId)) <> []).
    { simpl. intros N. rewrite N in S. discriminate. }
    rewrite (adminAssign_reached E env reliable _ orderId rlat rlng);
      try reflexivity; [|rewrite pickup_update; exact P | exact A].
    destruct (selectBest _ _ _ _ _ (selectAgents (agents (updateOrder db a1 orderId))))
      as [best2|] eqn:S2.
    + exists (c_id best2), (c_d best2). reflexivity.
    + exfalso. simpl in S2.
      rewrite selectBest_None_iff in S2.
      apply (selectBest_None_iff (dist E) rlat rlng (ASSIGN_MAX_KM env)
               (loadOf (loadWorkload env reliable db))) in S2.
      congruence.
  - intros db orderId body db1 a1 d1 H.
    pose proof H as H0. apply putAssign_assigned in H.
    destruct H as (ags & rlat & rlng & best & A & X & Y & S & Ha & Hd & ->).
    split; [intros o; apply updateOrder_orders|].
    unfold putAssign in *. rewrite A, X, Y in *.
    destruct (truthy_num rlat && truthy_num rlng); [|discriminate].
    rewrite S in *. simpl. subst. reflexivity.
Qed.

Lemma assign_again_reassigns_witness :
  exists db1 a1 d1 a2 d2,
    adminAssign smallAngle defaults reliable scenario 10
      = (db1, AgentAssigned a1 d1) /\
    adminAssign smallAngle defaults reliable db1 10
      = (updateOrder db1 a2 10, AgentAssigned a2 d2).
Proof.
  destruct (proj1 (assign_again_reassigns smallAngle) defaults scenario 10
              (updateOrder scenario 2 10) 2
              (dist smallAngle 17.3850 78.4867 17.4000 78.5100)
              ltac:(vm_compute; reflexivity)) as [_ (a2 & d2 & H)].
  exists (updateOrder scenario 2 10), 2,
    (dist smallAngle 17.3850 78.4867 17.4000 78.5100), a2, d2.
  split; [vm_compute; reflexivity | exact H].
Defined.

(** C1 fails: order 10 is Confirmed with agent 7, and agent 9 stands at
    the restaurant.  The admin handler does not reject the call: it assigns
    agent 9 and rewrites the order. *)
Lemma already_assigned_counterexample :
  In {| o_id := 10; o_restaurant_id := Some 5; o_agent_id := Some 7;
        o_status := "Confirmed" |} (orders confirmedOrder) /\
  (forall E, Conforms E ->
     adminAssign E defaults reliable confirmedOrder 10
     = (updateOrder confirmedOrder 9 10, AgentAssigned 9 0)) /\
  orders (updateOrder confirmedOrder 9 10)
    = [ {| o_id := 10; o_restaurant_id := Some 5; o_agent_id := Some 9;
           o_status := "Confirmed" |} ] /\
  updateOrder confirmedOrder 9 10 <> confirmedOrder /\
  Conforms smallAngle.
Proof.
  split; [left; reflexivity|]. split; [|split; [reflexivity|split]].
  - intros E HE. destruct (pickup_point_distance E HE) as [D _].
    rewrite (adminAssign_reached E defaults reliable confirmedOrder 10
               17.3850%float 78.4867%float) by (reflexivity || discriminate).
    unfold selectBest, ranked, candidates.
    cbn [selectAgents agents confirmedOrder a_lat a_lng a_status a_id List.map
         ag_id ag_lat ag_lng String.eqb Ascii.eqb Bool.eqb].
    rewrite D. reflexivity.
  - intros H. apply (f_equal orders) in H. discriminate H.
  - exact smallAngle_conforms.
Qed.

(** * Symmetry of the distance *)

(** C7: for in-range coordinates [a] and [b], on a host whose built-ins
    conform, the haversine function of either handler returns the same
    number for [(a, b)] and for [(b, a)], and zero for [(a, a)]; the radius
    of the sphere is 6371 km. *)
Theorem haversine_symmetric_and_zero
    (E : Builtins) (aLat aLng bLat bLng : float) :
  Conforms E ->
  inRange aLat aLng = true -> inRange bLat bLng = true ->
  dist E aLat aLng bLat bLng = dist E bLat bLng aLat aLng /\
  dist E aLat aLng aLat aLng = 0%float /\
  dist_put E aLat aLng bLat bLng = dist_put E bLat bLng aLat aLng /\
  dist_put E aLat aLng aLat aLng = 0%float /\
  R = 6371%float.
Proof.
  intros HE Ha Hb. repeat split.
  - apply dist_sym, HE.
  - apply dist_self; assumption.
  - apply dist_put_sym, HE.
  - apply dist_put_self; assumption.
Qed.

Lemma haversine_symmetric_and_zero_witness :
  dist smallAngle 17.3850 78.4867 17.4000 78.5100
    = dist smallAngle 17.4000 78.5100 17.3850 78.4867 /\
  dist smallAngle 17.3850 78.4867 17.3850 78.4867 = 0%float /\
  dist_put smallAngle 17.3850 78.4867 17.4000 78.5100
    = dist_put smallAngle 17.4000 78.5100 17.3850 78.4867 /\
  dist_put smallAngle 17.3850 78.4867 17.3850 78.4867 = 0%float /\
  R = 6371%float.
Proof.
  apply (haversine_symmetric_and_zero smallAngle
           17.3850 78.4867 17.4000 78.5100 smallAngle_conforms);
    reflexivity.
Defined.

(** * Location reports *)



Section LocationFacts.
Context (E : Builtins).


End LocationFacts.









(** * Zero coordinates *)


(** * The assignment and the rest of the database *)

Lemma updateOrder_ids db a orderId :
  List.map o_id (orders (updateOrder db a orderId)) = List.map o_id (orders db).
Proof.
  simpl. rewrite List.map_map. apply List.map_ext. intros o.
  destruct (o_id o =? orderId); reflexivity.
Qed.

Lemma updateOrder_other db a orderId o :
  In o (orders db) -> o_id o <> orderId ->
  In o (orders (updateOrder db a orderId)).
Proof.
  intros I N. simpl. apply in_map_iff. exists o. split; [|exact I].
  destruct (Z.eqb_spec (o_id o) orderId); [contradiction|reflexivity].
Qed.

(** An update for an id that no order has changes nothing. *)
Lemma updateOrder_unknown db a orderId :
  selectOrder db orderId = [] -> updateOrder db a orderId = db.
Proof.
  intros H. destruct db as [os rs ags]. unfold updateOrder, selectOrder in *.
  simpl in *. f_equal.
  induction os as [|o os IH]; [reflexivity|]. simpl in *.
  destruct (o_id o =? orderId); [discriminate|]. rewrite IH by exact H.
  reflexivity.
Qed.

(** The database after a request to the admin handler. *)
Lemma adminAssign_database E env fails db orderId :
  fst (adminAssign E env fails db orderId) =
    match snd (adminAssign E env fails db orderId) with
    | AgentAssigned a _ => updateOrder db a orderId
    | _ => db
    end.
Proof.
  destruct (adminAssign E env fails db orderId) as [db' r] eqn:H.
  unfold adminAssign in H.
  repeat handler_case H; injection H as <- <-; reflexivity.
Qed.

Lemma putAssign_database E fails db orderId body :
  fst (putAssign E fails db orderId body) =
    match snd (putAssign E fails db orderId body) with
    | AgentAssigned a _ => updateOrder db a orderId
    | _ => db
    end.
Proof.
  destruct (putAssign E fails db orderId body) as [db' r] eqn:H.
  unfold putAssign in H.
  repeat handler_case H; injection H as <- <-; reflexivity.
Qed.

(** X1: a request to either assignment handler changes no restaurant, no
    agent and no order other than the one named in the request, whose id
    it keeps; and unless the reply is Agent assigned, it changes nothing at
    all. *)
Theorem assignment_changes_one_order
    (E : Builtins) (env : environment) (fails : statement -> bool)
    (db : database) (orderId : Z) (body : assignBody)
    (db' : database) (r : response) :
  adminAssign E env fails db orderId = (db', r) \/
  putAssign E fails db orderId body = (db', r) ->
  restaurants db' = restaurants db /\ agents db' = agents db /\
  List.map o_id (orders db') = List.map o_id (orders db) /\
  (forall o, In o (orders db) -> o_id o <> orderId -> In o (orders db')) /\
  ((forall a d, r <> AgentAssigned a d) -> db' = db).
Proof.
  intros H.
  assert (D : db' = match r with
                    | AgentAssigned a _ => updateOrder db a orderId
                    | _ => db
                    end).
  { destruct H as [H|H].
    - pose proof (adminAssign_database E env fails db orderId) as F.
      rewrite H in F. exact F.
    - pose proof (putAssign_database E fails db orderId body) as F.
      rewrite H in F. exact F. }
  destruct r; subst db';
    try (split; [reflexivity|split; [reflexivity|split; [reflexivity|
         split; [intros o I _; exact I|reflexivity]]]]).
  split; [reflexivity|]. split; [reflexivity|].
  split; [apply updateOrder_ids|].
  split; [intros o; apply updateOrder_other|].
  intros N. exfalso. exact (N _ _ eq_refl).
Qed.

Lemma assignment_changes_one_order_witness :
  agents (fst (adminAssign smallAngle defaults reliable scenario 10))
  = agents scenario.
Proof.
  apply (assignment_changes_one_order smallAngle defaults reliable scenario 10
           tiedBody _ (snd (adminAssign smallAngle defaults reliable scenario 10))).
  left. apply surjective_pairing.
Defined.

(** X2: for an order id that no order has, the admin handler answers
    Order not found, while the PUT handler, which never reads the order,
    still answers Agent assigned as soon as a candidate of its request is
    within the radius; its UPDATE matches no row, so the database stays as
    it was. *)
Theorem unknown_order_is_assigned_by_put
    (E : Builtins) (env : environment) (fails : statement -> bool)
    (db : database) (orderId : Z) (body : assignBody)
    (ags : list agentRow) (rlat rlng : float) :
  selectOrder db orderId = [] ->
  fails SelectOrder = false -> fails UpdateOrder = false ->
  b_agents body = Some ags -> b_rlat body = Some rlat ->
  b_rlng body = Some rlng ->
  truthy_num rlat = true -> truthy_num rlng = true ->
  eligibleOf E body rlat rlng ags <> [] ->
  adminAssign E env fails db orderId = (db, OrderNotFound) /\
  exists best,
    In best (eligibleOf E body rlat rlng ags) /\
    putAssign E fails db orderId body
      = (db, AgentAssigned (c_id best) (c_d best)).
Proof.
  intros S F1 F2 A X Y TX TY N. split.
  - unfold adminAssign. rewrite F1, S. reflexivity.
  - unfold putAssign. rewrite A, X, Y, TX, TY. simpl.
    destruct (selectBest (dist_put E) rlat rlng (radiusOf body)
                (loadOfBody body) ags) as [best|] eqn:B.
    + exists best. split; [apply selectBest_In in B; exact B|].
      rewrite F2, updateOrder_unknown by exact S. reflexivity.
    + apply selectBest_None in B. contradiction.
Qed.

Lemma unknown_order_is_assigned_by_put_witness :
  adminAssign smallAngle defaults reliable scenario 99 = (scenario, OrderNotFound) /\
  exists best,
    In best (eligibleOf smallAngle tiedBody 17.3850%float 78.4867%float
               [ {| ag_id := 9; ag_lat := 17.3850%float; ag_lng := 78.4867%float |};
                 {| ag_id := 3; ag_lat := 17.3850%float; ag_lng := 78.4867%float |} ]) /\
    putAssign smallAngle reliable scenario 99 tiedBody
      = (scenario, AgentAssigned (c_id best) (c_d best)).
Proof.
  apply (unknown_order_is_assigned_by_put smallAngle defaults reliable scenario 99
           tiedBody); try reflexivity.
  vm_compute. discriminate.
Defined.

(** * The workload *)

Lemma setLoads_lookup (g : Z -> nat) (keys : list Z) (i : Z) :
  setLoads (List.map (fun j => (j, g j)) keys) !! i
  = if in_dec Z.eq_dec i keys then Some (Number_of_count (g i)) else None.
Proof.
  unfold setLoads.
  assert (G : forall (m : gmap Z float),
             fold_left (fun m r => <[ fst r := Number_of_count (snd r) ]> m)
               (List.map (fun j => (j, g j)) keys) m !! i
             = if in_dec Z.eq_dec i keys then Some (Number_of_count (g i))
               else m !! i).
  { induction keys as [|k keys IH]; intros m; [reflexivity|].
    cbn [List.map fold_left fst snd]. rewrite IH.
    destruct (in_dec Z.eq_dec i keys) as [I|I];
      destruct (in_dec Z.eq_dec i (k :: keys)) as [J|J]; try reflexivity.
    - exfalso. apply J. right. exact I.
    - destruct J as [->|J]; [|contradiction]. apply lookup_insert_eq.
    - rewrite lookup_insert_ne; [reflexivity|].
      intros ->. apply J. left. reflexivity. }
  rewrite G. destruct (in_dec Z.eq_dec i keys); [reflexivity|apply lookup_empty].
Qed.

Lemma count_occ_counted (statuses : list string) (os : list orderRow) (i : Z) :
  count_occ Z.eq_dec (omap (countsFor statuses) os) i
  = length (List.filter (countedFor statuses i) os).
Proof.
  induction os as [|o os IH]; [reflexivity|].
  cbn [omap list_omap List.filter]. unfold countedFor at 1.
  destruct (countsFor statuses o) as [j|]; [|exact IH].
  cbn [count_occ].
  destruct (Z.eq_dec j i) as [->|N].
  - rewrite Z.eqb_refl. cbn [length]. f_equal. exact IH.
  - destruct (Z.eqb_spec j i); [contradiction|]. exact IH.
Qed.

(** X3: when the workload query succeeds (and at least one status is
    configured), the workload the admin handler ranks an agent with is the
    number of orders that are in one of the configured statuses and
    assigned to that agent; no such order gives 0. *)
Theorem workload_is_number_of_counted_orders
    (env : environment) (fails : statement -> bool) (db : database) (i : Z) :
  fails SelectLoads = false -> ASSIGN_LOAD_STATUSES env <> [] ->
  loadOf (loadWorkload env fails db) i
  = Number_of_count (activeOrders (ASSIGN_LOAD_STATUSES env) db i).
Proof.
  intros F N. unfold loadOf, loadWorkload. rewrite F.
  destruct (ASSIGN_LOAD_STATUSES env) as [|s l] eqn:S; [contradiction|].
  unfold selectLoads, activeOrders.
  rewrite (setLoads_lookup
             (fun j => count_occ Z.eq_dec (omap (countsFor (s :: l)) (orders db)) j)).
  rewrite <- count_occ_counted.
  destruct (in_dec Z.eq_dec i
              (nodup Z.eq_dec (omap (countsFor (s :: l)) (orders db))))
    as [I|I]; [reflexivity|].
  rewrite nodup_In in I. apply (count_occ_not_In Z.eq_dec) in I.
  rewrite I. reflexivity.
Qed.

Lemma workload_is_number_of_counted_orders_witness :
  loadOf (loadWorkload defaults reliable scenario) 1 = 2%float /\
  loadOf (loadWorkload defaults reliable scenario) 2 = 0%float.
Proof.
  split.
  - rewrite (workload_is_number_of_counted_orders defaults reliable scenario 1);
      [reflexivity | reflexivity | discriminate].
  - rewrite (workload_is_number_of_counted_orders defaults reliable scenario 2);
      [reflexivity | reflexivity | discriminate].
Defined.

(** X4: after the admin handler has assigned an order to an agent, the
    order is one of those the next workload query counts for that agent,
    provided Confirmed is among the configured statuses (as it is by
    default): the agent's workload is then at least one. *)
Theorem assigned_order_counts_as_workload
    (E : Builtins) (env : environment) (fails : statement -> bool)
    (db db' : database) (orderId a : Z) (d : float) :
  adminAssign E env fails db orderId = (db', AgentAssigned a d) ->
  In "Confirmed" (ASSIGN_LOAD_STATUSES env) ->
  exists o,
    In o (orders db') /\ o_id o = orderId /\
    countedFor (ASSIGN_LOAD_STATUSES env) a o = true /\
    (1 <= activeOrders (ASSIGN_LOAD_STATUSES env) db' a)%nat.
Proof.
  intros H C. apply adminAssign_assigned in H.
  destruct H as (rlat & rlng & best & P & _ & _ & _ & ->).
  unfold pickup in P.
  destruct (selectOrder db orderId) as [|o0 rest] eqn:S; [discriminate|].
  assert (I0 : In o0 (orders db) /\ o_id o0 = orderId).
  { assert (I : In o0 (selectOrder db orderId)) by (rewrite S; left; reflexivity).
    unfold selectOrder in I. apply filter_In in I. destruct I as [I Q].
    apply Z.eqb_eq in Q. auto. }
  destruct I0 as [I0 Q0].
  set (o := {| o_id := o_id o0; o_restaurant_id := o_restaurant_id o0;
               o_agent_id := Some a; o_status := "Confirmed" |}).
  assert (I : In o (orders (updateOrder db a orderId))).
  { simpl. apply in_map_iff. exists o0. split; [|exact I0].
    rewrite Q0, Z.eqb_refl. subst o. rewrite Q0. reflexivity. }
  assert (K : countedFor (ASSIGN_LOAD_STATUSES env) a o = true).
  { unfold countedFor, countsFor. subst o. cbn [o_status o_agent_id].
    assert (X : existsb (String.eqb "Confirmed") (ASSIGN_LOAD_STATUSES env) = true).
    { apply existsb_exists. exists "Confirmed". split; [exact C|].
      apply String.eqb_refl. }
    rewrite X. apply Z.eqb_refl. }
  exists o. split; [exact I|]. split; [exact Q0|]. split; [exact K|].
  unfold activeOrders.
  assert (F : In o (List.filter (countedFor (ASSIGN_LOAD_STATUSES env) a)
                      (orders (updateOrder db a orderId))))
    by (apply filter_In; auto).
  destruct (List.filter _ _); [destruct F|simpl; lia].
Qed.

Lemma assigned_order_counts_as_workload_witness :
  exists o,
    In o (orders (fst (adminAssign smallAngle defaults reliable scenario 10))) /\
    o_id o = 10 /\
    countedFor (ASSIGN_LOAD_STATUSES defaults) 2 o = true /\
    (1 <= activeOrders (ASSIGN_LOAD_STATUSES defaults)
            (fst (adminAssign smallAngle defaults reliable scenario 10)) 2)%nat.
Proof.
  apply (assigned_order_counts_as_workload smallAngle defaults reliable scenario
           _ 10 2 (c_d {| c_id := 2;
                          c_d := dist smallAngle 17.3850%float 78.4867%float
                                   17.4000%float 78.5100%float;
                          c_load := 0%float |})).
  - vm_compute. reflexivity.
  - vm_compute. auto.
Defined.

(** * Approval of agents and the assignment *)

Lemma selectAgents_In (rows : list agentRecord) (ag : agentRow) :
  In ag (selectAgents rows) <->
  exists a, In a rows /\ a_status a = "Active" /\ a_id a = ag_id ag /\
            a_lat a = Some (ag_lat ag) /\ a_lng a = Some (ag_lng ag).
Proof.
  induction rows as [|a rows IH]; simpl.
  - split; [intros []|intros (a & [] & _)].
  - destruct (a_lat a) as [x|] eqn:X, (a_lng a) as [y|] eqn:Y;
      try (rewrite IH; split;
           [intros (a' & I & H); exists a'; split; [right; exact I|exact H]
           |intros (a' & [<-|I] & S & D & L & G);
            [congruence|exists a'; auto]]).
    destruct (String.eqb_spec (a_status a) "Active") as [S|S].
    + simpl. rewrite IH. split.
      * intros [<-|(a' & I & H)].
        -- exists a. simpl. auto.
        -- exists a'. split; [right; exact I|exact H].
      * intros (a' & [<-|I] & S' & D & L & G).
        -- left. destruct ag as [i u v]. simpl in *. congruence.
        -- right. exists a'. auto.
    + rewrite IH. split.
      * intros (a' & I & H). exists a'. split; [right; exact I|exact H].
      * intros (a' & [<-|I] & S' & D & L & G); [contradiction|].
        exists a'. auto.
Qed.

Lemma hasId_integerOf (id : float) (n k : Z) :
  integerOf id = Some n -> hasId id k = (n =? k).
Proof. intros H. unfold hasId. rewrite H. reflexivity. Qed.

(** X5: once an agent has been rejected, the admin handler does not
    assign an order to that agent: the agents query reads Active agents
    only. *)
Theorem rejected_agent_is_never_assigned
    (E : Builtins) (env : environment) (fails : statement -> bool)
    (failed : bool) (db db' : database) (id : float)
    (ev : list statusChanged) (n orderId : Z) :
  rejectAgent failed db id = (db', ev, AgentRejected id) ->
  integerOf id = Some n ->
  forall db'' d, adminAssign E env fails db' orderId <> (db'', AgentAssigned n d).
Proof.
  intros H Hn db'' d A. unfold rejectAgent in H.
  destruct (truthy_num id); [|discriminate]. destruct failed; [discriminate|].
  simpl in H. injection H as <- _.
  apply adminAssign_assigned in A.
  destruct A as (rlat & rlng & best & _ & S & C & _).
  apply selectBest_In, withinRadius_In in S. destruct S as [S _].
  apply candidates_In in S. destruct S as (ag & I & ->). simpl in C.
  apply selectAgents_In in I. destruct I as (a & I & St & Id & _).
  simpl in I. apply in_map_iff in I. destruct I as (a0 & Ea & _).
  rewrite (hasId_integerOf id n) in Ea by exact Hn.
  destruct (Z.eqb_spec n (a_id a0)) as [Q|Q]; subst a.
  - simpl in St. discriminate.
  - congruence.
Qed.

Lemma rejected_agent_is_never_assigned_witness :
  integerOf 2%float = Some 2 /\
  forall db'' d,
    adminAssign smallAngle defaults reliable
      (fst (fst (rejectAgent false scenario 2%float))) 10
    <> (db'', AgentAssigned 2 d).
Proof.
  split; [reflexivity|].
  apply (rejected_agent_is_never_assigned smallAngle defaults reliable false
           scenario _ 2%float
           [ {| sc_agent_id := 2%float; sc_status := "Rejected" |} ] 2 10);
    reflexivity.
Defined.

(** X6: approval makes an agent a candidate of the admin handler exactly
    when the agents table holds a latitude and a longitude for the agent;
    an approved agent without a stored location is not among the
    candidates. *)
Theorem approved_agent_needs_a_location
    (failed : bool) (db db' : database) (id : float)
    (ev : list statusChanged) (n : Z) :
  approveAgent failed db id = (db', ev, AgentApproved id) ->
  integerOf id = Some n ->
  (In n (List.map ag_id (selectAgents (agents db'))) <->
   exists a, In a (agents db) /\ a_id a = n /\
             a_lat a <> None /\ a_lng a <> None).
Proof.
  intros H Hn. unfold approveAgent in H.
  destruct (truthy_num id); [|discriminate]. destruct failed; [discriminate|].
  simpl in H. injection H as <- _. rewrite in_map_iff. split.
  - intros (ag & Id & I). apply selectAgents_In in I.
    destruct I as (a & I & St & Ia & L & G).
    simpl in I. apply in_map_iff in I. destruct I as (a0 & Ea & I0).
    exists a0. split; [exact I0|].
    destruct (hasId id (a_id a0)); subst a; simpl in *;
      (split; [congruence|split; congruence]).
  - intros (a & I & Id & L & G).
    destruct (a_lat a) as [x|] eqn:X; [|contradiction].
    destruct (a_lng a) as [y|] eqn:Y; [|contradiction].
    exists {| ag_id := n; ag_lat := x; ag_lng := y |}. split; [reflexivity|].
    apply selectAgents_In.
    exists {| a_id := a_id a; a_lat := a_lat a; a_lng := a_lng a;
              a_status := "Active" |}.
    simpl. split; [|auto].
    apply in_map_iff. exists a. split; [|exact I].
    rewrite (hasId_integerOf id n) by exact Hn.
    rewrite <- Id, Z.eqb_refl. reflexivity.
Qed.

Lemma approved_agent_needs_a_location_witness :
  In 2 (List.map ag_id
          (selectAgents
             (agents (fst (fst (approveAgent false
                                  (fst (fst (rejectAgent false scenario 2%float)))
                                  2%float)))))) <->
  exists a, In a (agents (fst (fst (rejectAgent false scenario 2%float)))) /\
            a_id a = 2 /\ a_lat a <> None /\ a_lng a <> None.
Proof.
  apply (approved_agent_needs_a_location false _ _ 2%float
           [ {| sc_agent_id := 2%float; sc_status := "Active" |} ] 2);
    reflexivity.
Defined.

(** * Reviews *)

Lemma SF_five : SF 5 = S754_finite false 5629499534213120 (-50).
Proof. reflexivity. Qed.

(** A rating the handler lets through is a number from 1 to 5. *)
Lemma rating_shape (x : float) :
  is_finite x = true -> (x <? 1)%float = false -> (5 <? x)%float = false ->
  exists m e,
    SF x = S754_finite false m e /\ -52 <= e <= -50 /\
    4503599627370496 <= Zpos m < 9007199254740992 /\
    (e = -50 -> Zpos m <= 5629499534213120).
Proof.
  intros F L U.
  assert (N : is_nan x = false).
  { apply is_nan_SF. rewrite is_finite_SF in F. intros E. rewrite E in F.
    discriminate F. }
  rewrite ltb_key in L, U by (assumption || reflexivity).
  apply Z.ltb_ge in L, U. unfold key in L, U. rewrite SF_one in L.
  rewrite SF_five in U. rewrite is_finite_SF in F.
  pose proof (Prim2SF_valid x) as V.
  destruct (SF x) as [s|s| |s m e]; try discriminate F.
  - exfalso. unfold SFkey, cond_Zopp in L.
    change (2 ^ 53) with 9007199254740992 in L. lia.
  - unfold valid_binary in V. pose proof (bounded_inv m e V) as (He & Hd & Hc).
    pose proof (bounded_mantissa m e V) as (Hm & _).
    pose proof (digits2_bounds m) as [Hl _].
    unfold SFkey, cond_Zopp in L, U.
    change (2 ^ 53) with 9007199254740992 in *.
    destruct s; [exfalso; lia|].
    assert (E1 : -52 <= e) by lia.
    assert (E2 : e <= -50) by lia.
    rewrite Hc in Hl by lia. change (2 ^ (53 - 1)) with 4503599627370496 in Hl.
    exists m, e. split; [reflexivity|]. split; [lia|]. split; [lia|].
    intros ->. lia.
Qed.

Lemma Math_round_rating (x : float) :
  is_finite x = true -> (x <? 1)%float = false -> (5 <? x)%float = false ->
  In (Math_round x) [1; 2; 3; 4; 5]%float.
Proof.
  intros F L U.
  destruct (rating_shape x F L U) as (m & e & E & He & Hm & H5).
  unfold Math_round. rewrite E.
  destruct (Z.leb_spec 0 e) as [?|_]; [lia|].
  assert (C : e = -52 \/ e = -51 \/ e = -50) by lia.
  destruct C as [-> | [-> | ->]].
  - change (2 ^ (- (-52))) with 4503599627370496.
    assert (Q : (2 * Z.pos m + 4503599627370496) / (2 * 4503599627370496) = 1 \/
                (2 * Z.pos m + 4503599627370496) / (2 * 4503599627370496) = 2).
    { set (q := (2 * Z.pos m + 4503599627370496) / (2 * 4503599627370496)).
      assert (1 <= q) by (apply Z.div_le_lower_bound; lia).
      assert (q < 3) by (apply Z.div_lt_upper_bound; lia).
      lia. }
    destruct Q as [-> | ->]; simpl; auto.
  - change (2 ^ (- (-51))) with 2251799813685248.
    assert (Q : (2 * Z.pos m + 2251799813685248) / (2 * 2251799813685248) = 2 \/
                (2 * Z.pos m + 2251799813685248) / (2 * 2251799813685248) = 3 \/
                (2 * Z.pos m + 2251799813685248) / (2 * 2251799813685248) = 4).
    { set (q := (2 * Z.pos m + 2251799813685248) / (2 * 2251799813685248)).
      assert (2 <= q) by (apply Z.div_le_lower_bound; lia).
      assert (q < 5) by (apply Z.div_lt_upper_bound; lia).
      lia. }
    destruct Q as [-> | [-> | ->]]; simpl; auto.
  - change (2 ^ (- (-50))) with 1125899906842624.
    specialize (H5 eq_refl).
    assert (Q : (2 * Z.pos m + 1125899906842624) / (2 * 1125899906842624) = 4 \/
                (2 * Z.pos m + 1125899906842624) / (2 * 1125899906842624) = 5).
    { set (q := (2 * Z.pos m + 1125899906842624) / (2 * 1125899906842624)).
      assert (4 <= q) by (apply Z.div_le_lower_bound; lia).
      assert (q < 6) by (apply Z.div_lt_upper_bound; lia).
      lia. }
    destruct Q as [-> | ->]; simpl; auto 6.
Qed.

Lemma firstn_1_nil {A : Type} (l : list A) : firstn 1 l = [] -> l = [].
Proof. destruct l; [reflexivity|discriminate]. Qed.

Lemma firstn_1_In {A : Type} (x : A) (l r : list A) :
  firstn 1 l = x :: r -> In x l.
Proof. destruct l; [discriminate|]. simpl. intros [= -> _]. left. reflexivity. Qed.

(** Either a request leaves the tables as they were, or it passed every
    check and one row was added for the order it found. *)
Lemma postReview_cases fails db orderId rating comment :
  (fst (postReview fails db orderId rating comment) = db /\
   snd (postReview fails db orderId rating comment) <> ThanksForYourReview) \/
  (exists ord,
     is_finite rating = true /\ (rating <? 1)%float = false /\
     (5 <? rating)%float = false /\
     In ord (rt_orders db) /\ hasId orderId (ro_id ord) = true /\
     (forall r, In r (restaurant_reviews db) -> hasId orderId (rv_order_id r) = false) /\
     postReview fails db orderId rating comment
       = ({| rt_orders := rt_orders db;
             restaurant_reviews :=
               (restaurant_reviews db ++
                [ {| rv_order_id := ro_id ord;
                     rv_user_id := user_id_or_null (ro_user_id ord);
                     rv_restaurant_id := ro_restaurant_id ord;
                     rv_rating := Math_round rating;
                     rv_comment := comment_or_null comment |} ])%list |},
          ThanksForYourReview)).
Proof.
  unfold postReview.
  destruct (truthy_num orderId); simpl; [|left; split; [reflexivity|discriminate]].
  destruct (is_finite rating); simpl; [|left; split; [reflexivity|discriminate]].
  destruct (rating <? 1)%float; simpl; [left; split; [reflexivity|discriminate]|].
  destruct (5 <? rating)%float; simpl; [left; split; [reflexivity|discriminate]|].
  destruct (fails SelectReviewedOrder); [left; split; [reflexivity|discriminate]|].
  destruct (selectReviewedOrder db orderId) as [|ord rest] eqn:S;
    [left; split; [reflexivity|discriminate]|].
  destruct (fails SelectReview); [left; split; [reflexivity|discriminate]|].
  destruct (selectReview db orderId) as [|r0 rest0] eqn:R;
    [|left; split; [reflexivity|discriminate]].
  destruct (fails InsertReview); [left; split; [reflexivity|discriminate]|].
  right. exists ord.
  apply firstn_1_In, filter_In in S. destruct S as [I H].
  apply firstn_1_nil in R.
  repeat (split; [first [reflexivity | assumption]|]).
  split; [|reflexivity].
  intros r Ir. destruct (hasId orderId (rv_order_id r)) eqn:Q; [|reflexivity].
  assert (X : In r (List.filter (fun r => hasId orderId (rv_order_id r))
                      (restaurant_reviews db))) by (apply filter_In; auto).
  rewrite R in X. destruct X.
Qed.

Lemma hasId_same (id : float) (n k : Z) :
  hasId id n = true -> hasId id k = true -> n = k.
Proof.
  unfold hasId. destruct (integerOf id); [|discriminate].
  intros H1 H2. apply Z.eqb_eq in H1, H2. congruence.
Qed.

(** The orders of the tables are never written. *)
Lemma postReviews_orders (l : list reviewRequest) (db : reviewTables) :
  rt_orders (postReviews db l) = rt_orders db.
Proof.
  revert db. induction l as [|q l IH]; intros db; [reflexivity|].
  unfold postReviews in *. simpl. rewrite IH.
  destruct (postReview_cases (rq_fails q) db (rq_orderId q) (rq_rating q)
              (rq_comment q)) as [[-> _]|(ord & _ & _ & _ & _ & _ & _ & ->)];
    reflexivity.
Qed.

(** X7: every row the review endpoint adds carries one of the ratings 1,
    2, 3, 4, 5 (the rating of the request rounded to the nearest integer),
    and the id and the restaurant of an order of the orders table: after
    any sequence of requests to an empty reviews table, every review is of
    that kind. *)
Theorem stored_reviews_are_well_formed
    (os : list reviewedOrder) (l : list reviewRequest) (row : reviewRow) :
  In row (restaurant_reviews
            (postReviews {| rt_orders := os; restaurant_reviews := [] |} l)) ->
  In (rv_rating row) [1; 2; 3; 4; 5]%float /\
  exists ord, In ord os /\ ro_id ord = rv_order_id row /\
              ro_restaurant_id ord = rv_restaurant_id row.
Proof.
  set (good := fun row =>
         In (rv_rating row) [1; 2; 3; 4; 5]%float /\
         exists ord, In ord os /\ ro_id ord = rv_order_id row /\
                     ro_restaurant_id ord = rv_restaurant_id row).
  assert (G : forall l db,
             rt_orders db = os ->
             (forall r, In r (restaurant_reviews db) -> good r) ->
             forall r, In r (restaurant_reviews (postReviews db l)) -> good r).
  { clear l row. induction l as [|q l IH]; intros db O H; [exact H|].
    unfold postReviews in *. simpl. apply IH.
    - destruct (postReview_cases (rq_fails q) db (rq_orderId q) (rq_rating q)
                  (rq_comment q)) as [[-> _]|(ord & _ & _ & _ & _ & _ & _ & ->)];
        exact O.
    - destruct (postReview_cases (rq_fails q) db (rq_orderId q) (rq_rating q)
                  (rq_comment q)) as [[-> _]|(ord & F & L & U & I & _ & _ & ->)];
        [exact H|].
      simpl. intros r Ir. apply in_app_or in Ir. destruct Ir as [Ir|[<-|[]]].
      + apply H, Ir.
      + split; simpl; [apply Math_round_rating; assumption|].
        exists ord. rewrite <- O. auto. }
  intros I. apply (G l {| rt_orders := os; restaurant_reviews := [] |});
    [reflexivity | intros r [] | exact I].
Qed.

Lemma stored_reviews_are_well_formed_witness :
  In (rv_rating {| rv_order_id := 10; rv_user_id := Some 4;
                   rv_restaurant_id := Some 5; rv_rating := 4%float;
                   rv_comment := VString "good" |})
     [1; 2; 3; 4; 5]%float /\
  exists ord, In ord (rt_orders reviewScenario) /\ ro_id ord = 10 /\
              ro_restaurant_id ord = Some 5.
Proof.
  apply (stored_reviews_are_well_formed (rt_orders reviewScenario) [review44]
           {| rv_order_id := 10; rv_user_id := Some 4;
              rv_restaurant_id := Some 5; rv_rating := 4%float;
              rv_comment := VString "good" |}).
  vm_compute. left. reflexivity.
Defined.

(** X8: requests handled one after another never give an order a second
    review: if no two reviews of the table are for the same order, the
    same holds after any sequence of requests. *)
Theorem one_review_per_order (db : reviewTables) (l : list reviewRequest) :
  NoDup (List.map rv_order_id (restaurant_reviews db)) ->
  NoDup (List.map rv_order_id (restaurant_reviews (postReviews db l))).
Proof.
  revert db. induction l as [|q l IH]; intros db H; [exact H|].
  unfold postReviews in *. simpl. apply IH.
  destruct (postReview_cases (rq_fails q) db (rq_orderId q) (rq_rating q)
              (rq_comment q)) as [[-> _]|(ord & _ & _ & _ & _ & Ho & Hr & ->)];
    [exact H|].
  simpl. rewrite List.map_app. simpl.
  apply NoDup_app. split; [exact H|].
  split; [|apply NoDup_singleton].
  intros k Ik Jk. apply list_elem_of_In in Ik.
  apply list_elem_of_singleton in Jk. subst k.
  apply in_map_iff in Ik. destruct Ik as (r & Q & Ir).
  specialize (Hr r Ir). rewrite Q, Ho in Hr. discriminate.
Qed.

Lemma one_review_per_order_witness :
  NoDup (List.map rv_order_id
           (restaurant_reviews (postReviews reviewScenario [review44; review44]))).
Proof.
  apply (one_review_per_order reviewScenario [review44; review44]).
  simpl. constructor.
Defined.

(** X9: once a review has been accepted for an order, a further request
    for that order is never accepted and changes nothing, whatever it
    carries; when its rating is valid and the two reads succeed, the reply
    is Review already submitted. *)
Theorem second_review_is_refused
    (fails fails' : reviewStatement -> bool) (db db' : reviewTables)
    (orderId rating rating' : float) (comment comment' : value) :
  postReview fails db orderId rating comment = (db', ThanksForYourReview) ->
  fst (postReview fails' db' orderId rating' comment') = db' /\
  snd (postReview fails' db' orderId rating' comment') <> ThanksForYourReview /\
  (fails' SelectReviewedOrder = false -> fails' SelectReview = false ->
   is_finite rating' = true -> (rating' <? 1)%float = false ->
   (5 <? rating')%float = false ->
   snd (postReview fails' db' orderId rating' comment') = ReviewAlreadySubmitted).
Proof.
  intros H.
  destruct (postReview_cases fails db orderId rating comment)
    as [[_ N]|(ord & _ & _ & _ & Io & Ho & _ & E)];
    [rewrite H in N; contradiction|].
  rewrite H in E. injection E as ->.
  set (row := {| rv_order_id := ro_id ord;
                 rv_user_id := user_id_or_null (ro_user_id ord);
                 rv_restaurant_id := ro_restaurant_id ord;
                 rv_rating := Math_round rating;
                 rv_comment := comment_or_null comment |}).
  set (db2 := {| rt_orders := rt_orders db;
                 restaurant_reviews := (restaurant_reviews db ++ [row])%list |}).
  assert (T : truthy_num orderId = true).
  { unfold postReview in H. destruct (truthy_num orderId); [reflexivity|].
    discriminate H. }
  assert (S : exists o rest, selectReviewedOrder db2 orderId = o :: rest).
  { unfold selectReviewedOrder. simpl.
    destruct (List.filter (fun o => hasId orderId (ro_id o)) (rt_orders db))
      as [|o rest] eqn:F.
    - assert (X : In ord (List.filter (fun o => hasId orderId (ro_id o))
                            (rt_orders db))) by (apply filter_In; auto).
      rewrite F in X. destruct X.
    - exists o, []. reflexivity. }
  assert (R : exists r rest, selectReview db2 orderId = r :: rest).
  { unfold selectReview. simpl. rewrite List.filter_app. simpl.
    change (rv_order_id row) with (ro_id ord). rewrite Ho.
    destruct (List.filter _ (restaurant_reviews db)) as [|r rest];
      [exists row, []|exists r, []]; reflexivity. }
  destruct S as (o & rest & S). destruct R as (r & rest' & R).
  assert (C : postReview fails' db2 orderId rating' comment'
                = (db2, FailedToSubmitReview) \/
              postReview fails' db2 orderId rating' comment'
                = (db2, ReviewAlreadySubmitted) \/
              postReview fails' db2 orderId rating' comment'
                = (db2, InvalidOrderIdOrRating)).
  { unfold postReview. rewrite T, S, R. simpl.
    destruct (is_finite rating'); simpl; [|auto].
    destruct (rating' <? 1)%float; simpl; [auto|].
    destruct (5 <? rating')%float; simpl; [auto|].
    destruct (fails' SelectReviewedOrder); [auto|].
    destruct (fails' SelectReview); auto. }
  split; [|split].
  - destruct C as [-> | [-> | ->]]; reflexivity.
  - destruct C as [-> | [-> | ->]]; discriminate.
  - intros F1 F2 V1 V2 V3. unfold postReview.
    rewrite T, V1, V2, V3, F1, S, F2, R. reflexivity.
Qed.

Lemma second_review_is_refused_witness :
  fst (postReview (fun _ => false)
         (fst (postReview (fun _ => false) reviewScenario 10%float 4.4%float
                 (VString "good")))
         10%float 2%float VUndefined)
  = fst (postReview (fun _ => false) reviewScenario 10%float 4.4%float
           (VString "good")) /\
  snd (postReview (fun _ => false)
         (fst (postReview (fun _ => false) reviewScenario 10%float 4.4%float
                 (VString "good")))
         10%float 2%float VUndefined)
  = ReviewAlreadySubmitted.
Proof.
  pose proof (second_review_is_refused (fun _ => false) (fun _ => false)
                reviewScenario
                (fst (postReview (fun _ => false) reviewScenario 10%float
                        4.4%float (VString "good")))
                10%float 4.4%float 2%float (VString "good") VUndefined
                eq_refl) as (A & _ & B).
  split; [exact A|]. apply B; reflexivity.
Defined.

(** * The location of a restaurant *)

(** Numbers that are [===] are the same integer, or none. *)
Lemma eqb_integerOf (x y : float) :
  (x =? y)%float = true -> integerOf x = integerOf y.
Proof.
  rewrite FloatAxioms.eqb_spec. unfold SFeqb, integerOf.
  destruct (SF x) as [s1|s1| |s1 m1 e1], (SF y) as [s2|s2| |s2 m2 e2];
    unfold SFcompare; try (destruct s1); try (destruct s2);
    try discriminate; try reflexivity;
    change (PosDef.Pos.compare_cont Eq m1 m2) with (Pos.compare m1 m2);
    destruct (Z.compare_spec e1 e2) as [->|?|?]; try discriminate;
    destruct (Pos.compare_spec m1 m2) as [->|?|?]; try discriminate;
    reflexivity.
Qed.

(** A truthy number is not the integer 0. *)
Lemma integerOf_truthy (x : float) (n : Z) :
  truthy_num x = true -> integerOf x = Some n -> n <> 0.
Proof.
  rewrite truthy_num_sign, !FloatAxioms.ltb_spec, SF_zero. unfold SFltb, integerOf.
  rewrite SFcompare_zero_r, SFcompare_zero_l.
  destruct (SF x) as [s|s| |s m e].
  - intros H. discriminate H.
  - intros _ H. discriminate H.
  - intros H. discriminate H.
  - intros _. destruct (Z.leb_spec 0 e) as [He|He].
    + intros [= <-]. assert (0 < Z.pos m * 2 ^ e) by (apply Z.mul_pos_pos; lia).
      destruct s; unfold cond_Zopp; lia.
    + destruct (Z.eqb_spec (Z.pos m mod 2 ^ (- e)) 0) as [Q|Q]; [|discriminate].
      intros [= <-].
      assert (D : 0 < 2 ^ (- e)) by (apply Z.pow_pos_nonneg; lia).
      pose proof (Z.div_mod (Z.pos m) (2 ^ (- e)) ltac:(lia)) as M.
      rewrite Q in M.
      assert (Z.pos m / 2 ^ (- e) <> 0).
      { intros Z0. rewrite Z0 in M. lia. }
      destruct s; unfold cond_Zopp; lia.
Qed.

Lemma selectRestaurant_update db lat lng rid n :
  integerOf rid = Some n ->
  selectRestaurant (updateRestaurant db lat lng rid) n
  = List.map (fun r => {| r_id := r_id r; r_latitude := Some lat;
                          r_longitude := Some lng |})
      (selectRestaurant db n).
Proof.
  intros H. unfold selectRestaurant. simpl.
  induction (restaurants db) as [|r rs IH]; [reflexivity|]. simpl.
  rewrite (hasId_integerOf rid n) by exact H.
  destruct (Z.eqb_spec n (r_id r)) as [Q|Q]; simpl.
  - rewrite <- Q, Z.eqb_refl. simpl. rewrite IH, Q. reflexivity.
  - destruct (Z.eqb_spec (r_id r) n) as [Q'|_]; [congruence|]. exact IH.
Qed.

(** X10: after a successful update of a restaurant's location, the admin
    assignment handler measures distances from the new point for every
    order of that restaurant; and the coordinates it then works with are
    finite numbers, since the update refuses others. *)
Theorem updated_location_is_the_pickup_point
    (failed : bool) (user : locationUser) (db db' : database)
    (body : locationBody) (rid lat lng : float) (n orderId : Z)
    (o : orderRow) (rest : list orderRow) :
  updateRestaurantLocation failed user db body = (db', RestaurantLocationUpdated) ->
  lb_restaurant_id body = Some rid -> lb_latitude body = Some lat ->
  lb_longitude body = Some lng -> integerOf rid = Some n ->
  selectOrder db orderId = o :: rest -> o_restaurant_id o = Some n ->
  selectRestaurant db n <> [] ->
  pickup db' orderId = Some (lat, lng) /\
  is_finite lat = true /\ is_finite lng = true.
Proof.
  intros H R X Y Hn S Ho Hr. unfold updateRestaurantLocation in H.
  rewrite R, X, Y in H.
  destruct (truthy_num rid) eqn:T; [|discriminate H]. simpl in H.
  destruct (negb (hasRole user "admin") && _); [discriminate H|].
  destruct (is_finite lat) eqn:Fx; [|discriminate H].
  destruct (is_finite lng) eqn:Fy; [|discriminate H]. simpl in H.
  destruct failed; [discriminate H|]. injection H as <-.
  split; [|auto].
  pose proof (integerOf_truthy rid n T Hn) as N0.
  unfold pickup.
  change (selectOrder (updateRestaurant db lat lng rid) orderId)
    with (selectOrder db orderId).
  rewrite S, Ho. destruct (Z.eqb_spec n 0) as [?|_]; [contradiction|].
  rewrite (selectRestaurant_update db lat lng rid n Hn).
  destruct (selectRestaurant db n) as [|r rs]; [contradiction|]. reflexivity.
Qed.

Lemma updated_location_is_the_pickup_point_witness :
  pickup (fst (updateRestaurantLocation false owner5 scenario moveTo18)) 10
  = Some (18%float, 78.5%float) /\
  is_finite 18%float = true /\ is_finite 78.5%float = true.
Proof.
  apply (updated_location_is_the_pickup_point false owner5 scenario _ moveTo18
           5%float 18%float 78.5%float 5 10
           {| o_id := 10; o_restaurant_id := Some 5; o_agent_id := None;
              o_status := "Pending" |} []);
    try reflexivity.
  simpl. discriminate.
Defined.

(** X11: a user who is not an admin cannot change the location of a
    restaurant other than the one the user's token names: every other row
    of the restaurants table is after the request what it was before. *)
Theorem location_of_other_restaurants_is_kept
    (failed : bool) (user : locationUser) (db : database)
    (body : locationBody) (r : restaurantRow) :
  hasRole user "admin" = false ->
  In r (restaurants db) ->
  hasId (lu_restaurant_id user) (r_id r) = false ->
  In r (restaurants (fst (updateRestaurantLocation failed user db body))).
Proof.
  intros A I H. unfold updateRestaurantLocation. rewrite A.
  destruct (lb_restaurant_id body) as [rid|]; [|exact I].
  destruct (lb_latitude body) as [lat|]; [|exact I].
  destruct (lb_longitude body) as [lng|]; [|exact I].
  destruct (truthy_num rid); [|exact I]. simpl.
  destruct (hasRole user "restaurant"); [|exact I]. simpl.
  destruct (lu_restaurant_id user =? rid)%float eqn:Q; [|exact I]. simpl.
  destruct (negb (is_finite lat) || negb (is_finite lng)); [exact I|].
  destruct failed; [exact I|]. simpl.
  apply in_map_iff. exists r. split; [|exact I].
  unfold hasId in *. rewrite <- (eqb_integerOf _ _ Q), H. reflexivity.
Qed.

Lemma location_of_other_restaurants_is_kept_witness :
  In restaurant5
    (restaurants (fst (updateRestaurantLocation false
                         {| lu_role := Some "restaurant"; lu_restaurant_id := 6 |}
                         scenario moveTo18))).
Proof.
  apply (location_of_other_restaurants_is_kept false
           {| lu_role := Some "restaurant"; lu_restaurant_id := 6 |}
           scenario moveTo18 restaurant5).
  - reflexivity.
  - simpl. left. reflexivity.
  - reflexivity.
Defined.

(** * Menu items *)

(** X12: a dish is deleted only for a caller who carries no role, is an
    admin, or belongs to the restaurant that owns the dish; a caller with
    another role is refused and the menu stays as it was.  Conversely a
    request that carries no role (as every request does when no
    authentication middleware is installed) deletes any dish.  A deletion
    removes the rows with the id of the request and no other row. *)
Theorem menu_item_is_deleted_for_its_owner
    (fails : menuStatement -> bool) (user : menuUser)
    (menu : list menuRow) (menuId : Z) :
  (forall menu', deleteMenu fails user menu menuId = (menu', MenuItemDeleted) ->
     (forall m, In m menu' <-> In m menu /\ m_id m <> menuId) /\
     (truthy (mu_role user) = false \/ isAdmin (mu_role user) = true \/
      exists row, In row menu /\ m_id row = menuId /\
                  strictEqualsId (mu_restaurant_id user) (m_restaurant_id row)
                  = true)) /\
  (forall menu' r, deleteMenu fails user menu menuId = (menu', r) ->
     r <> MenuItemDeleted -> menu' = menu) /\
  (truthy (mu_role user) = false ->
   fails SelectMenuItem = false -> fails DeleteMenuItem = false ->
   forall row, In row menu -> m_id row = menuId ->
   snd (deleteMenu fails user menu menuId) = MenuItemDeleted).
Proof.
  split; [|split].
  - intros menu' H. unfold deleteMenu in H.
    destruct (fails SelectMenuItem); [discriminate H|].
    destruct (List.filter (fun m => m_id m =? menuId) menu) as [|row rest] eqn:F;
      [discriminate H|].
    assert (Ir : In row menu /\ m_id row = menuId).
    { assert (X : In row (List.filter (fun m => m_id m =? menuId) menu))
        by (rewrite F; left; reflexivity).
      apply filter_In in X. destruct X as [X Q]. apply Z.eqb_eq in Q. auto. }
    destruct (truthy (mu_role user)) eqn:T; simpl in H.
    + destruct (isAdmin (mu_role user)) eqn:A; simpl in H.
      * destruct (fails DeleteMenuItem); [discriminate H|].
        injection H as <-. split; [|auto].
        intros m. rewrite filter_In, negb_true_iff, Z.eqb_neq. reflexivity.
      * destruct (strictEqualsId (mu_restaurant_id user) (m_restaurant_id row))
          eqn:Q; simpl in H; [|discriminate H].
        destruct (fails DeleteMenuItem); [discriminate H|].
        injection H as <-. split.
        -- intros m. rewrite filter_In, negb_true_iff, Z.eqb_neq. reflexivity.
        -- right. right. exists row. tauto.
    + destruct (fails DeleteMenuItem); [discriminate H|].
      injection H as <-. split; [|auto].
      intros m. rewrite filter_In, negb_true_iff, Z.eqb_neq. reflexivity.
  - intros menu' r H N. unfold deleteMenu in H.
    repeat handler_case H; injection H as <- <-; try reflexivity;
      contradiction.
  - intros T F1 F2 row I Q. unfold deleteMenu. rewrite F1, T, F2.
    destruct (List.filter (fun m => m_id m =? menuId) menu) as [|row' rest] eqn:F;
      [|reflexivity].
    assert (X : In row (List.filter (fun m => m_id m =? menuId) menu)).
    { apply filter_In. split; [exact I|]. apply Z.eqb_eq, Q. }
    rewrite F in X. destruct X.
Qed.

Lemma menu_item_is_deleted_for_its_owner_witness :
  deleteMenu (fun _ => false) {| mu_role := VUndefined; mu_restaurant_id := VUndefined |}
    [ {| m_id := 3; m_restaurant_id := Some 5 |};
      {| m_id := 4; m_restaurant_id := Some 6 |} ] 3
  = ([ {| m_id := 4; m_restaurant_id := Some 6 |} ], MenuItemDeleted) /\
  fst (deleteMenu (fun _ => false)
         {| mu_role := VString "restaurant"; mu_restaurant_id := VNumber 6 |}
         [ {| m_id := 3; m_restaurant_id := Some 5 |};
           {| m_id := 4; m_restaurant_id := Some 6 |} ] 3)
  = [ {| m_id := 3; m_restaurant_id := Some 5 |};
      {| m_id := 4; m_restaurant_id := Some 6 |} ].
Proof.
  split; [reflexivity|].
  apply (proj1 (proj2 (menu_item_is_deleted_for_its_owner (fun _ => false)
                         {| mu_role := VString "restaurant";
                            mu_restaurant_id := VNumber 6 |}
                         [ {| m_id := 3; m_restaurant_id := Some 5 |};
                           {| m_id := 4; m_restaurant_id := Some 6 |} ] 3))
           _ NotAuthorized);
    [reflexivity | discriminate].
Defined.

(** * The token cache *)

(** X13: while the clock is before the expiry computed at the last fetch,
    which is the time of the fetch plus the lifetime of the token less 300
    seconds, every call returns the token fetched and none sends a request;
    a call at any other time sends one. *)
Theorem token_is_fetched_once_per_lifetime
    (cache0 : tokenCache) (now : float) (data : tokenData)
    (calls : list (float * option tokenData)) :
  truthy (access_token data) = true ->
  (forall now' remote', In (now', remote') calls ->
     (now' <? now + (expires_in data - 300) * 1000)%float = true) ->
  snd (getMapplsToken cache0 now (Some data)) = true ->
  getMapplsTokens (fst (fst (getMapplsToken cache0 now (Some data)))) calls
  = (fst (fst (getMapplsToken cache0 now (Some data))),
     List.map (fun _ => Some (access_token data)) calls, 0%nat) /\
  (forall now' remote',
     (now' <? now + (expires_in data - 300) * 1000)%float = false ->
     snd (getMapplsToken (fst (fst (getMapplsToken cache0 now (Some data))))
            now' remote') = true).
Proof.
  intros T W R.
  assert (C : fst (fst (getMapplsToken cache0 now (Some data)))
              = {| mapplsToken := access_token data;
                   tokenExpiry := (now + (expires_in data - 300) * 1000)%float |}).
  { unfold getMapplsToken in *.
    destruct (truthy (mapplsToken cache0) && (now <? tokenExpiry cache0)%float);
      [discriminate R|reflexivity]. }
  rewrite C. clear C R. split.
  - induction calls as [|[now' remote'] calls IH]; [reflexivity|].
    cbn [getMapplsTokens]. unfold getMapplsToken at 1.
    cbn [mapplsToken tokenExpiry]. rewrite T, (W now' remote') by (left; reflexivity).
    cbn [andb]. rewrite IH by (intros; eapply W; right; eassumption).
    reflexivity.
  - intros now' remote' L. unfold getMapplsToken.
    cbn [mapplsToken tokenExpiry]. rewrite T, L. cbn [andb].
    destruct remote'; reflexivity.
Qed.

Lemma token_is_fetched_once_per_lifetime_witness :
  getMapplsTokens
    (fst (fst (getMapplsToken noToken 1000%float (Some token3600))))
    [ (2000%float, None); (3300999%float, None) ]
  = (fst (fst (getMapplsToken noToken 1000%float (Some token3600))),
     [ Some (VString "t1"); Some (VString "t1") ], 0%nat) /\
  snd (getMapplsToken
         (fst (fst (getMapplsToken noToken 1000%float (Some token3600))))
         3301000%float None) = true.
Proof.
  destruct (token_is_fetched_once_per_lifetime noToken 1000%float token3600
              [ (2000%float, None); (3300999%float, None) ]) as [A B].
  - reflexivity.
  - simpl. intros now' remote' [[= <- <-]|[[= <- <-]|[]]]; reflexivity.
  - reflexivity.
  - split; [exact A|]. apply B. reflexivity.
Defined.

(** * The orders of a delivery agent *)

(** X14: after the admin handler has assigned an order to an agent, the
    list [GET /api/orders] gives that agent holds the order, as
    Confirmed; the list it gives any other delivery agent does not; and
    the list of a delivery agent holds only orders assigned to that
    agent. *)
Theorem assigned_order_is_listed_for_its_agent
    (E : Builtins) (env : environment) (fails : statement -> bool)
    (db db' : database) (orderId a : Z) (d : float) (user : orderUser) :
  adminAssign E env fails db orderId = (db', AgentAssigned a d) ->
  ou_role user = Some "delivery_agent" ->
  exists rows,
    getOrders false user db' = OrdersOf rows /\
    (forall o, In o rows -> o_agent_id o = Some (ou_id user)) /\
    (ou_id user = a ->
     exists o, In o rows /\ o_id o = orderId /\ o_status o = "Confirmed") /\
    (ou_id user <> a -> forall o, In o rows -> o_id o <> orderId).
Proof.
  intros H R. unfold getOrders. rewrite R. simpl.
  eexists. split; [reflexivity|].
  pose proof H as H0. apply adminAssign_assigned in H0.
  destruct H0 as (rlat & rlng & best & P & _ & _ & _ & ->).
  split; [|split].
  - intros o I. apply filter_In in I. destruct I as [_ Q].
    destruct (o_agent_id o) as [b|]; [|discriminate].
    apply Z.eqb_eq in Q. congruence.
  - intros <-.
    unfold pickup in P.
    destruct (selectOrder db orderId) as [|o0 rest] eqn:S; [discriminate|].
    assert (I0 : In o0 (selectOrder db orderId)) by (rewrite S; left; reflexivity).
    unfold selectOrder in I0. apply filter_In in I0. destruct I0 as [I0 Q0].
    apply Z.eqb_eq in Q0.
    exists {| o_id := o_id o0; o_restaurant_id := o_restaurant_id o0;
              o_agent_id := Some (ou_id user); o_status := "Confirmed" |}.
    split; [|split; [exact Q0|reflexivity]].
    apply filter_In. split; [|simpl; apply Z.eqb_refl].
    simpl. apply in_map_iff. exists o0. split; [|exact I0].
    rewrite Q0, Z.eqb_refl. reflexivity.
  - intros N o I Q. apply filter_In in I. destruct I as [I A].
    pose proof (updateOrder_orders db a orderId o I Q) as [A' _].
    rewrite A' in A. apply Z.eqb_eq in A. congruence.
Qed.

Lemma assigned_order_is_listed_for_its_agent_witness :
  exists rows,
    getOrders false {| ou_role := Some "delivery_agent"; ou_id := 2;
                       ou_restaurant_id := 0 |}
      (fst (adminAssign smallAngle defaults reliable scenario 10))
    = OrdersOf rows /\
    (forall o, In o rows -> o_agent_id o = Some 2) /\
    (2 = 2 -> exists o, In o rows /\ o_id o = 10 /\ o_status o = "Confirmed") /\
    (2 <> 2 -> forall o, In o rows -> o_id o <> 10).
Proof.
  apply (assigned_order_is_listed_for_its_agent smallAngle defaults reliable
           scenario _ 10 2
           (dist smallAngle 17.3850%float 78.4867%float 17.4000%float 78.5100%float)
           {| ou_role := Some "delivery_agent"; ou_id := 2;
              ou_restaurant_id := 0 |}).
  - vm_compute. reflexivity.
  - reflexivity.
Defined.

(** * Featured restaurants *)

Lemma NoDup_map_filter {A B : Type} (f : A -> B) (p : A -> bool) (l : list A) :
  NoDup (List.map f l) -> NoDup (List.map f (List.filter p l)).
Proof.
  induction l as [|x l IH]; simpl; intros H; [exact H|].
  apply NoDup_cons in H. destruct H as [N H].
  destruct (p x); simpl; [|apply IH, H].
  apply NoDup_cons. split; [|apply IH, H].
  intros I. apply N. apply list_elem_of_In in I. apply list_elem_of_In.
  apply in_map_iff in I. destruct I as (y & Q & I). apply filter_In in I.
  apply in_map_iff. exists y. tauto.
Qed.

Lemma toggleFeatured_restaurants fails featured id :
  List.map fr_restaurant_id (fst (toggleFeatured fails featured id))
  = List.map fr_restaurant_id featured.
Proof.
  unfold toggleFeatured.
  destruct (fails SelectIsActive); [reflexivity|].
  destruct (List.filter _ featured) as [|current rest]; [reflexivity|].
  destruct (fails UpdateIsActive); [reflexivity|].
  simpl. rewrite List.map_map. apply List.map_ext. intros f.
  destruct (fr_id f =? id); reflexivity.
Qed.

(** X15: whatever requests are made to add, toggle, remove and clear
    featured restaurants, handled one after another, no restaurant comes to
    be featured twice, and every featured row names a restaurant of the
    restaurants table. *)
Theorem featured_list_has_no_duplicates
    (db : database) (featured : list featuredRow)
    (l : list ((featuredStatement -> bool) * featuredRequest)) :
  NoDup (List.map fr_restaurant_id featured) ->
  (forall f, In f featured -> selectRestaurant db (fr_restaurant_id f) <> []) ->
  NoDup (List.map fr_restaurant_id (featuredRun db featured l)) /\
  (forall f, In f (featuredRun db featured l) ->
             selectRestaurant db (fr_restaurant_id f) <> []).
Proof.
  revert featured. induction l as [|[fails q] l IH]; intros featured N R;
    [split; assumption|].
  unfold featuredRun in *. simpl. apply IH; unfold featuredStep; simpl;
    destruct q as [rid position insertId | id | id | ].
  - unfold addFeatured.
    destruct (fails SelectFeaturedRestaurant); [exact N|].
    destruct (selectRestaurant db rid) as [|r rs]; [exact N|].
    destruct (fails SelectFeatured); [exact N|].
    destruct (List.filter _ featured) as [|f0 fs] eqn:F; [|exact N].
    destruct (fails InsertFeatured); [exact N|].
    simpl. rewrite List.map_app. simpl.
    apply NoDup_app. split; [exact N|]. split; [|apply NoDup_singleton].
    intros k Ik Jk. apply list_elem_of_In in Ik.
    apply list_elem_of_singleton in Jk. subst k.
    apply in_map_iff in Ik. destruct Ik as (f & Q & If).
    assert (X : In f (List.filter (fun f => fr_restaurant_id f =? rid) featured)).
    { apply filter_In. split; [exact If|]. apply Z.eqb_eq, Q. }
    rewrite F in X. destruct X.
  - rewrite toggleFeatured_restaurants. exact N.
  - unfold removeFeatured. destruct (fails DeleteFeatured); [exact N|].
    simpl. apply NoDup_map_filter, N.
  - unfold clearFeatured. destruct (fails DeleteFeatured); [exact N|].
    simpl. constructor.
  - unfold addFeatured.
    destruct (fails SelectFeaturedRestaurant); [exact R|].
    destruct (selectRestaurant db rid) as [|r rs] eqn:S; [exact R|].
    destruct (fails SelectFeatured); [exact R|].
    destruct (List.filter _ featured) as [|f0 fs]; [|exact R].
    destruct (fails InsertFeatured); [exact R|].
    simpl. intros f I. apply in_app_or in I. destruct I as [I|[<-|[]]].
    + apply R, I.
    + simpl. rewrite S. discriminate.
  - intros f I.
    assert (M : In (fr_restaurant_id f) (List.map fr_restaurant_id featured)).
    { rewrite <- (toggleFeatured_restaurants fails featured id).
      apply in_map, I. }
    apply in_map_iff in M. destruct M as (g & <- & Ig). apply R, Ig.
  - unfold removeFeatured. destruct (fails DeleteFeatured); [exact R|].
    simpl. intros f I. apply filter_In in I. apply R, I.
  - unfold clearFeatured. destruct (fails DeleteFeatured); [exact R|].
    simpl. intros f [].
Qed.

Lemma featured_list_has_no_duplicates_witness :
  NoDup (List.map fr_restaurant_id
           (featuredRun scenario []
              [ (fun _ => false, AddFeatured 5 (VNumber 1) 1);
                (fun _ => false, AddFeatured 5 (VNumber 2) 2);
                (fun _ => false, ToggleFeatured 1) ])) /\
  (forall f,
      In f (featuredRun scenario []
              [ (fun _ => false, AddFeatured 5 (VNumber 1) 1);
                (fun _ => false, AddFeatured 5 (VNumber 2) 2);
                (fun _ => false, ToggleFeatured 1) ]) ->
      selectRestaurant scenario (fr_restaurant_id f) <> []).
Proof.
  apply (featured_list_has_no_duplicates scenario []).
  - simpl. constructor.
  - simpl. intros f [].
Defined.

Lemma featured_row_of_id (featured : list featuredRow) (f c : featuredRow) :
  NoDup (List.map fr_id featured) -> In f featured -> In c featured ->
  fr_id f = fr_id c -> f = c.
Proof.
  induction featured as [|g gs IH]; simpl; intros N If Ic Q; [destruct Ic|].
  apply NoDup_cons in N. destruct N as [Ng N].
  destruct Ic as [->|Ic], If as [->|If]; try reflexivity.
  - exfalso. apply Ng. apply list_elem_of_In, in_map_iff.
    exists f. split; [congruence|exact If].
  - exfalso. apply Ng. apply list_elem_of_In, in_map_iff.
    exists c. split; [congruence|exact Ic].
  - apply IH; assumption.
Qed.

(** X16: toggling a featured restaurant twice gives back the table as it
    was, the ids of the rows being distinct: the second reply reports the
    state the row had at first. *)
Theorem toggle_twice_restores
    (fails1 fails2 : featuredStatement -> bool)
    (featured t1 t2 : list featuredRow) (id : Z) (b1 b2 : bool) :
  NoDup (List.map fr_id featured) ->
  toggleFeatured fails1 featured id = (t1, FeaturedToggled b1) ->
  toggleFeatured fails2 t1 id = (t2, FeaturedToggled b2) ->
  t2 = featured /\ b2 = negb b1.
Proof.
  intros N H1 H2. unfold toggleFeatured in H1.
  destruct (fails1 SelectIsActive); [discriminate H1|].
  destruct (List.filter (fun f => fr_id f =? id) featured) as [|c rest] eqn:F;
    [discriminate H1|].
  destruct (fails1 UpdateIsActive); [discriminate H1|].
  injection H1 as <- <-.
  assert (U : forall f, In f featured -> fr_id f = id -> f = c).
  { assert (X : In c (List.filter (fun f => fr_id f =? id) featured))
      by (rewrite F; left; reflexivity).
    apply filter_In in X. destruct X as [X Q]. apply Z.eqb_eq in Q.
    intros f If Qf. apply (featured_row_of_id featured); congruence. }
  clear F. unfold toggleFeatured in H2.
  destruct (fails2 SelectIsActive); [discriminate H2|].
  destruct (List.filter _ (List.map _ featured)) as [|c2 rest2] eqn:F2;
    [discriminate H2|].
  destruct (fails2 UpdateIsActive); [discriminate H2|].
  injection H2 as <- <-.
  assert (C2 : fr_is_active c2 = negb (fr_is_active c)).
  { assert (X : In c2 (List.filter (fun f => fr_id f =? id)
                         (List.map (fun f =>
                            if fr_id f =? id
                            then {| fr_id := fr_id f;
                                    fr_restaurant_id := fr_restaurant_id f;
                                    fr_position := fr_position f;
                                    fr_is_active := negb (fr_is_active c) |}
                            else f) featured)))
      by (rewrite F2; left; reflexivity).
    apply filter_In in X. destruct X as [X Q].
    apply in_map_iff in X. destruct X as (g & <- & _).
    destruct (fr_id g =? id) eqn:G; [reflexivity|].
    rewrite G in Q. discriminate Q. }
  split; [|rewrite C2; reflexivity].
  rewrite C2, negb_involutive, List.map_map.
  rewrite <- (List.map_id featured) at 2. apply List.map_ext_in.
  intros f If. destruct (fr_id f =? id) eqn:G; simpl; rewrite G; [|reflexivity].
  apply Z.eqb_eq in G. rewrite <- (U f If G). destruct f; reflexivity.
Qed.

Lemma toggle_twice_restores_witness :
  fst (toggleFeatured (fun _ => false)
         (fst (toggleFeatured (fun _ => false)
                 [ {| fr_id := 1; fr_restaurant_id := 5;
                      fr_position := VNumber 1; fr_is_active := true |} ] 1)) 1)
  = [ {| fr_id := 1; fr_restaurant_id := 5;
         fr_position := VNumber 1; fr_is_active := true |} ] /\
  true = negb false.
Proof.
  apply (toggle_twice_restores (fun _ => false) (fun _ => false)
           [ {| fr_id := 1; fr_restaurant_id := 5;
                fr_position := VNumber 1; fr_is_active := true |} ]
           [ {| fr_id := 1; fr_restaurant_id := 5;
                fr_position := VNumber 1; fr_is_active := false |} ]
           _ 1 false true).
  - simpl. apply NoDup_singleton.
  - reflexivity.
  - reflexivity.
Defined.

(** * Restaurants and their approval *)

Lemma decideRestaurant_restaurants status done fails t id :
  fails UpdateRestaurantStatus = false ->
  ac_restaurants (fst (decideRestaurant status done fails t id))
  = List.map (fun r => if re_id r =? id
                       then {| re_id := re_id r; re_name := re_name r;
                               re_status := status |}
                       else r) (ac_restaurants t).
Proof.
  intros F. unfold decideRestaurant. rewrite F.
  destruct (fails UpdateUserStatus); reflexivity.
Qed.

Lemma listedIds_decide status done fails t id i :
  fails UpdateRestaurantStatus = false ->
  In i (listedIds (fst (decideRestaurant status done fails t id))) <->
  (i = id /\ status = "approved" /\ In id (List.map re_id (ac_restaurants t))) \/
  (i <> id /\ In i (listedIds t)).
Proof.
  intros F. unfold listedIds, getRestaurants. cbn [default].
  rewrite (decideRestaurant_restaurants status done fails t id F). split.
  - intros H. apply in_map_iff in H. destruct H as (r & <- & I).
    apply filter_In in I. destruct I as [I S].
    apply in_map_iff in I. destruct I as (r0 & <- & I0).
    destruct (Z.eqb_spec (re_id r0) id) as [Q|Q]; simpl in *.
    + left. apply String.eqb_eq in S. split; [exact Q|]. split; [exact S|].
      apply in_map_iff. exists r0. auto.
    + right. split; [exact Q|]. apply in_map_iff. exists r0.
      split; [reflexivity|]. apply filter_In. auto.
  - intros [(-> & -> & I)|(N & I)].
    + apply in_map_iff in I. destruct I as (r0 & Q & I0). apply in_map_iff.
      exists {| re_id := re_id r0; re_name := re_name r0; re_status := "approved" |}.
      split; [exact Q|]. apply filter_In. split; [|reflexivity].
      apply in_map_iff. exists r0. split; [|exact I0].
      rewrite Q, Z.eqb_refl. reflexivity.
    + apply in_map_iff in I. destruct I as (r & <- & I).
      apply filter_In in I. destruct I as [I S]. apply in_map_iff.
      exists r. split; [reflexivity|]. apply filter_In. split; [|exact S].
      apply in_map_iff. exists r. split; [|exact I].
      destruct (Z.eqb_spec (re_id r) id); [contradiction|reflexivity].
Qed.

Lemma filter_approved_pending (l : list restaurantEntry) (r : restaurantEntry) :
  re_status r = "pending" ->
  List.filter (fun r => String.eqb (re_status r) "approved") (l ++ [r])
  = List.filter (fun r => String.eqb (re_status r) "approved") l.
Proof.
  intros H. rewrite List.filter_app. simpl. rewrite H. simpl.
  apply app_nil_r.
Qed.

(** X17: the public list of restaurants shows a restaurant exactly when
    its row is approved: a restaurant created by a registration or a
    submission is not listed; approving an id lists the restaurants of that
    id and rejecting it unlists them; and neither changes whether a
    restaurant of another id is listed. *)
Theorem public_list_follows_the_decisions
    (fails : accountStatement -> bool) (t : accounts) (id i : Z) :
  fails UpdateRestaurantStatus = false ->
  (In i (listedIds (fst (approveRestaurant fails t id))) <->
   (i = id /\ In id (List.map re_id (ac_restaurants t))) \/
   (i <> id /\ In i (listedIds t))) /\
  (In i (listedIds (fst (rejectRestaurant fails t id))) <->
   i <> id /\ In i (listedIds t)) /\
  (forall fails' hashed body userId restaurantId,
      listedIds (fst (registerUser fails' hashed t body userId restaurantId))
      = listedIds t) /\
  (forall fails' name restaurantId,
      listedIds (fst (submitRestaurant fails' t name restaurantId))
      = listedIds t).
Proof.
  intros F. split; [|split; [|split]].
  - unfold approveRestaurant. rewrite (listedIds_decide _ _ _ _ _ _ F). tauto.
  - unfold rejectRestaurant. rewrite (listedIds_decide _ _ _ _ _ _ F).
    split; [intros [(_ & X & _)|H]; [discriminate X|exact H]|auto].
  - intros fails' hashed body userId restaurantId.
    unfold listedIds, getRestaurants, registerUser.
    destruct hashed as [h|]; [|reflexivity].
    destruct (fails' InsertUser); [reflexivity|].
    destruct (isRestaurant (rg_role body)); [|reflexivity].
    destruct (fails' InsertRestaurant); [reflexivity|].
    simpl. rewrite filter_approved_pending by reflexivity. reflexivity.
  - intros fails' name restaurantId.
    unfold listedIds, getRestaurants, submitRestaurant.
    destruct (fails' InsertRestaurant); [reflexivity|].
    simpl. rewrite filter_approved_pending by reflexivity. reflexivity.
Qed.

Lemma public_list_follows_the_decisions_witness :
  listedIds (fst (submitRestaurant (fun _ => false)
                    {| ac_users := []; ac_restaurants := [] |}
                    (VString "Dosa Corner") 7)) = [] /\
  (In 7 (listedIds
           (fst (approveRestaurant (fun _ => false)
                   (fst (submitRestaurant (fun _ => false)
                           {| ac_users := []; ac_restaurants := [] |}
                           (VString "Dosa Corner") 7)) 7))) <->
   (7 = 7 /\
    In 7 (List.map re_id
            (ac_restaurants
               (fst (submitRestaurant (fun _ => false)
                       {| ac_users := []; ac_restaurants := [] |}
                       (VString "Dosa Corner") 7))))) \/
   (7 <> 7 /\
    In 7 (listedIds
            (fst (submitRestaurant (fun _ => false)
                    {| ac_users := []; ac_restaurants := [] |}
                    (VString "Dosa Corner") 7))))).
Proof.
  split; [reflexivity|].
  apply (public_list_follows_the_decisions (fun _ => false) _ 7 7).
  reflexivity.
Defined.

Lemma decideRestaurant_unlinked status done fails t id u :
  In u (ac_users t) -> us_restaurant_id u = None ->
  In u (ac_users (fst (decideRestaurant status done fails t id))).
Proof.
  intros I N. unfold decideRestaurant.
  destruct (fails UpdateRestaurantStatus); [exact I|].
  destruct (fails UpdateUserStatus); [exact I|].
  simpl. apply in_map_iff. exists u. split; [|exact I].
  rewrite N. reflexivity.
Qed.

(** X18: a user who registers as a restaurant without naming a restaurant
    id is stored as pending and with no restaurant; the restaurant row the
    registration creates is not linked to the user, so that no approval or
    rejection of any restaurant, that one included, changes the user's
    row: the user stays pending. *)
Theorem unlinked_owner_stays_pending
    (fails : accountStatement -> bool) (hashed : string) (t t1 : accounts)
    (body : registration) (userId restaurantId : Z)
    (l : list ((accountStatement -> bool) * decision)) :
  registerUser fails (Some hashed) t body userId restaurantId
    = (t1, UserRegistered userId) ->
  isRestaurant (rg_role body) = true ->
  restaurant_id_or_null (rg_restaurant_id body) = None ->
  In {| re_id := restaurantId; re_name := rg_name body; re_status := "pending" |}
     (ac_restaurants t1) /\
  In {| us_id := userId; us_name := rg_name body; us_email := rg_email body;
        us_password := hashed; us_role := rg_role body; us_status := "pending";
        us_restaurant_id := None |}
     (ac_users (decisions t1 l)).
Proof.
  intros H R N. unfold registerUser in H. rewrite R, N in H.
  destruct (fails InsertUser); [discriminate H|].
  destruct (fails InsertRestaurant); [discriminate H|].
  injection H as <-. split.
  - simpl. apply in_or_app. right. left. reflexivity.
  - set (u := {| us_id := userId; us_name := rg_name body;
                 us_email := rg_email body; us_password := hashed;
                 us_role := rg_role body; us_status := "pending";
                 us_restaurant_id := None |}).
    match goal with |- In u (ac_users (decisions ?t0 l)) => set (t1 := t0) end.
    assert (I : In u (ac_users t1))
      by (simpl; apply in_or_app; right; left; reflexivity).
    clearbody t1. revert t1 I. induction l as [|[f q] l IH]; intros t1 I;
      [exact I|].
    unfold decisions in *. simpl. apply IH. unfold decide_restaurant. simpl.
    destruct q; apply decideRestaurant_unlinked; auto.
Qed.

Lemma unlinked_owner_stays_pending_witness :
  In {| re_id := 7; re_name := VString "Dosa Corner"; re_status := "pending" |}
     (ac_restaurants
        (fst (registerUser (fun _ => false) (Some "$2a$10$h")
                {| ac_users := []; ac_restaurants := [] |} dosaCorner 1 7))) /\
  In {| us_id := 1; us_name := VString "Dosa Corner";
        us_email := VString "dosa@example.com"; us_password := "$2a$10$h";
        us_role := VString "restaurant"; us_status := "pending";
        us_restaurant_id := None |}
     (ac_users
        (decisions
           (fst (registerUser (fun _ => false) (Some "$2a$10$h")
                   {| ac_users := []; ac_restaurants := [] |} dosaCorner 1 7))
           [ (fun _ => false, Approve 7) ])).
Proof.
  apply (unlinked_owner_stays_pending (fun _ => false) "$2a$10$h"
           {| ac_users := []; ac_restaurants := [] |} _ dosaCorner 1 7
           [ (fun _ => false, Approve 7) ]);
    reflexivity.
Defined.

(** * Counts as numbers *)

(** Rounding a number that has exactly 53 digits leaves it as it is. *)
Lemma binary_round_aux_exact (s : bool) (m : positive) (e : Z) :
  Zpos (digits2_pos m) = 53 -> -1074 <= e <= 971 ->
  binary_round_aux prec emax s (Zpos m) e loc_Exact = S754_finite s m e.
Proof.
  intros D He.
  assert (F : fexp prec emax (Zdigits2 (Zpos m) + e) - e = 0).
  { simpl Zdigits2. rewrite D. unfold fexp, SpecFloat.emin, prec, emax. lia. }
  unfold binary_round_aux, shr_fexp. rewrite F. unfold shr.
  cbn [shr_record_of_loc shr_m loc_of_shr_record round_nearest_even
       shr_r shr_s].
  rewrite F. cbn [shr_record_of_loc shr_m].
  destruct (Z.leb_spec e (emax - prec)) as [_|L]; [reflexivity|].
  unfold emax, prec in L. lia.
Qed.

Lemma digits2_shift (m mz : positive) (k : Z) :
  0 <= k -> Zpos mz = Zpos m * 2 ^ k ->
  Zpos (digits2_pos mz) = Zpos (digits2_pos m) + k.
Proof.
  intros Hk E.
  pose proof (digits2_bounds m) as [L U]. pose proof (digits2_bounds mz) as [L' U'].
  set (d := Zpos (digits2_pos m)) in *. set (d' := Zpos (digits2_pos mz)) in *.
  assert (P : 0 < 2 ^ k) by (apply Z.pow_pos_nonneg; lia).
  assert (A : 2 ^ (d + k - 1) <= Zpos mz).
  { replace (d + k - 1) with (d - 1 + k) by lia.
    rewrite Z.pow_add_r by (subst d; lia). rewrite E. nia. }
  assert (B : Zpos mz < 2 ^ (d + k)).
  { rewrite Z.pow_add_r by (subst d; lia). rewrite E. nia. }
  assert (C1 : 2 ^ (d + k - 1) < 2 ^ d') by lia.
  assert (C2 : 2 ^ (d' - 1) < 2 ^ (d + k)) by lia.
  apply Z.pow_lt_mono_r_iff in C1; [|lia|subst d'; lia].
  apply Z.pow_lt_mono_r_iff in C2; [|lia|subst d; lia].
  lia.
Qed.

(** A positive integer below 2^53 is a number, exactly. *)
Lemma binary_round_integer (p : positive) :
  Zpos (digits2_pos p) <= 53 ->
  exists mz,
    binary_round prec emax false p 0
    = S754_finite false mz (Zpos (digits2_pos p) - 53) /\
    Zpos mz = Zpos p * 2 ^ (53 - Zpos (digits2_pos p)).
Proof.
  intros D. unfold binary_round.
  assert (F : fexp prec emax (Zpos (digits2_pos p) + 0) = Zpos (digits2_pos p) - 53).
  { unfold fexp, SpecFloat.emin, prec, emax. lia. }
  rewrite F.
  pose proof (shl_align_fst p 0 (Zpos (digits2_pos p) - 53) ltac:(lia)) as A.
  pose proof (shl_align_snd p 0 (Zpos (digits2_pos p) - 53)) as B.
  destruct (shl_align p 0 (Zpos (digits2_pos p) - 53)) as [mz ez].
  simpl fst in A. simpl snd in B. rewrite Z.min_r in B by lia. subst ez.
  replace (0 - (Zpos (digits2_pos p) - 53)) with (53 - Zpos (digits2_pos p)) in A
    by lia.
  exists mz. split; [|exact A].
  apply binary_round_aux_exact; [|lia].
  rewrite (digits2_shift p mz (53 - Zpos (digits2_pos p))) by (lia || exact A).
  lia.
Qed.

Lemma Number_of_count_SF (n : nat) :
  0 < Z.of_nat n < 2 ^ 53 ->
  exists mz d,
    SF (Number_of_count n) = S754_finite false mz (d - 53) /\
    1 <= d <= 53 /\ Zpos mz = Z.of_nat n * 2 ^ (53 - d) /\
    2 ^ (d - 1) <= Z.of_nat n < 2 ^ d.
Proof.
  intros [H0 H1]. unfold Number_of_count. rewrite of_uint63_spec.
  rewrite Uint63.of_Z_spec.
  rewrite Z.mod_small
    by (split; [lia|]; eapply Z.lt_le_trans; [exact H1|];
        change Uint63Axioms.wB with (2 ^ 63); apply Z.pow_le_mono_r; lia).
  destruct (Z.of_nat n) as [|p|p] eqn:E; try lia.
  simpl binary_normalize.
  pose proof (digits2_bounds p) as [L U].
  assert (D : Zpos (digits2_pos p) <= 53).
  { assert (X : 2 ^ (Zpos (digits2_pos p) - 1) < 2 ^ 53) by lia.
    apply Z.pow_lt_mono_r_iff in X; lia. }
  destruct (binary_round_integer p D) as (mz & R & M).
  exists mz, (Zpos (digits2_pos p)). rewrite R. repeat split; try lia.
Qed.

Lemma Number_of_count_0 : Number_of_count 0 = 0%float.
Proof. reflexivity. Qed.

(** Counts below 2^53 are ordered as numbers the way they are as counts. *)
Lemma Number_of_count_lt (n m : nat) :
  (n < m)%nat -> Z.of_nat m < 2 ^ 53 ->
  key (Number_of_count n) < key (Number_of_count m).
Proof.
  intros L B.
  destruct (Number_of_count_SF m ltac:(lia)) as (mz & d & Em & Hd & Mz & Bm).
  unfold key at 2. rewrite Em. unfold SFkey, cond_Zopp.
  assert (P : 0 < 2 ^ (53 - d)) by (apply Z.pow_pos_nonneg; lia).
  destruct n as [|n].
  - rewrite Number_of_count_0. unfold key. rewrite SF_zero. simpl SFkey.
    change (2 ^ 53) with 9007199254740992. nia.
  - destruct (Number_of_count_SF (S n) ltac:(lia)) as (nz & c & En & Hc & Nz & Bn).
    unfold key. rewrite En. unfold SFkey, cond_Zopp.
    assert (Q : 0 < 2 ^ (53 - c)) by (apply Z.pow_pos_nonneg; lia).
    assert (C : c <= d).
    { assert (X : 2 ^ (c - 1) < 2 ^ d) by lia.
      apply Z.pow_lt_mono_r_iff in X; lia. }
    assert (Un : Zpos nz < 2 ^ 53).
    { rewrite Nz. replace 53 with (c + (53 - c)) at 2 by lia.
      rewrite Z.pow_add_r by lia. nia. }
    assert (Lm : 2 ^ 52 <= Zpos mz).
    { rewrite Mz. replace 52 with (d - 1 + (53 - d)) by lia.
      rewrite Z.pow_add_r by lia. nia. }
    destruct (Z.eq_dec c d) as [->|N].
    + rewrite Nz, Mz. nia.
    + change (2 ^ 53) with 9007199254740992 in *.
      change (2 ^ 52) with 4503599627370496 in *. nia.
Qed.

Lemma Number_of_count_le (n m : nat) :
  (n <= m)%nat -> Z.of_nat m < 2 ^ 53 ->
  key (Number_of_count n) <= key (Number_of_count m).
Proof.
  intros L B. destruct (Nat.eq_dec n m) as [->|N]; [lia|].
  apply Z.lt_le_incl, Number_of_count_lt; lia.
Qed.

(** * Successive assignments *)

Lemma activeOrders_le_length statuses db i :
  (activeOrders statuses db i <= length (orders db))%nat.
Proof. unfold activeOrders. apply List.filter_length_le. Qed.

Lemma countedFor_confirmed statuses a i r :
  In "Confirmed" statuses ->
  countedFor statuses a {| o_id := i; o_restaurant_id := r;
                           o_agent_id := Some a; o_status := "Confirmed" |}
  = true.
Proof.
  intros C. unfold countedFor, countsFor. cbn [o_status o_agent_id].
  assert (X : existsb (String.eqb "Confirmed") statuses = true).
  { apply existsb_exists. exists "Confirmed". split; [exact C|].
    apply String.eqb_refl. }
  rewrite X. apply Z.eqb_refl.
Qed.

Lemma countedFor_other statuses a b i r :
  b <> a ->
  countedFor statuses b {| o_id := i; o_restaurant_id := r;
                           o_agent_id := Some a; o_status := "Confirmed" |}
  = false.
Proof.
  intros N. unfold countedFor, countsFor. cbn [o_status o_agent_id].
  destruct (existsb _ statuses); [|reflexivity].
  apply Z.eqb_neq. congruence.
Qed.

(** The orders counted for the agent of an update: those counted before,
    and the rows of the order. *)
Lemma activeOrders_update_same statuses db a orderId :
  In "Confirmed" statuses ->
  (forall o, In o (orders db) -> o_id o = orderId ->
             countedFor statuses a o = false) ->
  activeOrders statuses (updateOrder db a orderId) a
  = (activeOrders statuses db a + length (selectOrder db orderId))%nat.
Proof.
  intros C U. unfold activeOrders, selectOrder. simpl.
  induction (orders db) as [|o os IH]; [reflexivity|].
  cbn [List.map List.filter].
  assert (IH' := IH (fun p I => U p (or_intror I))). clear IH.
  destruct (Z.eqb_spec (o_id o) orderId) as [Q|Q].
  - rewrite countedFor_confirmed by exact C.
    rewrite (U o (or_introl eq_refl) Q). cbn [length]. rewrite IH'. lia.
  - destruct (countedFor statuses a o); cbn [length]; rewrite IH'; lia.
Qed.

(** The orders counted for another agent are not more than before. *)
Lemma activeOrders_update_other statuses db a orderId b :
  b <> a ->
  (activeOrders statuses (updateOrder db a orderId) b
   <= activeOrders statuses db b)%nat.
Proof.
  intros N. unfold activeOrders. simpl.
  induction (orders db) as [|o os IH]; [reflexivity|].
  cbn [List.map List.filter].
  destruct (Z.eqb_spec (o_id o) orderId) as [Q|Q].
  - rewrite countedFor_other by exact N.
    destruct (countedFor statuses b o); cbn [length]; lia.
  - destruct (countedFor statuses b o); cbn [length]; lia.
Qed.

Lemma updateOrder_length db a orderId :
  length (orders (updateOrder db a orderId)) = length (orders db).
Proof. simpl. apply List.length_map. Qed.

(** The workload map after a successful query. *)
Lemma loadWorkload_counted env fails db i :
  fails SelectLoads = false -> ASSIGN_LOAD_STATUSES env <> [] ->
  loadWorkload env fails db !! i
  = if in_dec Z.eq_dec i
         (nodup Z.eq_dec (omap (countsFor (ASSIGN_LOAD_STATUSES env)) (orders db)))
    then Some (Number_of_count (activeOrders (ASSIGN_LOAD_STATUSES env) db i))
    else None.
Proof.
  intros F N. unfold loadWorkload. rewrite F.
  destruct (ASSIGN_LOAD_STATUSES env) as [|s l] eqn:S; [contradiction|].
  unfold selectLoads, activeOrders.
  rewrite (setLoads_lookup
             (fun j => count_occ Z.eq_dec (omap (countsFor (s :: l)) (orders db)) j)).
  rewrite <- count_occ_counted. reflexivity.
Qed.

Lemma loadOf_counted env fails db i :
  fails SelectLoads = false -> In "Confirmed" (ASSIGN_LOAD_STATUSES env) ->
  key (loadOf (loadWorkload env fails db) i)
  = key (Number_of_count (activeOrders (ASSIGN_LOAD_STATUSES env) db i)).
Proof.
  intros F C. unfold loadOf.
  rewrite loadWorkload_counted
    by (try assumption; intros E; rewrite E in C; destruct C).
  destruct (in_dec _ _ _) as [I|I]; [reflexivity|].
  rewrite nodup_In in I. apply (count_occ_not_In Z.eq_dec) in I.
  rewrite count_occ_counted in I. unfold activeOrders. rewrite I. reflexivity.
Qed.

(** X19: the admin handler does not give two orders in a row to one agent
    while another agent within the radius of the second pickup point had
    no more orders in progress than that agent had: the first order, now
    Confirmed, counts for the agent who got it, and the lower workload
    wins.  (Confirmed is among the counted statuses, as it is by default;
    the first order was not already counted for the agent.) *)
Theorem just_assigned_agent_is_not_next
    (E : Builtins) (env : environment) (fails1 fails2 : statement -> bool)
    (db db1 db2 : database) (o1 o2 a a2 : Z) (d1 d2 rlat rlng : float)
    (other : candidate) :
  adminAssign E env fails1 db o1 = (db1, AgentAssigned a d1) ->
  adminAssign E env fails2 db1 o2 = (db2, AgentAssigned a2 d2) ->
  fails2 SelectLoads = false ->
  In "Confirmed" (ASSIGN_LOAD_STATUSES env) ->
  (forall o, In o (orders db) -> o_id o = o1 ->
             countedFor (ASSIGN_LOAD_STATUSES env) a o = false) ->
  pickup db1 o2 = Some (rlat, rlng) ->
  In other (eligible E env fails2 db1 rlat rlng) ->
  c_id other <> a ->
  (activeOrders (ASSIGN_LOAD_STATUSES env) db (c_id other)
   <= activeOrders (ASSIGN_LOAD_STATUSES env) db a)%nat ->
  Z.of_nat (length (orders db)) < 2 ^ 53 ->
  a2 <> a.
Proof.
  intros A1 A2 F C U P I N L B ->.
  apply adminAssign_assigned in A1.
  destruct A1 as (x1 & y1 & best1 & P1 & _ & _ & _ & ->).
  apply adminAssign_assigned in A2.
  destruct A2 as (x2 & y2 & best & P2 & S & Ib & _ & _).
  rewrite P in P2. injection P2 as <- <-.
  set (st := ASSIGN_LOAD_STATUSES env) in *.
  set (db1 := updateOrder db a o1) in *.
  pose proof (selected_is_lowest _ _ _ _ _ _ _ (loadOf_not_nan env fails2 db1) S
                other I) as [Le _].
  assert (Cb : c_load best = loadOf (loadWorkload env fails2 db1) a).
  { apply selectBest_In, withinRadius_In in S. destruct S as [S _].
    apply candidates_In in S. destruct S as (ag & _ & ->). simpl in *.
    rewrite Ib. reflexivity. }
  assert (Co : c_load other = loadOf (loadWorkload env fails2 db1) (c_id other)).
  { unfold eligible in I. apply withinRadius_In in I. destruct I as [I _].
    apply candidates_In in I. destruct I as (ag & _ & ->). reflexivity. }
  rewrite leb_key in Le
    by (rewrite ?Cb, ?Co; apply loadOf_not_nan).
  apply Z.leb_le in Le. rewrite Cb, Co in Le.
  rewrite !loadOf_counted in Le by assumption. fold st in Le.
  assert (S1 : selectOrder db o1 <> []).
  { unfold pickup in P1. destruct (selectOrder db o1); [discriminate|].
    discriminate. }
  assert (G1 : (activeOrders st db a + 1 <= activeOrders st db1 a)%nat).
  { subst db1. rewrite activeOrders_update_same by assumption.
    destruct (selectOrder db o1); [contradiction|]. simpl. lia. }
  pose proof (activeOrders_update_other st db a o1 (c_id other) N) as G2.
  fold db1 in G2.
  pose proof (activeOrders_le_length st db1 a) as G3.
  subst db1. rewrite updateOrder_length in G3.
  set (db1 := updateOrder db a o1) in *.
  assert (K : key (Number_of_count (activeOrders st db1 (c_id other)))
              < key (Number_of_count (activeOrders st db1 a))).
  { apply Number_of_count_lt; lia. }
  lia.
Qed.

Lemma just_assigned_agent_is_not_next_witness :
  snd (adminAssign smallAngle defaults reliable idleAgents 10)
  = AgentAssigned 1 (dist smallAngle 17.3850%float 78.4867%float
                       17.3860%float 78.4870%float) /\
  snd (adminAssign smallAngle defaults reliable
         (fst (adminAssign smallAngle defaults reliable idleAgents 10)) 13)
  = AgentAssigned 2 (dist smallAngle 17.3850%float 78.4867%float
                       17.4000%float 78.5100%float) /\
  2 <> 1.
Proof.
  split; [vm_compute; reflexivity|]. split; [vm_compute; reflexivity|].
  apply (just_assigned_agent_is_not_next smallAngle defaults reliable reliable
           idleAgents
           (fst (adminAssign smallAngle defaults reliable idleAgents 10))
           (fst (adminAssign smallAngle defaults reliable
                   (fst (adminAssign smallAngle defaults reliable idleAgents 10))
                   13))
           10 13 1 2
           (dist smallAngle 17.3850%float 78.4867%float 17.3860%float 78.4870%float)
           (dist smallAngle 17.3850%float 78.4867%float 17.4000%float 78.5100%float)
           17.3850%float 78.4867%float
           {| c_id := 2;
              c_d := dist smallAngle 17.3850%float 78.4867%float
                       17.4000%float 78.5100%float;
              c_load := 0%float |}).
  - vm_compute. reflexivity.
  - vm_compute. reflexivity.
  - reflexivity.
  - simpl. auto.
  - simpl. intros o [<-|[<-|[]]] Q; [reflexivity|discriminate Q].
  - reflexivity.
  - vm_compute. right. left. reflexivity.
  - simpl. lia.
  - vm_compute. lia.
  - simpl. lia.
Defined.

(** * An agent at the restaurant *)

(** X20: when an active agent stands exactly at the restaurant of the
    order, the admin handler assigns the order to someone, provided the
    coordinates are in range, the radius is not negative and no statement
    other than the workload query fails: that agent is at distance 0, and
    so within the radius. *)
Theorem agent_at_the_restaurant_is_in_reach
    (E : Builtins) (HE : Conforms E) (env : environment)
    (fails : statement -> bool) (db : database) (orderId : Z)
    (rlat rlng : float) (ag : agentRow) :
  (forall s, s <> SelectLoads -> fails s = false) ->
  pickup db orderId = Some (rlat, rlng) -> inRange rlat rlng = true ->
  In ag (selectAgents (agents db)) -> ag_lat ag = rlat -> ag_lng ag = rlng ->
  (0 <=? ASSIGN_MAX_KM env)%float = true ->
  In {| c_id := ag_id ag; c_d := 0%float;
        c_load := loadOf (loadWorkload env fails db) (ag_id ag) |}
     (eligible E env fails db rlat rlng) /\
  exists best,
    adminAssign E env fails db orderId
    = (updateOrder db (c_id best) orderId, AgentAssigned (c_id best) (c_d best)).
Proof.
  intros F P R I X Y M.
  assert (J : In {| c_id := ag_id ag; c_d := 0%float;
                    c_load := loadOf (loadWorkload env fails db) (ag_id ag) |}
                (eligible E env fails db rlat rlng)).
  { unfold eligible. apply withinRadius_In. split; [|exact M].
    apply candidates_In. exists ag. split; [exact I|].
    rewrite X, Y, (dist_self E HE rlat rlng R). reflexivity. }
  split; [exact J|].
  destruct (adminAssign_selects E env fails db orderId rlat rlng)
    as (best & H & _); try (apply F; discriminate); try assumption.
  - intros N. rewrite N in J. destruct J.
  - exists best. exact H.
Qed.

Lemma agent_at_the_restaurant_is_in_reach_witness :
  In {| c_id := 9; c_d := 0%float;
        c_load := loadOf (loadWorkload defaults reliable confirmedOrder) 9 |}
     (eligible smallAngle defaults reliable confirmedOrder
        17.3850%float 78.4867%float) /\
  exists best,
    adminAssign smallAngle defaults reliable confirmedOrder 10
    = (updateOrder confirmedOrder (c_id best) 10,
       AgentAssigned (c_id best) (c_d best)).
Proof.
  apply (agent_at_the_restaurant_is_in_reach smallAngle smallAngle_conforms
           defaults reliable confirmedOrder 10 17.3850%float 78.4867%float
           {| ag_id := 9; ag_lat := 17.3850%float; ag_lng := 78.4867%float |});
    try reflexivity.
  simpl. left. reflexivity.
Defined.

(** * The radius, widened *)

(** A successful assignment means that the reads and the update went
    through. *)
Lemma adminAssign_assigned_fails E env fails db orderId db' a d :
  adminAssign E env fails db orderId = (db', AgentAssigned a d) ->
  fails SelectOrder = false /\ fails SelectRestaurant = false /\
  fails SelectAgents = false /\ fails UpdateOrder = false.
Proof.
  intros H. unfold adminAssign in H.
  destruct (fails SelectOrder); [discriminate H|].
  destruct (selectOrder db orderId) as [|o ?]; [discriminate H|].
  destruct (o_restaurant_id o) as [rid|]; [|discriminate H].
  destruct (rid =? 0); [discriminate H|].
  destruct (fails SelectRestaurant); [discriminate H|].
  destruct (selectRestaurant db rid) as [|r ?]; [discriminate H|].
  destruct (r_latitude r) as [x|], (r_longitude r) as [y|]; try discriminate H.
  destruct (fails SelectAgents); [discriminate H|].
  destruct (selectAgents (agents db)) as [|ag ags]; [discriminate H|].
  destruct (selectBest _ _ _ _ _ _) as [best|]; [|discriminate H].
  destruct (fails UpdateOrder); [discriminate H|]. auto.
Qed.

Lemma leb_trans (x y z : float) :
  (x <=? y)%float = true -> (y <=? z)%float = true -> (x <=? z)%float = true.
Proof.
  intros A B.
  destruct (leb_not_nan _ _ A) as [Nx Ny]. destruct (leb_not_nan _ _ B) as [_ Nz].
  rewrite leb_key in * by assumption.
  apply Z.leb_le in A, B. apply Z.leb_le. lia.
Qed.

(** X21: widening the radius never loses an assignment: when the admin
    handler assigns an agent with some radius, it also assigns one with
    any larger radius and the same workload statuses, an agent whose
    workload is not above that of the agent chosen before. *)
Theorem wider_radius_still_assigns
    (E : Builtins) (env env' : environment) (fails : statement -> bool)
    (db db' : database) (orderId a : Z) (d : float) :
  adminAssign E env fails db orderId = (db', AgentAssigned a d) ->
  (ASSIGN_MAX_KM env <=? ASSIGN_MAX_KM env')%float = true ->
  ASSIGN_LOAD_STATUSES env' = ASSIGN_LOAD_STATUSES env ->
  exists a' d',
    adminAssign E env' fails db orderId
    = (updateOrder db a' orderId, AgentAssigned a' d') /\
    (loadOf (loadWorkload env' fails db) a'
     <=? loadOf (loadWorkload env fails db) a)%float = true.
Proof.
  intros H M S.
  destruct (adminAssign_assigned_fails _ _ _ _ _ _ _ _ H) as (F1 & F2 & F3 & F4).
  apply adminAssign_assigned in H.
  destruct H as (rlat & rlng & best & P & B & <- & <- & _).
  assert (W : loadWorkload env' fails db = loadWorkload env fails db)
    by (unfold loadWorkload; rewrite S; reflexivity).
  assert (I : In best (eligible E env' fails db rlat rlng)).
  { apply selectBest_In, withinRadius_In in B. destruct B as [C D].
    unfold eligible. rewrite W. apply withinRadius_In. split; [exact C|].
    eapply leb_trans; eassumption. }
  assert (A : selectAgents (agents db) <> []).
  { intros N. unfold eligible in I. rewrite N in I. destruct I. }
  rewrite (adminAssign_reached E env' fails db orderId rlat rlng) by assumption.
  destruct (selectBest (dist E) rlat rlng (ASSIGN_MAX_KM env')
              (loadOf (loadWorkload env' fails db)) (selectAgents (agents db)))
    as [b2|] eqn:B2.
  - rewrite F4. exists (c_id b2), (c_d b2). split; [reflexivity|].
    pose proof (selected_is_lowest _ _ _ _ _ _ _ (loadOf_not_nan env' fails db) B2
                  best I) as [Le _].
    assert (C2 : c_load b2 = loadOf (loadWorkload env' fails db) (c_id b2)).
    { apply selectBest_In, withinRadius_In in B2. destruct B2 as [C _].
      apply candidates_In in C. destruct C as (ag & _ & ->). reflexivity. }
    assert (C1 : c_load best = loadOf (loadWorkload env fails db) (c_id best)).
    { apply selectBest_In, withinRadius_In in B. destruct B as [C _].
      apply candidates_In in C. destruct C as (ag & _ & ->). reflexivity. }
    rewrite C2, C1 in Le. exact Le.
  - apply selectBest_None in B2. unfold eligible in I. rewrite B2 in I.
    destruct I.
Qed.

Lemma wider_radius_still_assigns_witness :
  exists a' d',
    adminAssign smallAngle
      {| env_ASSIGN_MAX_KM := 50; env_ASSIGN_LOAD_STATUSES := None |}
      reliable scenario 10
    = (updateOrder scenario a' 10, AgentAssigned a' d') /\
    (loadOf (loadWorkload
               {| env_ASSIGN_MAX_KM := 50; env_ASSIGN_LOAD_STATUSES := None |}
               reliable scenario) a'
     <=? loadOf (loadWorkload defaults reliable scenario) 2)%float = true.
Proof.
  apply (wider_radius_still_assigns smallAngle defaults
           {| env_ASSIGN_MAX_KM := 50; env_ASSIGN_LOAD_STATUSES := None |}
           reliable scenario
           (fst (adminAssign smallAngle defaults reliable scenario 10)) 10 2
           (dist smallAngle 17.3850%float 78.4867%float 17.4000%float 78.5100%float)).
  - vm_compute. reflexivity.
  - reflexivity.
  - reflexivity.
Defined.
